(** * GitMate front end: API client, chat page, dashboard and middleware

    A shallow embedding of the TypeScript sources
    [frontend/lib/api.ts], the chat page (the [ChatPage] component),
    the dashboard page ([DashboardPage]), the dashboard layout and
    [middleware.ts], together with the properties the written
    specification states about them.  The analysis service itself is
    not among these sources; where a property rests on it, it is
    modelled from the specification and marked as such.

    Conventions.
    - A JavaScript string is a [string] holding its UTF-8 bytes.
    - A JavaScript value of unknown shape ([any], [unknown], the payload
      of an HTTP response) is a [jsval].
    - A computation that may throw is a [completion]; [try]/[catch] is
      [try_catch].
    - An [async] function is cut at its [await]s: each segment that runs
      to completion is one function on the component state. *)

From Stdlib.Strings Require Import String Ascii Byte.
From Stdlib Require Import List ZArith Bool Lia Arith.
From Stdlib Require Import DecimalString QArith Permutation Sorted.
From Stdlib Require OrderedTypeEx.
Import ListNotations.
Close Scope Q_scope.
Local Open Scope list_scope.
Local Open Scope string_scope.

Set Warnings "-register-all".

(* ================================================================== *)
(** ** JavaScript values *)
(* ================================================================== *)

Module JS.

(** Values as they come out of [JSON.parse], plus [undefined].
    Numbers are restricted to integers. *)
Inductive jsval : Type :=
| JUndefined
| JNull
| JBool (b : bool)
| JNum (n : Z)
| JStr (s : string)
| JArr (items : list jsval)
| JObj (fields : list (string * jsval)).

(** ToBoolean. *)
Definition truthy (v : jsval) : bool :=
  match v with
  | JUndefined | JNull => false
  | JBool b => b
  | JNum n => negb (n =? 0)%Z
  | JStr s => negb (s =? "")
  | JArr _ | JObj _ => true
  end.

(** [a || b]. *)
Definition js_or (a b : jsval) : jsval := if truthy a then a else b.

Fixpoint assoc (k : string) (fields : list (string * jsval)) : jsval :=
  match fields with
  | [] => JUndefined
  | (k', v) :: rest => if k' =? k then v else assoc k rest
  end.

(** [v?.k] for a key that no built-in prototype defines: an own
    property of an object, [undefined] on every other value. *)
Definition opt_get (v : jsval) (k : string) : jsval :=
  match v with
  | JObj fields => assoc k fields
  | _ => JUndefined
  end.

Definition Z_toString (n : Z) : string := NilZero.string_of_int (Z.to_int n).

(** ToString, as a template literal [`${v}`] applies it. *)
Fixpoint js_toString (v : jsval) : string :=
  match v with
  | JUndefined => "undefined"
  | JNull => "null"
  | JBool true => "true"
  | JBool false => "false"
  | JNum n => Z_toString n
  | JStr s => s
  | JArr items =>
      String.concat ","
        (map (fun x => match x with
                       | JUndefined | JNull => ""
                       | _ => js_toString x
                       end) items)
  | JObj _ => "[object Object]"
  end.

(** What a [throw] carries. *)
Inductive js_error : Type :=
| AxiosError (response_data : option jsval) (message : string)
    (* [axios.isAxiosError(e)]; [response_data] is [e.response?.data]
       when a response arrived *)
| ErrorObject (message : string)          (* [e instanceof Error] *)
| ThrownValue (v : jsval).                (* anything else *)

(** Result of running a piece of code: it returns or it throws. *)
Inductive completion (A : Type) : Type :=
| Normal (a : A)
| Throw (e : js_error).
Arguments Normal {A} a.
Arguments Throw {A} e.

Definition bind {A B} (c : completion A) (k : A -> completion B) : completion B :=
  match c with
  | Normal a => k a
  | Throw e => Throw e
  end.

(** [try { body } catch (error) { handler(error) }] *)
Definition try_catch {A} (body : completion A) (handler : js_error -> completion A)
  : completion A :=
  match body with
  | Normal a => Normal a
  | Throw e => handler e
  end.

(** [v.k]: member access throws a TypeError on [undefined] and [null]. *)
Definition get_prop (v : jsval) (k : string) : completion jsval :=
  match v with
  | JUndefined =>
      Throw (ErrorObject ("Cannot read properties of undefined (reading '" ++ k ++ "')"))
  | JNull =>
      Throw (ErrorObject ("Cannot read properties of null (reading '" ++ k ++ "')"))
  | _ => Normal (opt_get v k)
  end.

End JS.
Import JS.

Declare Scope js_scope.
Notation "x <- c ;; k" := (bind c (fun x => k))
  (at level 61, c at next level, right associativity) : js_scope.
Local Open Scope js_scope.

(* ================================================================== *)
(** ** Platform string functions used by the API client *)
(* ================================================================== *)

Module Uri.

Definition hex_digit (n : N) : ascii :=
  ascii_of_N (if (n <? 10)%N then 48 + n else 55 + n).

(** [%XX] with upper-case hexadecimal digits. *)
Definition percent (c : ascii) : string :=
  let n := N_of_ascii c in
  String "%" (String (hex_digit (n / 16)) (String (hex_digit (n mod 16)) EmptyString)).

Definition in_range (lo hi : N) (c : ascii) : bool :=
  let n := N_of_ascii c in ((lo <=? n) && (n <=? hi))%N.

Definition is_alnum (c : ascii) : bool :=
  in_range 48 57 c || in_range 65 90 c || in_range 97 122 c.

Fixpoint mem_ascii (c : ascii) (s : string) : bool :=
  match s with
  | EmptyString => false
  | String d rest => Ascii.eqb c d || mem_ascii c rest
  end.

(** [encodeURIComponent]: every byte of the UTF-8 form is escaped except
    letters, digits and the marks [- _ . ! ~ * ' ( )].  Strings here are
    well-formed, so the URIError of a lone surrogate does not arise. *)
Fixpoint encodeURIComponent (s : string) : string :=
  match s with
  | EmptyString => EmptyString
  | String c rest =>
      (if is_alnum c || mem_ascii c "-_.!~*'()"
       then String c EmptyString else percent c)
      ++ encodeURIComponent rest
  end.

(** The application/x-www-form-urlencoded byte serializer. *)
Fixpoint form_encode (s : string) : string :=
  match s with
  | EmptyString => EmptyString
  | String c rest =>
      (if is_alnum c || mem_ascii c "*-._" then String c EmptyString
       else if Ascii.eqb c " " then "+"
       else percent c)
      ++ form_encode rest
  end.

(** [new URLSearchParams()], [append] and [toString]. *)
Definition URLSearchParams := list (string * string).

Definition append (params : URLSearchParams) (k v : string) : URLSearchParams :=
  (params ++ [(k, v)])%list.

Definition toString (params : URLSearchParams) : string :=
  String.concat "&" (map (fun kv => form_encode (fst kv) ++ "=" ++ form_encode (snd kv)) params).

(** Reading a URL back: the text after the first [?], cut at every [&]
    and each piece at its first [=]. *)
Fixpoint cut (sep : ascii) (s : string) : string * option string :=
  match s with
  | EmptyString => (EmptyString, None)
  | String c rest =>
      if Ascii.eqb c sep then (EmptyString, Some rest)
      else let (a, b) := cut sep rest in (String c a, b)
  end.

Fixpoint split (sep : ascii) (s : string) (cur : string) : list string :=
  match s with
  | EmptyString => [cur]
  | String c rest =>
      if Ascii.eqb c sep then cur :: split sep rest EmptyString
      else split sep rest (cur ++ String c EmptyString)
  end.

Definition query_pairs (url : string) : list (string * string) :=
  match snd (cut "?" url) with
  | None => []
  | Some q =>
      map (fun piece => let (k, v) := cut "=" piece in
                        (k, match v with Some v => v | None => EmptyString end))
          (split "&" q EmptyString)
  end.

End Uri.

(* ================================================================== *)
(** ** [types/index.ts] *)
(* ================================================================== *)

Module Types.

Inductive ProjectStatus := pending | analyzing | ready | error_status.

Definition ProjectStatus_toString (s : ProjectStatus) : string :=
  match s with
  | pending => "pending"
  | analyzing => "analyzing"
  | ready => "ready"
  | error_status => "error"
  end.

Record Project := {
  project_id : string;
  project_name : string;
  repoUrl : string;
  project_description : option string;
  status : ProjectStatus;
  createdAt : string;
  updatedAt : string;
  project_userId : string;
  totalEntities : option Z;
  stats : option jsval
}.

Inductive Role := user | assistant.

Record ChatMessage := {
  id : string;
  role : Role;
  content : string;
  timestamp : Z           (* a [Date], as milliseconds since the epoch *)
}.

(** [interface ApiResponse<T> { success; data?; error? }].  [None] is an
    absent key.  [error] is declared [string]; at run time it holds
    whatever [getErrorMessage] returned. *)
Record ApiResponse (T : Type) := {
  success : bool;
  data : option T;
  error : option jsval
}.
Arguments success {T} _.
Arguments data {T} _.
Arguments error {T} _.

Definition ok_with {T} (d : T) : ApiResponse T :=
  {| success := true; data := Some d; error := None |}.
Definition ok_empty {T} : ApiResponse T :=
  {| success := true; data := None; error := None |}.
Definition failed {T} (msg : jsval) : ApiResponse T :=
  {| success := false; data := None; error := Some msg |}.

End Types.
Import Types.

(* ================================================================== *)
(** ** [lib/api.ts] *)
(* ================================================================== *)

Module Api.

Inductive http_method := GET | POST | DELETE.

Record request := {
  method : http_method;
  url : string;
  req_body : option jsval;
  headers : list (string * string)
}.

(** What [await api.get(...)] resolves to: only [response.data] is read. *)
Record AxiosResponse := { response_data : jsval }.

(** A [ReadableStream] body that comes to an end, as its reader sees
    it: the values that [reader.read()] yields with [done: false], then
    either [done: true] or a rejection. *)
Inductive stream_end := StreamDone | StreamError (e : js_error).

Record ReadableStream := {
  chunks : list (list byte);
  ending : stream_end
}.

(** What [await fetch(...)] resolves to: [response.ok] and
    [response.body] (which may be [null]). *)
Record FetchResponse := {
  ok : bool;
  resp_body : option ReadableStream
}.

(** [new TextDecoder()] and [decoder.decode(value, { stream: true })]. *)
Class TextDecoder := {
  decoder : Type;
  new_decoder : decoder;
  decode : decoder -> list byte -> string * decoder
}.

(** Everything outside the module that a call depends on. *)
Record Env := {
  NEXT_PUBLIC_API_URL : option string;            (* [process.env....] *)
  axios_adapter : request -> completion AxiosResponse;
  fetch : request -> completion FetchResponse;
  randomUUID : completion string;                 (* [crypto.randomUUID()] *)
  now : Z                                         (* [new Date()] *)
}.

(** Observable steps of [sendChatMessage], in program order. *)
Inductive io_event :=
| EvFetch (r : request)
| EvRead                       (* a call of [reader.read()] *)
| EvOnChunk (chunk : string).  (* a call of [onChunk(chunk)] *)

Section Client.

Context (env : Env) {TD : TextDecoder}.

Definition API_BASE_URL : string :=
  match NEXT_PUBLIC_API_URL env with
  | Some u => if u =? "" then "http://localhost:8000" else u
  | None => "http://localhost:8000"
  end.

(** The headers of a per-call config: [{ headers: {...} }], or [{}]. *)
Definition AxiosRequestConfig := list (string * string).

(** A request of the instance made by [axios.create({ baseURL, headers })],
    as far as these sources decide it: the base URL followed by the
    path of the call, the header of the instance and those of the
    config of the call.  What the library adds of its own (its default
    [Accept] header, the single slash it puts between a base URL that
    ends in one and the path) is not part of it. *)

Definition instance_request (m : http_method) (path : string) (payload : option jsval)
    (config : AxiosRequestConfig) : request :=
  {| method := m;
     url := API_BASE_URL ++ path;
     req_body := payload;
     headers := (("Content-Type", "application/json") :: config)%list |}.

Definition api_request (m : http_method) (path : string) (payload : option jsval)
    (config : AxiosRequestConfig) : completion AxiosResponse :=
  axios_adapter env (instance_request m path payload config).

Definition api_get (path : string) (config : AxiosRequestConfig) :=
  api_request GET path None config.
Definition api_post (path : string) (payload : jsval) (config : AxiosRequestConfig) :=
  api_request POST path (Some payload) config.
Definition api_delete (path : string) (config : AxiosRequestConfig) :=
  api_request DELETE path None config.

Definition withUserId (userId : option string) : AxiosRequestConfig :=
  match userId with
  | None => []
  | Some u => if u =? "" then [] else [("X-User-Id", u)]
  end.

Definition getErrorMessage (error : js_error) : jsval :=
  match error with
  | AxiosError response_data message =>
      let d := match response_data with Some d => d | None => JUndefined end in
      js_or (js_or (opt_get d "detail") (opt_get d "message")) (JStr message)
  | ErrorObject message => JStr message
  | ThrownValue _ => JStr "An unexpected error occurred"
  end.

(** The shape every exported function has:
    [try { ... return {success: true, ...} }
     catch (error) { return {success: false, error: getErrorMessage(error)} }] *)
Definition guarded {T} (body : completion (ApiResponse T)) : completion (ApiResponse T) :=
  try_catch body (fun error => Normal (failed (getErrorMessage error))).

Definition of_opt (o : option string) : jsval :=
  match o with Some s => JStr s | None => JUndefined end.

(** *** Project APIs *)

Definition createProject (repoUrl name : string) (userId description : option string)
  : completion (ApiResponse jsval) :=
  guarded (
    response <- api_post "/api/projects"
                  (JObj [("repo_url", JStr repoUrl); ("name", JStr name);
                         ("description", of_opt description)])
                  (withUserId userId) ;;
    Normal (ok_with (response_data response))).

Definition getProjects (userId : option string) : completion (ApiResponse jsval) :=
  guarded (
    response <- api_get "/api/projects" (withUserId userId) ;;
    Normal (ok_with (response_data response))).

Definition getProject (id : string) (userId : option string)
  : completion (ApiResponse jsval) :=
  guarded (
    response <- api_get ("/api/projects/" ++ id) (withUserId userId) ;;
    Normal (ok_with (response_data response))).

Definition deleteProject (id : string) (userId : option string)
  : completion (ApiResponse jsval) :=
  guarded (
    _ <- api_delete ("/api/projects/" ++ id) (withUserId userId) ;;
    Normal ok_empty).

(** *** Analysis APIs *)

Record AnalyzeOptions := {
  skipLsp : option bool;
  skipLlmAnalysis : option bool
}.

(** [options?.flag] used as a condition. *)
Definition flag_set (options : option AnalyzeOptions)
    (flag : AnalyzeOptions -> option bool) : bool :=
  match options with
  | Some o => match flag o with Some b => b | None => false end
  | None => false
  end.

Definition analyze_params (options : option AnalyzeOptions) : Uri.URLSearchParams :=
  let params : Uri.URLSearchParams := [] in
  let params := if flag_set options skipLsp
                then Uri.append params "skip_lsp" "true" else params in
  let params := if flag_set options skipLlmAnalysis
                then Uri.append params "skip_llm_analysis" "true" else params in
  params.

Definition analyze_url (projectId : string) (options : option AnalyzeOptions) : string :=
  "/api/projects/" ++ projectId ++ "/analyze?" ++ Uri.toString (analyze_params options).

Definition analyzeProject (projectId : string) (userId : option string)
    (options : option AnalyzeOptions) : completion (ApiResponse jsval) :=
  guarded (
    response <- api_post (analyze_url projectId options) (JObj []) (withUserId userId) ;;
    Normal (ok_with (response_data response))).

Definition getProjectStats (projectId : string) (userId : option string)
  : completion (ApiResponse jsval) :=
  guarded (
    response <- api_get ("/api/projects/" ++ projectId ++ "/stats") (withUserId userId) ;;
    Normal (ok_with (response_data response))).

Definition getProjectFileTree (projectId : string) (userId : option string)
  : completion (ApiResponse jsval) :=
  guarded (
    response <- api_get ("/api/projects/" ++ projectId ++ "/file-tree") (withUserId userId) ;;
    Normal (ok_with (response_data response))).

Record EntityOptions := {
  entityType : option string;
  filePath : option string;
  search : option string;
  limit : option Z;
  offset : option Z
}.

(** [if (options?.field) params.append(key, options.field)] for a
    string field, and with [.toString()] for a number field. *)
Definition append_str (params : Uri.URLSearchParams) (key : string)
    (v : option string) : Uri.URLSearchParams :=
  match v with
  | Some s => if s =? "" then params else Uri.append params key s
  | None => params
  end.

Definition append_num (params : Uri.URLSearchParams) (key : string)
    (v : option Z) : Uri.URLSearchParams :=
  match v with
  | Some n => if (n =? 0)%Z then params else Uri.append params key (Z_toString n)
  | None => params
  end.

Definition entities_params (options : option EntityOptions) : Uri.URLSearchParams :=
  match options with
  | None => []
  | Some o =>
      let params := append_str [] "entity_type" (entityType o) in
      let params := append_str params "file_path" (filePath o) in
      let params := append_str params "search" (search o) in
      let params := append_num params "limit" (limit o) in
      let params := append_num params "offset" (offset o) in
      params
  end.

Definition getProjectEntities (projectId : string) (userId : option string)
    (options : option EntityOptions) : completion (ApiResponse jsval) :=
  guarded (
    response <- api_get ("/api/projects/" ++ projectId ++ "/entities?"
                         ++ Uri.toString (entities_params options))
                        (withUserId userId) ;;
    Normal (ok_with (response_data response))).

(** *** Function references and calls *)

Definition refs_url (projectId functionName : string) : string :=
  "/api/projects/" ++ projectId ++ "/refs/" ++ Uri.encodeURIComponent functionName.

Definition calls_url (projectId functionName : string) : string :=
  "/api/projects/" ++ projectId ++ "/calls/" ++ Uri.encodeURIComponent functionName.

Definition getFunctionReferences (projectId functionName : string)
    (userId : option string) : completion (ApiResponse jsval) :=
  guarded (
    response <- api_get (refs_url projectId functionName) (withUserId userId) ;;
    results <- get_prop (response_data response) "results" ;;
    Normal (ok_with results)).

Definition getFunctionCalls (projectId functionName : string)
    (userId : option string) : completion (ApiResponse jsval) :=
  guarded (
    response <- api_get (calls_url projectId functionName) (withUserId userId) ;;
    results <- get_prop (response_data response) "results" ;;
    Normal (ok_with results)).

(** *** Chart APIs *)

Definition getCallGraph (projectId : string) (userId focus : option string)
  : completion (ApiResponse jsval) :=
  guarded (
    let params := match focus with
                  | Some f => if f =? "" then ""
                              else "?focus=" ++ Uri.encodeURIComponent f
                  | None => ""
                  end in
    response <- api_get ("/api/projects/" ++ projectId ++ "/charts/call-graph" ++ params)
                        (withUserId userId) ;;
    Normal (ok_with (response_data response))).

Definition getEntityDiagram (projectId : string) (userId : option string)
  : completion (ApiResponse jsval) :=
  guarded (
    response <- api_get ("/api/projects/" ++ projectId ++ "/charts/entity-diagram")
                        (withUserId userId) ;;
    Normal (ok_with (response_data response))).

Definition getStructureDiagram (projectId : string) (userId : option string)
  : completion (ApiResponse jsval) :=
  guarded (
    response <- api_get ("/api/projects/" ++ projectId ++ "/charts/structure-diagram")
                        (withUserId userId) ;;
    Normal (ok_with (response_data response))).

(** *** File content *)

Definition getFileContent (projectId filePath : string) (userId : option string)
  : completion (ApiResponse jsval) :=
  guarded (
    response <- api_get ("/api/projects/" ++ projectId ++ "/file/"
                         ++ Uri.encodeURIComponent filePath)
                        (withUserId userId) ;;
    Normal (ok_with (response_data response))).

(** *** Chat APIs *)

(** A computation and the observable steps it has performed. *)
Definition traced (A : Type) : Type := (list io_event * completion A)%type.

Definition t_ret {A} (a : A) : traced A := ([], Normal a).
Definition t_throw {A} (e : js_error) : traced A := ([], Throw e).
Definition t_emit (ev : io_event) : traced unit := ([ev], Normal tt).
Definition t_bind {A B} (c : traced A) (k : A -> traced B) : traced B :=
  match c with
  | (tr, Normal a) => let (tr', r) := k a in ((tr ++ tr')%list, r)
  | (tr, Throw e) => (tr, Throw e)
  end.
Definition t_try {A} (body : traced A) (handler : js_error -> completion A) : traced A :=
  match body with
  | (tr, Normal a) => (tr, Normal a)
  | (tr, Throw e) => (tr, handler e)
  end.

Local Notation "x <~ c ;; k" := (t_bind c (fun x => k))
  (at level 61, c at next level, right associativity).

(** [while (true) { const { done, value } = await reader.read(); ... }] *)
Fixpoint read_loop (onChunk : bool) (d : decoder) (values : list (list byte))
    (ending : stream_end) (fullContent : string) {struct values} : traced string :=
  _ <~ t_emit EvRead ;;
  match values with
  | [] =>
      match ending with
      | StreamDone => t_ret fullContent              (* [if (done) break] *)
      | StreamError e => t_throw e
      end
  | value :: rest =>
      let (chunk, d') := decode d value in
      let fullContent := fullContent ++ chunk in
      _ <~ (if onChunk then t_emit (EvOnChunk chunk) else t_ret tt) ;;
      read_loop onChunk d' rest ending fullContent
  end.

Definition chat_request (projectId message : string) (userId : option string) : request :=
  {| method := POST;
     url := API_BASE_URL ++ "/api/projects/" ++ projectId ++ "/chat";
     req_body := Some (JObj [("message", JStr message)]);   (* [JSON.stringify({ message })] *)
     headers := (("Content-Type", "application/json") ::
                 match userId with
                 | Some u => if u =? "" then [] else [("X-User-Id", u)]
                 | None => []
                 end)%list |}.

(** [onChunk] tells whether the optional callback was passed; its calls
    appear in the trace as [EvOnChunk]. *)
Definition sendChatMessage (projectId message : string) (userId : option string)
    (onChunk : bool) : traced (ApiResponse ChatMessage) :=
  t_try (
    let req := chat_request projectId message userId in
    _ <~ t_emit (EvFetch req) ;;
    response <~ ([], fetch env req) ;;
    _ <~ (if negb (ok response)
          then t_throw (ErrorObject "Failed to send message") else t_ret tt) ;;
    fullContent <~ match resp_body response with
                   | Some reader => read_loop onChunk new_decoder (chunks reader) (ending reader) ""
                   | None => t_ret ""
                   end ;;
    uuid <~ ([], randomUUID env) ;;
    t_ret (ok_with {| id := uuid;
                      role := assistant;
                      content := fullContent;
                      timestamp := now env |}))
  (fun error => Normal (failed (getErrorMessage error))).

Definition getChatHistory (projectId : string) (userId : option string)
  : completion (ApiResponse jsval) :=
  guarded (
    response <- api_get ("/api/projects/" ++ projectId ++ "/chat/history")
                        (withUserId userId) ;;
    Normal (ok_with (response_data response))).

Definition clearChatHistory (projectId : string) (userId : option string)
  : completion (ApiResponse jsval) :=
  guarded (
    _ <- api_post ("/api/projects/" ++ projectId ++ "/chat/clear") (JObj [])
                  (withUserId userId) ;;
    Normal ok_empty).

(** *** Health check *)

Definition checkHealth : completion (ApiResponse jsval) :=
  guarded (
    response <- api_get "/api/health" [] ;;
    Normal (ok_with (response_data response))).

End Client.
End Api.

(* ================================================================== *)
(** ** The chat page: [ChatPage] *)
(* ================================================================== *)

Module ChatPage.

Definition nl : string := String (ascii_of_nat 10) EmptyString.
Definition dq : string := String (ascii_of_nat 34) EmptyString.

Record State := {
  messages : list ChatMessage;
  input : string;
  isLoading : bool;
  isInitializing : bool;
  error : option string;
  streamingContent : string
}.

Definition set_messages (f : list ChatMessage -> list ChatMessage) (s : State) : State :=
  {| messages := f (messages s); input := input s; isLoading := isLoading s;
     isInitializing := isInitializing s; error := error s;
     streamingContent := streamingContent s |}.
Definition set_input (v : string) (s : State) : State :=
  {| messages := messages s; input := v; isLoading := isLoading s;
     isInitializing := isInitializing s; error := error s;
     streamingContent := streamingContent s |}.
Definition set_isLoading (v : bool) (s : State) : State :=
  {| messages := messages s; input := input s; isLoading := v;
     isInitializing := isInitializing s; error := error s;
     streamingContent := streamingContent s |}.
Definition set_isInitializing (v : bool) (s : State) : State :=
  {| messages := messages s; input := input s; isLoading := isLoading s;
     isInitializing := v; error := error s;
     streamingContent := streamingContent s |}.
Definition set_error (v : option string) (s : State) : State :=
  {| messages := messages s; input := input s; isLoading := isLoading s;
     isInitializing := isInitializing s; error := v;
     streamingContent := streamingContent s |}.
Definition set_streamingContent (f : string -> string) (s : State) : State :=
  {| messages := messages s; input := input s; isLoading := isLoading s;
     isInitializing := isInitializing s; error := error s;
     streamingContent := f (streamingContent s) |}.

Definition welcome : string :=
  "Hello! I'm your AI assistant for this codebase. I can help you understand the code structure, find specific functions, and answer questions about how different parts work together."
  ++ nl ++ nl ++ "Try asking me things like:" ++ nl
  ++ "- " ++ dq ++ "Where is the authentication logic?" ++ dq ++ nl
  ++ "- " ++ dq ++ "How does the main function work?" ++ dq ++ nl
  ++ "- " ++ dq ++ "What functions are in this file?" ++ dq ++ nl ++ nl
  ++ "You can also use special commands:" ++ nl
  ++ "- `/refs functionName` - Find all references to a function" ++ nl
  ++ "- `/calls functionName` - Show the call hierarchy".

(** The [useState] initial values. *)
Definition initial (newDate : Z) : State :=
  {| messages := [ {| id := "1"; role := assistant; content := welcome;
                      timestamp := newDate |} ];
     input := "";
     isLoading := false;
     isInitializing := true;
     error := None;
     streamingContent := "" |}.

Section Handlers.

(** [String.prototype.trim]. *)
Variable trim : string -> string.

(** *** [initChat], cut at its two [await]s *)

Definition initChat_begin (s : State) : State :=
  set_error None (set_isInitializing true s).

(** After [await getProject(...)]; the flag tells whether [initChat]
    goes on to load the history. *)
Definition initChat_project (projectResult : ApiResponse Project) (s : State)
  : State * bool :=
  match Types.success projectResult, Types.data projectResult with
  | true, Some project =>
      match status project with
      | ready => (s, true)
      | st =>
          (set_isInitializing false
             (set_error (Some ("Project is " ++ ProjectStatus_toString st
                               ++ ". Please analyze it first from the dashboard.")) s),
           false)
      end
  | _, _ => (set_isInitializing false (set_error (Some "Project not found") s), false)
  end.

Fixpoint historyMessages (idx : nat) (newDate : nat -> Z) (history : list ChatMessage)
  : list ChatMessage :=
  match history with
  | [] => []
  | msg :: rest =>
      {| id := "history-" ++ Z_toString (Z.of_nat idx);
         role := role msg;
         content := content msg;
         timestamp := newDate idx |} :: historyMessages (S idx) newDate rest
  end.

(** After [await getChatHistory(...)]. *)
Definition initChat_history (historyResult : ApiResponse (list ChatMessage))
    (newDate : nat -> Z) (s : State) : State :=
  let s :=
    match Types.success historyResult, Types.data historyResult with
    | true, Some ((_ :: _) as history) =>
        set_messages (fun prev => (prev ++ historyMessages 0 newDate history)%list) s
    | _, _ => s
    end in
  set_isInitializing false s.

(** *** [handleSubmit], cut at [await sendChatMessage(...)] *)

(** Up to the [await]: [None] is the early [return]; otherwise the new
    state and the message text handed to [sendChatMessage]. *)
Definition handleSubmit_begin (dateNow newDate : Z) (s : State) : option (State * string) :=
  if (trim (input s) =? "") || isLoading s then None
  else
    let userMessage := {| id := Z_toString dateNow; role := user;
                          content := trim (input s); timestamp := newDate |} in
    let s := set_messages (fun prev => (prev ++ [userMessage])%list) s in
    let s := set_input "" s in
    let s := set_isLoading true s in
    let s := set_streamingContent (fun _ => "") s in
    Some (s, content userMessage).

(** The callback passed as [onChunk]. *)
Definition onChunk (chunk : string) (s : State) : State :=
  set_streamingContent (fun prev => prev ++ chunk) s.

(** From the [await] to the end. *)
Definition handleSubmit_end (result : ApiResponse ChatMessage) (dateNow newDate : Z)
    (s : State) : State :=
  let s :=
    match Types.success result, Types.data result with
    | true, Some d =>
        let assistantMessage := {| id := Z_toString (dateNow + 1); role := assistant;
                                   content := content d; timestamp := newDate |} in
        set_messages (fun prev => (prev ++ [assistantMessage])%list) s
    | _, _ =>
        let shown := js_or (match Types.error result with
                            | Some e => e | None => JUndefined end)
                           (JStr "Unknown error") in
        let errorMessage := {| id := Z_toString (dateNow + 1); role := assistant;
                               content := "Sorry, I encountered an error: "
                                          ++ js_toString shown ++ ". Please try again.";
                               timestamp := newDate |} in
        set_messages (fun prev => (prev ++ [errorMessage])%list) s
    end in
  let s := set_streamingContent (fun _ => "") s in
  set_isLoading false s.

End Handlers.

(** *** The page as a transition system

    Between two [await]s a handler runs to completion, and React
    re-renders before the next discrete event is dispatched, so every
    handler invocation reads the committed state.  A call of
    [sendChatMessage] that [handleSubmit] is waiting for is kept as a
    [Turn]: the steps it still has to make, then its result.  Actions
    may come in any order, which covers every interleaving the browser
    can produce. *)

Record Turn := {
  upcoming : list Api.io_event;
  result : completion (ApiResponse ChatMessage)
}.

Record System := {
  page : State;
  inflight : list Turn
}.

Inductive action :=
| InitBegin
| InitProject (projectResult : ApiResponse Project)
| InitHistory (historyResult : ApiResponse (list ChatMessage)) (newDate : nat -> Z)
| Change (value : string)                               (* textarea [onChange] *)
| FormSubmit (dateNow newDate : Z) (env : Api.Env)      (* form [onSubmit] *)
| KeyDown (key : string) (shiftKey : bool) (dateNow newDate : Z) (env : Api.Env)
| Resume (i : nat) (dateNow newDate : Z).               (* turn [i] makes its next step *)

Fixpoint replace_nth {A} (i : nat) (x : A) (l : list A) : list A :=
  match l, i with
  | [], _ => []
  | _ :: rest, O => x :: rest
  | y :: rest, S j => y :: replace_nth j x rest
  end.

Fixpoint remove_nth {A} (i : nat) (l : list A) : list A :=
  match l, i with
  | [], _ => []
  | _ :: rest, O => rest
  | y :: rest, S j => y :: remove_nth j rest
  end.

Section Transitions.

Variable trim : string -> string.
Context {TD : Api.TextDecoder}.
Variable projectId : string.        (* [resolvedParams.id] *)
Variable userId : option string.    (* [session?.user?.id] *)

Definition handleSubmit (dateNow newDate : Z) (env : Api.Env) (sys : System) : System :=
  match handleSubmit_begin trim dateNow newDate (page sys) with
  | None => sys
  | Some (s, message) =>
      let (tr, r) := Api.sendChatMessage env projectId message userId true in
      {| page := s;
         inflight := (inflight sys ++ [ {| upcoming := tr; result := r |} ])%list |}
  end.

Definition handleKeyDown (key : string) (shiftKey : bool) (dateNow newDate : Z)
    (env : Api.Env) (sys : System) : System :=
  if (key =? "Enter") && negb shiftKey
  then handleSubmit dateNow newDate env sys
  else sys.

Definition resume (i : nat) (dateNow newDate : Z) (sys : System) : System :=
  match nth_error (inflight sys) i with
  | None => sys
  | Some t =>
      match upcoming t with
      | ev :: rest =>
          {| page := match ev with
                     | Api.EvOnChunk chunk => onChunk chunk (page sys)
                     | _ => page sys
                     end;
             inflight := replace_nth i {| upcoming := rest; result := result t |}
                                     (inflight sys) |}
      | [] =>
          {| page := match result t with
                     | Normal res => handleSubmit_end res dateNow newDate (page sys)
                     | Throw _ => page sys
                     end;
             inflight := remove_nth i (inflight sys) |}
      end
  end.

Definition on_page (f : State -> State) (sys : System) : System :=
  {| page := f (page sys); inflight := inflight sys |}.

Definition step (sys : System) (a : action) : System :=
  match a with
  | InitBegin => on_page initChat_begin sys
  | InitProject r => on_page (fun s => fst (initChat_project r s)) sys
  | InitHistory r newDate => on_page (initChat_history r newDate) sys
  | Change v => on_page (set_input v) sys
  | FormSubmit dateNow newDate env => handleSubmit dateNow newDate env sys
  | KeyDown key shiftKey dateNow newDate env =>
      handleKeyDown key shiftKey dateNow newDate env sys
  | Resume i dateNow newDate => resume i dateNow newDate sys
  end.

Definition run (sys : System) (actions : list action) : System :=
  fold_left step actions sys.

Definition start (newDate : Z) : System :=
  {| page := initial newDate; inflight := [] |}.

End Transitions.
End ChatPage.

(* ================================================================== *)
(** ** The dashboard page: [handleAnalyzeProject] *)
(* ================================================================== *)

Module Dashboard.

Record State := {
  projects : list Project;
  analyzingProjects : list string;     (* a [Set<string>] *)
  error : option jsval
}.

(** The payload type declared for [analyzeProject]. *)
Record AnalyzeResult := {
  analyze_success : bool;
  message : string;
  project : option Project
}.

Definition with_status (st : ProjectStatus) (p : Project) : Project :=
  {| project_id := project_id p; project_name := project_name p; repoUrl := repoUrl p;
     project_description := project_description p; status := st;
     createdAt := createdAt p; updatedAt := updatedAt p;
     project_userId := project_userId p; totalEntities := totalEntities p;
     stats := stats p |}.

Definition set_add (x : string) (l : list string) : list string :=
  if existsb (String.eqb x) l then l else (l ++ [x])%list.
Definition set_delete (x : string) (l : list string) : list string :=
  filter (fun y => negb (y =? x)) l.

(** Up to [await analyzeProject(...)]. *)
Definition handleAnalyzeProject_begin (projectId : string) (s : State) : State :=
  {| projects := map (fun p => if project_id p =? projectId
                               then with_status analyzing p else p) (projects s);
     analyzingProjects := set_add projectId (analyzingProjects s);
     error := error s |}.

(** The awaited call: [analyzeProject(projectId, userId, { skipLsp: true })]. *)
Definition handleAnalyzeProject_call (env : Api.Env) (projectId : string)
    (userId : option string) : completion (ApiResponse jsval) :=
  Api.analyzeProject env projectId userId
    (Some {| Api.skipLsp := Some true; Api.skipLlmAnalysis := None |}).

(** From the [await] to the end; the result is read at its declared type. *)
Definition handleAnalyzeProject_end (projectId : string)
    (result : ApiResponse AnalyzeResult) (s : State) : State :=
  let updated :=
    match Types.success result, Types.data result with
    | true, Some {| project := Some fresh |} =>
        {| projects := map (fun p => if project_id p =? projectId then fresh else p)
                           (projects s);
           analyzingProjects := analyzingProjects s;
           error := error s |}
    | _, _ =>
        {| projects := map (fun p => if project_id p =? projectId
                                     then with_status error_status p else p) (projects s);
           analyzingProjects := analyzingProjects s;
           error := Some (js_or (match Types.error result with
                                 | Some e => e | None => JUndefined end)
                                (JStr "Failed to analyze project")) |}
    end in
  {| projects := projects updated;
     analyzingProjects := set_delete projectId (analyzingProjects updated);
     error := error updated |}.

End Dashboard.

(* ================================================================== *)
(** ** [middleware.ts] and the dashboard layout *)
(* ================================================================== *)

Module Middleware.

Record User := { user_id : string }.
Record Session := { session_user : option User }.

Record NextRequest := {
  auth : option Session;          (* [req.auth] *)
  origin : string;                (* of [req.nextUrl] *)
  pathname : string               (* [req.nextUrl.pathname] *)
}.

Inductive Response := redirect_response (location : string).

(** The function wrapped by [auth(...)]; [None] is falling off the end,
    which lets the request through. *)
Definition middleware (req : NextRequest) : option Response :=
  let isLoggedIn := match auth req with Some _ => true | None => false end in
  let isOnDashboard := String.prefix "/dashboard" (pathname req) in
  if isOnDashboard && negb isLoggedIn
  then Some (redirect_response (origin req ++ "/"))     (* [new URL("/", req.nextUrl)] *)
  else None.

(** [config.matcher]: a slash, then anything that does not begin with
    one of [api], [_next/static], [_next/image], [favicon.ico].  The dot
    of [favicon.ico] stands for any character; the trailing wildcard
    takes the rest of the path. *)
Definition matcher (path : string) : bool :=
  match path with
  | String "/" rest =>
      negb (String.prefix "api" rest
            || String.prefix "_next/static" rest
            || String.prefix "_next/image" rest
            || (String.prefix "favicon" rest
                && (7 <? String.length rest)%nat
                && String.prefix "ico" (String.substring 8 (String.length rest - 8) rest)))
  | _ => false
  end.

(** What rendering [DashboardLayout] comes to; [session] below is what
    [await auth()] returned. *)
Inductive Rendered (Children : Type) :=
| redirect (path : string)                    (* [redirect("/")] *)
| layout (user : User) (children : Children).
Arguments redirect {Children} path.
Arguments layout {Children} user children.

Definition DashboardLayout {Children} (session : option Session) (children : Children)
  : Rendered Children :=
  match session with
  | Some {| session_user := Some u |} => layout u children
  | _ => redirect "/"
  end.

End Middleware.

(* ================================================================== *)
(** ** The analysis service, as the specification describes it *)
(* ================================================================== *)

Module Backend.

(** Modelled from the spec: the explicit entity-not-found response of
    sections 4.6 and 7, which the service (not part of these sources)
    gives to a direct lookup of a name it cannot resolve.  Section 6
    leaves the transport of a response to the collaborator; here the
    response travels as text in the body of a reply with an OK status,
    one of the transports the specification allows. *)
Definition not_found_in_body (name : string) : completion Api.AxiosResponse :=
  Normal {| Api.response_data := JObj [("message", JStr ("Entity not found: " ++ name))] |}.

End Backend.

Module VectorIndex.

(** Modelled from the spec: [VectorRecord] of section 3, owned by the
    index, whose code is not part of these sources.  Vector components
    and scores are rationals. *)
Record VectorRecord := {
  entityId : string;
  embeddingVector : list Q;
  metadataSnapshot : string
}.

(** Modelled from the spec: one element of the result of [search],
    the pair (entityId, score). *)
Definition Hit : Type := (string * Q)%type.

(** Modelled from the spec: the inner-product similarity of section
    4.5; the metric of the index is not part of these sources. *)
Fixpoint inner_product (u v : list Q) : Q :=
  match u, v with
  | x :: u', y :: v' => (x * y + inner_product u' v')%Q
  | _, _ => 0%Q
  end.

(** Modelled from the spec: the result order of section 4.5.  [a] is
    listed no later than [b]: a higher score first, and among equal
    scores the smaller entity id first. *)
Definition before (a b : Hit) : bool :=
  match Qcompare (snd b) (snd a) with
  | Lt => true
  | Eq => String.leb (fst a) (fst b)
  | Gt => false
  end.

Definition Before (a b : Hit) : Prop := before a b = true.

(** Modelled from the spec: ordering the scored records by [before];
    the sorting code of the index is not part of these sources. *)
Fixpoint insert (x : Hit) (l : list Hit) : list Hit :=
  match l with
  | [] => [x]
  | y :: rest => if before x y then x :: l else y :: insert x rest
  end.

(** Modelled from the spec: all hits, best first. *)
Definition rank (l : list Hit) : list Hit := fold_right insert [] l.

Section Search.

(** Modelled from the spec: the embedding service of section 6,
    [embed(text) -> vector<float>], an external collaborator. *)
Variable embed : string -> list Q.

(** Modelled from the spec: [VectorIndex.search] of section 4.5, whose
    implementation is not part of these sources.  The query is
    embedded, every record is scored by inner product with it, and the
    [k] best are returned by descending score, ties broken by entity
    id. *)
Definition search (index : list VectorRecord) (queryText : string) (k : nat) : list Hit :=
  let q := embed queryText in
  firstn k (rank (map (fun r => (entityId r, inner_product q (embeddingVector r))) index)).

End Search.
End VectorIndex.

(* ================================================================== *)
(** ** Concrete environments *)
(* ================================================================== *)

Module Examples.

(** A decoder for bodies whose chunks are whole UTF-8 sequences: it
    hands the bytes on unchanged and keeps no state. *)
Definition whole_chunk_decoder : Api.TextDecoder := {|
  Api.decoder := unit;
  Api.new_decoder := tt;
  Api.decode := fun d value => (string_of_list_byte value, d)
|}.

Definition bytes (s : string) : list byte := list_byte_of_string s.

(** A chat endpoint that answers 200 and streams the given values. *)
Definition streaming_env (values : list (list byte)) (e : Api.stream_end) : Api.Env := {|
  Api.NEXT_PUBLIC_API_URL := None;
  Api.axios_adapter := fun _ => Throw (AxiosError None "Network Error");
  Api.fetch := fun _ => Normal {| Api.ok := true;
                                  Api.resp_body := Some {| Api.chunks := values;
                                                           Api.ending := e |} |};
  Api.randomUUID := Normal "uuid-0";
  Api.now := 0
|}.

(** A service that answers every axios request as [answer] says and
    refuses the chat request with a non-2xx status. *)
Definition axios_env (answer : Api.request -> completion Api.AxiosResponse) : Api.Env := {|
  Api.NEXT_PUBLIC_API_URL := None;
  Api.axios_adapter := answer;
  Api.fetch := fun _ => Normal {| Api.ok := false; Api.resp_body := None |};
  Api.randomUUID := Normal "uuid-0";
  Api.now := 0
|}.

(** A service that answers with the URL it was asked for. *)
Definition echo_env : Api.Env :=
  axios_env (fun req => Normal {| Api.response_data := JStr (Api.url req) |}).

(** [trim] on ASCII white space and line terminators. *)
Definition is_space (c : ascii) : bool :=
  let n := N_of_ascii c in ((9 <=? n) && (n <=? 13) || (n =? 32))%N.

Fixpoint trim_start (s : string) : string :=
  match s with
  | EmptyString => EmptyString
  | String c rest => if is_space c then trim_start rest else s
  end.

Fixpoint trim_end (s : string) : string :=
  match s with
  | EmptyString => EmptyString
  | String c rest =>
      let rest' := trim_end rest in
      if is_space c && (rest' =? "") then EmptyString else String c rest'
  end.

Definition trim (s : string) : string := trim_end (trim_start s).

Definition record (name : string) (v : list Q) : VectorIndex.VectorRecord :=
  {| VectorIndex.entityId := name;
     VectorIndex.embeddingVector := v;
     VectorIndex.metadataSnapshot := name |}.

(** Three records; [b] and [a] score alike on the query below. *)
Definition small_index : list VectorIndex.VectorRecord :=
  [ record "c" [3%Q; 0%Q]; record "b" [2%Q; 5%Q]; record "a" [2%Q; 1%Q]; record "d" [1%Q; 9%Q] ].

Definition first_axis (queryText : string) : list Q := [1%Q; 0%Q].

End Examples.

(* ================================================================== *)
(** ** Shapes of results that the statements below speak about *)
(* ================================================================== *)

Module Shape.

(** A call settles as its request did: it returns (it does not throw);
    when [reply], the outcome of what it awaited, is a value, the
    response is a success whose [data] is what [payload] reads from
    that value, and when [reply] is a throw the response is a failure
    without data whose [error] is what [getErrorMessage] makes of the
    very value thrown. *)
Definition settles_as {T D} (reply : completion T) (payload : T -> option D)
    (c : completion (ApiResponse D)) : Prop :=
  match reply with
  | Normal response =>
      c = Normal {| success := true; data := payload response; Types.error := None |}
  | Throw e =>
      c = Normal {| success := false; data := None;
                    Types.error := Some (Api.getErrorMessage e) |}
  end.

(** A failure that says why: [success] false and a non-empty string as
    [error]. *)
Definition explicit_failure {T} (r : ApiResponse T) : Prop :=
  success r = false /\ exists msg, Types.error r = Some (JStr msg) /\ msg <> "".

(** The shape with a payload on every success and a non-empty string
    on every failure. *)
Definition data_or_message {T} (r : ApiResponse T) : Prop :=
  (success r = true /\ exists d, data r = Some d)
  \/ (success r = false /\ exists msg, Types.error r = Some (JStr msg) /\ msg <> "").

Definition is_text (v : jsval) : Prop :=
  match v with
  | JUndefined | JNull | JStr _ => True
  | _ => False
  end.

(** A thrown value from which [getErrorMessage] reads a non-empty
    string: its message is not empty, and [detail] and [message] of an
    axios response body are strings where present. *)
Definition plain_error (e : js_error) : Prop :=
  match e with
  | AxiosError response_data message =>
      let d := match response_data with Some d => d | None => JUndefined end in
      message <> "" /\ is_text (opt_get d "detail") /\ is_text (opt_get d "message")
  | ErrorObject message => message <> ""
  | ThrownValue _ => True
  end.

(** The chunks handed to [onChunk], in the order of the calls. *)
Fixpoint delivered (tr : list Api.io_event) : list string :=
  match tr with
  | [] => []
  | Api.EvOnChunk chunk :: rest => chunk :: delivered rest
  | _ :: rest => delivered rest
  end.

Fixpoint reads (tr : list Api.io_event) : nat :=
  match tr with
  | [] => 0
  | Api.EvRead :: rest => S (reads rest)
  | _ :: rest => reads rest
  end.

(** One turn of the read loop with a callback: the read, then the call. *)
Definition step_events (chunk : string) : list Api.io_event :=
  [Api.EvRead; Api.EvOnChunk chunk].

(** Concatenation in list order. *)
Definition join (l : list string) : string := fold_right String.append "" l.

(** The texts the decoder makes of the values of a stream, one by one. *)
Fixpoint decoded {TD : Api.TextDecoder} (d : Api.decoder) (values : list (list byte))
  : list string :=
  match values with
  | [] => []
  | value :: rest => let (chunk, d') := Api.decode d value in chunk :: decoded d' rest
  end.

(** No turn is awaited, or exactly one is and [isLoading] is set. *)
Definition single_turn (sys : ChatPage.System) : Prop :=
  match ChatPage.inflight sys with
  | [] => True
  | [_] => ChatPage.isLoading (ChatPage.page sys) = true
  | _ => False
  end.

(** A request asks for language-server enrichment unless its query
    says [skip_lsp=true].  The service that reads the query is not part
    of these sources; the parameter is taken by its name and by the
    name of the option, [skipLsp], that sets it. *)
Definition lsp_enabled (url : string) : bool :=
  negb (existsb (fun kv => (fst kv =? "skip_lsp") && (snd kv =? "true"))
                (Uri.query_pairs url)).

End Shape.

(* ================================================================== *)
(** ** The chart page: file tree and diagram tree *)
(* ================================================================== *)

Module ChartPage.

(** [types/index.ts]: [ParameterInfo], [FunctionInfo] (without its
    reference and call lists, which the chart page does not read) and
    [VariableInfo]. *)
Record ParameterInfo := {
  param_name : string;
  param_type : option string
}.

Record FunctionInfo := {
  fn_name : string;
  fn_description : option string;
  startLine : Z;
  endLine : Z;
  parameters : option (list ParameterInfo);
  returnType : option string
}.

Record VariableInfo := {
  var_name : string;
  var_description : option string;
  var_type : option string;
  var_line : Z
}.

Inductive NodeType := file | directory.

(** [interface FileNode]; an absent optional field is [None]. *)
Inductive FileNode : Type :=
  mkFileNode (name path : string) (type : option NodeType) (is_dir : option bool)
             (children : option (list FileNode))
             (functions : option (list FunctionInfo))
             (variables : option (list VariableInfo)).

Definition name (n : FileNode) := let (x, _, _, _, _, _, _) := n in x.
Definition path (n : FileNode) := let (_, x, _, _, _, _, _) := n in x.
Definition type (n : FileNode) := let (_, _, x, _, _, _, _) := n in x.
Definition is_dir (n : FileNode) := let (_, _, _, x, _, _, _) := n in x.
Definition children (n : FileNode) := let (_, _, _, _, x, _, _) := n in x.
Definition functions (n : FileNode) := let (_, _, _, _, _, x, _) := n in x.
Definition variables (n : FileNode) := let (_, _, _, _, _, _, x) := n in x.

(** [node.is_dir ? "directory" : "file"] *)
Definition kind_of (flag : option bool) : NodeType :=
  match flag with Some true => directory | _ => file end.

(** [convertFileTree], on one node and on a list of nodes. *)
Fixpoint convertFileNode (node : FileNode) : FileNode :=
  match node with
  | mkFileNode name path _ is_dir children functions variables =>
      mkFileNode name path (Some (kind_of is_dir)) is_dir
                 (match children with
                  | Some cs => Some (map convertFileNode cs)
                  | None => None
                  end)
                 functions variables
  end.

Definition convertFileTree (nodes : list FileNode) : list FileNode :=
  map convertFileNode nodes.

Inductive D3Type := d3_directory | d3_file | d3_function | d3_variable.

Definition d3_kind (flag : option bool) : D3Type :=
  match flag with Some true => d3_directory | _ => d3_file end.

(** [interface D3TreeNode] *)
Inductive D3TreeNode : Type :=
  mkD3 (d3_name : string) (d3_type : D3Type) (d3_path : option string)
       (d3_description : option string)
       (d3_children : option (list D3TreeNode))
       (originalNode : option FileNode)
       (originalFunction : option FunctionInfo)
       (originalVariable : option VariableInfo).

Definition d3_name (n : D3TreeNode) := let (x, _, _, _, _, _, _, _) := n in x.
Definition d3_type (n : D3TreeNode) := let (_, x, _, _, _, _, _, _) := n in x.
Definition d3_path (n : D3TreeNode) := let (_, _, x, _, _, _, _, _) := n in x.
Definition d3_description (n : D3TreeNode) := let (_, _, _, x, _, _, _, _) := n in x.
Definition d3_children (n : D3TreeNode) := let (_, _, _, _, x, _, _, _) := n in x.

(** The nodes made of the functions and of the variables of a file. *)
Definition functionNodes (owner : string) (fns : list FunctionInfo) : list D3TreeNode :=
  map (fun fn => mkD3 (fn_name fn ++ "()") d3_function (Some owner) (fn_description fn)
                      None None (Some fn) None) fns.

Definition variableNodes (owner : string) (vs : list VariableInfo) : list D3TreeNode :=
  map (fun v => mkD3 (var_name v) d3_variable (Some owner) (var_description v)
                     None None None (Some v)) vs.

(** [if (list && list.length > 0) children = [...children, ...made]] *)
Definition with_items {A} (made : list A -> list D3TreeNode) (items : option (list A))
    (sofar : list D3TreeNode) : list D3TreeNode :=
  match items with
  | Some ((_ :: _) as l) => (sofar ++ made l)%list
  | _ => sofar
  end.

Fixpoint convertNodeToD3Tree (node : FileNode) : D3TreeNode :=
  match node with
  | mkFileNode name path _ is_dir children functions variables =>
      let kids := match children with
                  | Some cs => map convertNodeToD3Tree cs
                  | None => []
                  end in
      let kids := with_items (functionNodes path) functions kids in
      let kids := with_items (variableNodes path) variables kids in
      mkD3 name (d3_kind is_dir) (Some path) None (Some kids) (Some node) None None
  end.

Definition convertFullTreeToD3 (nodes : list FileNode) : D3TreeNode :=
  mkD3 "Project" d3_directory None None (Some (map convertNodeToD3Tree nodes))
       None None None.

(** The first result that [f] gives along a list: a [for] loop that
    returns from inside. *)
Definition first_some {A B} (f : A -> option B) : list A -> option B :=
  fix go (l : list A) : option B :=
    match l with
    | [] => None
    | x :: rest => match f x with Some r => Some r | None => go rest end
    end.

(** The inner [findPath] of [buildPathToNode]: one turn of its loop,
    and the loop. *)
Fixpoint findPath_node (targetPath : string) (trail : list FileNode) (node : FileNode)
  : option (list FileNode) :=
  match node with
  | mkFileNode _ p _ _ children _ _ =>
      if p =? targetPath then Some (trail ++ [node])%list
      else match children with
           | Some cs => first_some (findPath_node targetPath (trail ++ [node])%list) cs
           | None => None
           end
  end.

Definition findPath (targetPath : string) (nodes : list FileNode) (trail : list FileNode)
  : option (list FileNode) :=
  first_some (findPath_node targetPath trail) nodes.

(** The node made for the target: its children without their
    contents, then its functions and its variables. *)
Definition shallow_child (child : FileNode) : D3TreeNode :=
  mkD3 (name child) (d3_kind (is_dir child)) (Some (path child)) None
       (match is_dir child with Some true => Some [] | _ => None end)
       (Some child) None None.

(** One turn of the backward loop over [pathNodes]. *)
Definition d3Node_of (node : FileNode) (isTarget : bool) (current : option D3TreeNode)
  : D3TreeNode :=
  let kids := if isTarget then []
              else match current with Some c => [c] | None => [] end in
  let kids :=
    if isTarget then
      let kids := match children node with
                  | Some cs => map shallow_child cs
                  | None => kids
                  end in
      let kids := with_items (functionNodes (path node)) (functions node) kids in
      with_items (variableNodes (path node)) (variables node) kids
    else kids in
  mkD3 (name node) (d3_kind (is_dir node)) (Some (path node)) None (Some kids)
       (Some node) None None.

(** [for (let i = pathNodes.length - 1; i >= 0; i--)], fed with the
    nodes from the last to the first. *)
Fixpoint backward (remaining : list FileNode) (isTarget : bool)
    (current : option D3TreeNode) : option D3TreeNode :=
  match remaining with
  | [] => current
  | node :: rest => backward rest false (Some (d3Node_of node isTarget current))
  end.

Definition buildPathToNode (fileTree : list FileNode) (targetPath : string)
  : option D3TreeNode :=
  match findPath targetPath fileTree [] with
  | None | Some [] => None
  | Some pathNodes =>
      let current := backward (rev pathNodes) true None in
      Some (mkD3 "Project Root" d3_directory None None
                 (Some (match current with Some c => [c] | None => [] end))
                 None None None)
  end.

(** The tree handed to the diagram by the rendering effect; [None]
    when the file tree is empty and nothing is drawn. *)
Definition treeData (fileTree : list FileNode) (selectedTreeNode : option FileNode)
  : option D3TreeNode :=
  match fileTree with
  | [] => None
  | _ =>
      match selectedTreeNode with
      | Some sel =>
          match buildPathToNode fileTree (path sel) with
          | Some pathTree => Some pathTree
          | None => Some (convertFullTreeToD3 fileTree)
          end
      | None => Some (convertFullTreeToD3 fileTree)
      end
  end.

(** A [Set<string>] in insertion order. *)
Definition has (x : string) (s : list string) : bool := existsb (String.eqb x) s.
Definition add (x : string) (s : list string) : list string :=
  if has x s then s else (s ++ [x])%list.
Definition delete (x : string) (s : list string) : list string :=
  filter (fun y => negb (y =? x)) s.

(** [toggleNode] on [expandedNodes]. *)
Definition toggleNode (path : string) (expandedNodes : list string) : list string :=
  if has path expandedNodes then delete path expandedNodes else add path expandedNodes.

(** [new Set(converted.filter(n => n.type === "directory").map(n => n.path))] *)
Definition firstLevelPaths (converted : list FileNode) : list string :=
  fold_left (fun s p => add p s)
            (map path (filter (fun n => match type n with
                                        | Some directory => true
                                        | _ => false
                                        end) converted))
            [].

End ChartPage.

(* ================================================================== *)
(** ** The dashboard header: [getBreadcrumbs] *)
(* ================================================================== *)

Module Header.

Record Crumb := {
  label : string;
  href : string;
  isLast : bool
}.

Section Breadcrumbs.

(** [segment.charAt(0).toUpperCase() + segment.slice(1)] *)
Variable capitalize : string -> string.

(** [pathname.split("/").filter(Boolean)] *)
Definition segments_of (pathname : string) : list string :=
  filter (fun piece => negb (piece =? "")) (Uri.split "/" pathname "").

(** [segments[index - 1]] *)
Definition previous (segments : list string) (index : nat) : option string :=
  match index with
  | O => None
  | S i => nth_error segments i
  end.

Definition label_of (segments : list string) (index : nat) (segment : string) : string :=
  if segment =? "project" then "Project"
  else if match previous segments index with
          | Some prev => prev =? "project"
          | None => false
          end then "Project " ++ segment
  else if segment =? "chart" then "Chart View"
  else if segment =? "chat" then "Chat"
  else capitalize segment.

(** The body of [segments.forEach((segment, index) => ...)], from
    position [index] on. *)
Fixpoint crumbs_from (segments : list string) (index : nat) (todo : list string)
  : list Crumb :=
  match todo with
  | [] => []
  | segment :: rest =>
      {| label := label_of segments index segment;
         href := "/" ++ String.concat "/" (firstn (index + 1) segments);
         isLast := (index =? List.length segments - 1)%nat |}
      :: crumbs_from segments (S index) rest
  end.

Definition getBreadcrumbs (pathname : string) : list Crumb :=
  let segments := segments_of pathname in
  crumbs_from segments 0 segments.

End Breadcrumbs.

(** The length of the joined segments up to position [k]. *)
Definition reach (segments : list string) (k : nat) : nat :=
  String.length (String.concat "/" (firstn (k + 1) segments)).

End Header.

(* ================================================================== *)
(** ** The dashboard page: loading, creating and deleting projects *)
(* ================================================================== *)

Module DashboardForms.

(** The state of [DashboardPage] that [Dashboard.State] leaves out. *)
Record Form := {
  isDialogOpen : bool;
  newProjectUrl : string;
  newProjectName : string;
  isLoading : bool;
  isLoadingProjects : bool
}.

Definition Page : Type := (Dashboard.State * Form)%type.

Definition shown (e : option jsval) (fallback : string) : jsval :=
  js_or (match e with Some v => v | None => JUndefined end) (JStr fallback).

(** [loadProjects], up to [await getProjects(userId)] and after it. *)
Definition loadProjects_begin (pg : Page) : Page :=
  let (s, f) := pg in
  ({| Dashboard.projects := Dashboard.projects s;
      Dashboard.analyzingProjects := Dashboard.analyzingProjects s;
      Dashboard.error := None |},
   {| isDialogOpen := isDialogOpen f; newProjectUrl := newProjectUrl f;
      newProjectName := newProjectName f; isLoading := isLoading f;
      isLoadingProjects := true |}).

Definition loadProjects_end (result : ApiResponse (list Project)) (pg : Page) : Page :=
  let (s, f) := pg in
  let s :=
    match success result, data result with
    | true, Some l =>
        {| Dashboard.projects := l;
           Dashboard.analyzingProjects := Dashboard.analyzingProjects s;
           Dashboard.error := Dashboard.error s |}
    | _, _ =>
        {| Dashboard.projects := Dashboard.projects s;
           Dashboard.analyzingProjects := Dashboard.analyzingProjects s;
           Dashboard.error := Some (shown (Types.error result) "Failed to load projects") |}
    end in
  (s, {| isDialogOpen := isDialogOpen f; newProjectUrl := newProjectUrl f;
         newProjectName := newProjectName f; isLoading := isLoading f;
         isLoadingProjects := false |}).

(** [handleCreateProject] up to its [await]: [None] is the early
    [return]; otherwise the new page and the arguments of
    [createProject]. *)
Definition handleCreateProject_begin (pg : Page) : option (Page * (string * string)) :=
  let (s, f) := pg in
  if (newProjectUrl f =? "") || (newProjectName f =? "") then None
  else Some (({| Dashboard.projects := Dashboard.projects s;
                 Dashboard.analyzingProjects := Dashboard.analyzingProjects s;
                 Dashboard.error := None |},
              {| isDialogOpen := isDialogOpen f; newProjectUrl := newProjectUrl f;
                 newProjectName := newProjectName f; isLoading := true;
                 isLoadingProjects := isLoadingProjects f |}),
             (newProjectUrl f, newProjectName f)).

(** [handleCreateProject] from its [await] on.  [projects] is the list
    the handler closed over when it was created. *)
Definition handleCreateProject_end (projects : list Project)
    (result : ApiResponse Project) (pg : Page) : Page :=
  let (s, f) := pg in
  match success result, data result with
  | true, Some created =>
      ({| Dashboard.projects := created :: projects;
          Dashboard.analyzingProjects := Dashboard.analyzingProjects s;
          Dashboard.error := Dashboard.error s |},
       {| isDialogOpen := false; newProjectUrl := ""; newProjectName := "";
          isLoading := false; isLoadingProjects := isLoadingProjects f |})
  | _, _ =>
      ({| Dashboard.projects := Dashboard.projects s;
          Dashboard.analyzingProjects := Dashboard.analyzingProjects s;
          Dashboard.error := Some (shown (Types.error result) "Failed to create project") |},
       {| isDialogOpen := isDialogOpen f; newProjectUrl := newProjectUrl f;
          newProjectName := newProjectName f; isLoading := false;
          isLoadingProjects := isLoadingProjects f |})
  end.

(** [handleDeleteProject] after [await deleteProject(id, userId)];
    [projects] is the list the handler closed over. *)
Definition handleDeleteProject_end (projects : list Project) (id : string)
    (result : ApiResponse jsval) (s : Dashboard.State) : Dashboard.State :=
  if success result
  then {| Dashboard.projects := filter (fun p => negb (project_id p =? id)) projects;
          Dashboard.analyzingProjects := Dashboard.analyzingProjects s;
          Dashboard.error := Dashboard.error s |}
  else {| Dashboard.projects := Dashboard.projects s;
          Dashboard.analyzingProjects := Dashboard.analyzingProjects s;
          Dashboard.error := Some (shown (Types.error result) "Failed to delete project") |}.

(** Which control the card of a project shows:
    [pending] or [error] gives the Analyze/Retry button, disabled while
    the project is in [analyzingProjects]; [analyzing] gives a disabled
    button; [ready] gives the Chart and Chat links. *)
Inductive CardAction :=
| analyze_button (text : string) (disabled : bool)
| analyzing_button
| chart_and_chat_links.

Definition card_action (s : Dashboard.State) (p : Project) : CardAction :=
  match status p with
  | pending => analyze_button "Analyze" (ChartPage.has (project_id p) (Dashboard.analyzingProjects s))
  | error_status => analyze_button "Retry" (ChartPage.has (project_id p) (Dashboard.analyzingProjects s))
  | analyzing => analyzing_button
  | ready => chart_and_chat_links
  end.

End DashboardForms.

(* ================================================================== *)
(** ** More concrete data *)
(* ================================================================== *)

Module MoreExamples.

(** A chat endpoint that answers with a status that is not OK and a
    body that explains why. *)
Definition refusing_env : Api.Env := {|
  Api.NEXT_PUBLIC_API_URL := None;
  Api.axios_adapter := fun _ => Throw (AxiosError None "Network Error");
  Api.fetch := fun _ =>
    Normal {| Api.ok := false;
              Api.resp_body := Some {| Api.chunks := [Examples.bytes "{detail: Project is not ready}"];
                                       Api.ending := Api.StreamDone |} |};
  Api.randomUUID := Normal "uuid-0";
  Api.now := 0
|}.

(** A connection that breaks after two values. *)
Definition broken_env : Api.Env :=
  Examples.streaming_env [Examples.bytes "The function "; Examples.bytes "add "]
                         (Api.StreamError (ErrorObject "network error")).

Definition project (pid : string) (st : ProjectStatus) : Project :=
  {| project_id := pid; project_name := pid; repoUrl := "https://github.com/bigsparsh/bgdb";
     project_description := None; status := st; createdAt := "2025-01-01";
     updatedAt := "2025-01-01"; project_userId := "u1"; totalEntities := None;
     stats := None |}.

Definition two_projects : Dashboard.State :=
  {| Dashboard.projects := [project "p1" pending; project "p2" ready];
     Dashboard.analyzingProjects := [];
     Dashboard.error := None |}.

(** [charAt(0).toUpperCase() + slice(1)] on a segment that starts with
    an ASCII letter. *)
Definition capitalize (segment : string) : string :=
  match segment with
  | EmptyString => EmptyString
  | String c rest =>
      String (if Uri.in_range 97 122 c then ascii_of_N (N_of_ascii c - 32) else c) rest
  end.

End MoreExamples.

(* ================================================================== *)
(** ** Reading an escaped name back *)
(* ================================================================== *)

Module Unescape.

(** The value of a hexadecimal digit as [Uri.hex_digit] writes it. *)
Definition unhex (c : ascii) : N :=
  let n := N_of_ascii c in if (n <? 58)%N then (n - 48)%N else (n - 55)%N.

(** Every [%XX] back to its byte; used to tell escaped names apart. *)
Fixpoint unescape (s : string) : string :=
  match s with
  | EmptyString => EmptyString
  | String c rest =>
      if Ascii.eqb c "%" then
        match rest with
        | String h (String l rest') =>
            String (ascii_of_N (unhex h * 16 + unhex l)) (unescape rest')
        | _ => String c (unescape rest)
        end
      else String c (unescape rest)
  end.

End Unescape.

(* ================================================================== *)
(** ** What holds of the chat page between two handlers *)
(* ================================================================== *)

Module Invariant.
Import ChatPage.

(** Either no call is awaited, the page is not loading and shows no
    streaming bubble; or one call is awaited, the page is loading, the
    call will return (it will not throw), and the text in the bubble
    followed by the chunks still to come is the content the call
    returns if it succeeds. *)
Definition in_step (sys : System) : Prop :=
  match inflight sys with
  | [] => isLoading (page sys) = false /\ streamingContent (page sys) = ""
  | [t] =>
      isLoading (page sys) = true
      /\ exists res, result t = Normal res
           /\ forall d, success res = true -> data res = Some d ->
                content d = streamingContent (page sys)
                            ++ Shape.join (Shape.delivered (upcoming t))
  | _ => False
  end.

(** The steps of one turn with nothing in between: the submit, one
    resumption for each step of the awaited call, and the one that
    lets [handleSubmit] go on. *)
Definition whole_turn (dateNow newDate : Z) (env : Api.Env) (steps : nat)
    (endNow endDate : Z) : list action :=
  FormSubmit dateNow newDate env :: repeat (Resume 0 endNow endDate) (S steps).

(** The page after the steps [tr] of an awaited call. *)
Definition after_steps (tr : list Api.io_event) (pg : State) : State :=
  fold_left (fun p ev => match ev with
                         | Api.EvOnChunk chunk => onChunk chunk p
                         | _ => p
                         end) tr pg.

End Invariant.

(* ================================================================== *)
(** ** Measures of file trees and diagram trees *)
(* ================================================================== *)

Module Trees.
Import ChartPage.

(** A node and everything below it, parents first. *)
Fixpoint descendants (node : FileNode) : list FileNode :=
  match node with
  | mkFileNode _ _ _ _ children _ _ =>
      node :: match children with
              | Some cs => flat_map descendants cs
              | None => []
              end
  end.

Definition all_nodes (nodes : list FileNode) : list FileNode :=
  flat_map descendants nodes.

Definition count {A} (items : option (list A)) : nat :=
  match items with Some l => length l | None => O end.

(** The number of nodes of a diagram tree. *)
Fixpoint d3_size (node : D3TreeNode) : nat :=
  match node with
  | mkD3 _ _ _ _ kids _ _ _ =>
      S (match kids with
         | Some l => list_sum (map d3_size l)
         | None => O
         end)
  end.

(** What one node of the file tree brings to the diagram: itself, its
    functions and its variables. *)
Definition weight (n : FileNode) : nat :=
  S (count (functions n) + count (variables n)).

(** [chain] goes down from one of [nodes]: each node of it is a child
    of the one before. *)
Fixpoint descent (nodes : list FileNode) (chain : list FileNode) : Prop :=
  match chain with
  | [] => True
  | node :: rest =>
      In node nodes
      /\ match rest with
         | [] => True
         | _ => match children node with
                | Some cs => descent cs rest
                | None => False
                end
         end
  end.

(** What a successful search below [nodes] gives: the trail it was
    given, then the ancestors of the target, none of which has the
    path looked for, then the target, which has it. *)
Definition found_below (targetPath : string) (nodes trail chain : list FileNode) : Prop :=
  exists ancestors target,
    chain = (trail ++ ancestors ++ [target])%list
    /\ path target = targetPath
    /\ Forall (fun n => path n <> targetPath) ancestors
    /\ descent nodes (ancestors ++ [target])%list.

(** The diagram of a chain: each ancestor holds the next node as its
    only child, the target holds its contents. *)
Definition spine (ancestors : list FileNode) (target : FileNode) : D3TreeNode :=
  fold_right (fun node below => d3Node_of node false (Some below))
             (d3Node_of target true None) ancestors.

End Trees.

(* ================================================================== *)
(** ** The file explorer of the chart page *)
(* ================================================================== *)

Module TreePanel.
Import ChartPage.

(** What [renderTreeNode] puts on the screen, from top to bottom: the
    row of a node, with its depth (the left padding), whether it is
    drawn as a directory and whether its chevron points down; the row
    of a function and the row of a variable of a file, with the node
    that a click on them selects.  The highlight of the selected row
    is left out. *)
Inductive Row :=
| NodeRow (node : FileNode) (depth : nat) (isDirectory isExpanded : bool)
| FunctionRow (fn : FunctionInfo) (parentNode : FileNode)
| VariableRow (v : VariableInfo) (parentNode : FileNode).

(** The truth value of an optional boolean field. *)
Definition flag (field : option bool) : bool :=
  match field with Some true => true | _ => false end.

(** [node.type === "directory" || node.is_dir] *)
Definition isDirectory (node : FileNode) : bool :=
  match type node with Some directory => true | _ => flag (is_dir node) end.

(** [list?.map(...)]: nothing when the list is absent. *)
Definition items {A} (l : option (list A)) : list A :=
  match l with Some l => l | None => [] end.

Fixpoint renderTreeNode (expandedNodes : list string) (depth : nat) (node : FileNode)
  : list Row :=
  match node with
  | mkFileNode _ p _ _ children functions variables =>
      let isExpanded := has p expandedNodes in
      let isDir := isDirectory node in
      (NodeRow node depth isDir isExpanded
       :: (if isDir && isExpanded then
             match children with
             | Some cs => flat_map (renderTreeNode expandedNodes (S depth)) cs
             | None => []
             end
           else []))
      ++ (if negb isDir && isExpanded then
            map (fun fn => FunctionRow fn node) (items functions)
            ++ map (fun v => VariableRow v node) (items variables)
          else [])
  end.

(** [fileTree.map((node) => renderTreeNode(node))] *)
Definition panel (expandedNodes : list string) (fileTree : list FileNode) : list Row :=
  flat_map (renderTreeNode expandedNodes 0) fileTree.

(** The panel once [loadData] has stored the converted tree and the
    paths of its first level. *)
Definition after_load (tree : list FileNode) : list Row :=
  let converted := convertFileTree tree in
  panel (firstLevelPaths converted) converted.

(** The node that a click on a row selects: [handleSelectNode],
    [handleSelectFunction] and [handleSelectVariable]. *)
Definition selects (row : Row) : FileNode :=
  match row with
  | NodeRow node _ _ _ => node
  | FunctionRow _ parentNode => parentNode
  | VariableRow _ parentNode => parentNode
  end.

(** The first level of a tree, open: each top-level node, and under
    each top-level directory its children, closed. *)
Definition first_level (converted : list FileNode) : list Row :=
  flat_map (fun n =>
              NodeRow n 0 (flag (is_dir n)) (flag (is_dir n))
              :: (if flag (is_dir n)
                  then map (fun c => NodeRow c 1 (flag (is_dir c)) false)
                           (items (children n))
                  else []))
           converted.

End TreePanel.

(* ================================================================== *)
(** ** A small repository *)
(* ================================================================== *)

Module TreeExamples.
Import ChartPage.

Definition fn_main : FunctionInfo :=
  {| fn_name := "main"; fn_description := Some "Entry point"; startLine := 3;
     endLine := 9; parameters := Some []; returnType := None |}.

Definition main_py : FileNode :=
  mkFileNode "main.py" "src/main.py" None (Some false) None (Some [fn_main]) None.

Definition util_dir : FileNode :=
  mkFileNode "util" "src/util" None (Some true) (Some []) None None.

Definition src_dir : FileNode :=
  mkFileNode "src" "src" None (Some true) (Some [util_dir; main_py]) None None.

Definition readme : FileNode :=
  mkFileNode "README.md" "README.md" None None None None None.

Definition repository : list FileNode := [src_dir; readme].

End TreeExamples.

(* ================================================================== *)
(** ** [sendChatMessage] with a callback that may throw *)
(* ================================================================== *)

Module Callback.
Import Api.

(** A function passed as [onChunk].  It may keep state of its own
    between its calls: [cb_call st chunk] is the state after a call
    that returns, or what the call throws. *)
Record OnChunk := {
  cb_state : Type;
  cb_start : cb_state;
  cb_call : cb_state -> string -> completion cb_state
}.

Section Client.

Context (env : Env) {TD : TextDecoder} (cb : OnChunk).

(** The read loop of [sendChatMessage]; [onChunk(chunk)] runs inside
    the [try], so what it throws ends the loop. *)
Fixpoint read_loop (st : cb_state cb) (d : decoder) (values : list (list byte))
    (ending : stream_end) (fullContent : string) {struct values} : traced string :=
  t_bind (t_emit EvRead) (fun _ =>
    match values with
    | [] =>
        match ending with
        | StreamDone => t_ret fullContent
        | StreamError e => t_throw e
        end
    | value :: rest =>
        let (chunk, d') := decode d value in
        let fullContent := fullContent ++ chunk in
        t_bind ([EvOnChunk chunk], cb_call cb st chunk) (fun st' =>
          read_loop st' d' rest ending fullContent)
    end).

Definition sendChatMessage (projectId message : string) (userId : option string)
  : traced (ApiResponse ChatMessage) :=
  t_try (
    let req := chat_request env projectId message userId in
    t_bind (t_emit (EvFetch req)) (fun _ =>
    t_bind ([], fetch env req) (fun response =>
    t_bind (if negb (ok response)
            then t_throw (ErrorObject "Failed to send message") else t_ret tt) (fun _ =>
    t_bind (match resp_body response with
            | Some reader =>
                read_loop (cb_start cb) new_decoder (chunks reader) (ending reader) ""
            | None => t_ret ""
            end) (fun fullContent =>
    t_bind ([], randomUUID env) (fun uuid =>
    t_ret (ok_with {| id := uuid;
                      role := assistant;
                      content := fullContent;
                      timestamp := now env |})))))))
  (fun error => Normal (failed (getErrorMessage error))).

(** The callback called on each of [texts] in turn, as long as it
    returns. *)
Fixpoint feed (st : cb_state cb) (texts : list string) : completion (cb_state cb) :=
  match texts with
  | [] => Normal st
  | chunk :: rest =>
      match cb_call cb st chunk with
      | Normal st' => feed st' rest
      | Throw e => Throw e
      end
  end.

(** A callback that returns whatever it is given, as the one of the
    chat page, [(chunk) => setStreamingContent(prev => prev + chunk)]. *)
Definition returns_always : Prop :=
  forall st chunk, exists st', cb_call cb st chunk = Normal st'.

End Client.

End Callback.

(* ================================================================== *)
(** ** Several chat pages of one session *)
(* ================================================================== *)

Module Browser.

(** The chat pages that are mounted at one time for one project and
    one user: in several tabs, or the page opened again.  Each keeps
    its own component state; they share nothing on the client. *)
Definition Pages : Type := list ChatPage.System.

Inductive event :=
| Mount (newDate : Z)                    (* one more page is mounted *)
| On (i : nat) (a : ChatPage.action).    (* page [i] handles [a] *)

(** The turns in progress against the session. *)
Definition in_progress (pages : Pages) : list ChatPage.Turn :=
  flat_map ChatPage.inflight pages.

Section Session.

Variable trim : string -> string.
Context {TD : Api.TextDecoder}.
Variable projectId : string.
Variable userId : option string.

Definition act (i : nat) (a : ChatPage.action) (pages : Pages) : Pages :=
  match nth_error pages i with
  | Some sys => ChatPage.replace_nth i (ChatPage.step trim projectId userId sys a) pages
  | None => pages
  end.

Definition step (pages : Pages) (ev : event) : Pages :=
  match ev with
  | Mount newDate => (pages ++ [ChatPage.start newDate])%list
  | On i a => act i a pages
  end.

Definition run (pages : Pages) (events : list event) : Pages :=
  fold_left step events pages.

End Session.

(** The request a turn starts with. *)
Definition request_of (t : ChatPage.Turn) : option Api.request :=
  match ChatPage.upcoming t with
  | Api.EvFetch r :: _ => Some r
  | _ => None
  end.

End Browser.

(* ================================================================== *)
(** ** Two callbacks *)
(* ================================================================== *)

Module Callbacks.

(** The callback of the chat page,
    [(chunk) => setStreamingContent(prev => prev + chunk)]; its state
    is the text of the streaming bubble. *)
Definition page_callback : Callback.OnChunk := {|
  Callback.cb_state := string;
  Callback.cb_start := "";
  Callback.cb_call := fun prev chunk => Normal (prev ++ chunk)
|}.

(** A callback that counts its calls and throws in the second. *)
Definition throws_in_second_call : Callback.OnChunk := {|
  Callback.cb_state := nat;
  Callback.cb_start := 0%nat;
  Callback.cb_call := fun calls _ =>
    match calls with
    | 1%nat => Throw (ErrorObject "render failed")
    | _ => Normal (S calls)
    end
|}.

End Callbacks.

(* ================================================================== *)
(** * Properties *)
(* ================================================================== *)

(** ** Concrete runs *)

Example encodeURIComponent_escapes :
  Uri.encodeURIComponent "a b/c_d" = "a%20b%2Fc_d".
Proof. reflexivity. Qed.

Example toString_joins :
  Uri.toString (Uri.append (Uri.append [] "skip_lsp" "true") "q" "a b&c")
  = "skip_lsp=true&q=a+b%26c".
Proof. reflexivity. Qed.

Example trim_strips_both_ends :
  Examples.trim (" " ++ ChatPage.nl ++ "hi there  ") = "hi there".
Proof. reflexivity. Qed.

Example matcher_cases :
  Middleware.matcher "/dashboard" = true
  /\ Middleware.matcher "/" = true
  /\ Middleware.matcher "/api/auth/session" = false
  /\ Middleware.matcher "/_next/static/chunk.js" = false
  /\ Middleware.matcher "/favicon.ico" = false
  /\ Middleware.matcher "/favicon" = true.
Proof. repeat split; reflexivity. Qed.

Example getErrorMessage_cases :
  Api.getErrorMessage (AxiosError (Some (JObj [("detail", JStr "Project not found")]))
                                  "Request failed with status code 404")
  = JStr "Project not found"
  /\ Api.getErrorMessage (AxiosError None "Network Error") = JStr "Network Error"
  /\ Api.getErrorMessage (AxiosError (Some (JStr "<html>")) "Request failed with status code 502")
     = JStr "Request failed with status code 502"
  /\ Api.getErrorMessage (ThrownValue (JNum 3)) = JStr "An unexpected error occurred".
Proof. repeat split; reflexivity. Qed.

(** A whole turn: type, submit, two chunks arrive, the call returns. *)
Example streamed_turn :
  let env := Examples.streaming_env [Examples.bytes "Hel"; Examples.bytes "lo"] Api.StreamDone in
  let go := ChatPage.run Examples.trim (TD := Examples.whole_chunk_decoder) "p1" None
              (ChatPage.start 0) in
  let typed := [ChatPage.Change " hi "; ChatPage.KeyDown "Enter" false 5 5 env] in
  let first := [ChatPage.Resume 0 6 6; ChatPage.Resume 0 6 6; ChatPage.Resume 0 6 6] in
  let second := [ChatPage.Resume 0 6 6; ChatPage.Resume 0 6 6; ChatPage.Resume 0 6 6] in
  ChatPage.streamingContent (ChatPage.page (go (typed ++ first)%list)) = "Hel"
  /\ ChatPage.streamingContent (ChatPage.page (go (typed ++ first ++ second)%list)) = "Hello"
  /\ ChatPage.isLoading (ChatPage.page (go (typed ++ first ++ second)%list)) = true
  /\ ChatPage.page (go (typed ++ first ++ second ++ [ChatPage.Resume 0 7 8])%list)
     = {| ChatPage.messages :=
            [ {| id := "1"; role := assistant; content := ChatPage.welcome; timestamp := 0 |};
              {| id := "5"; role := user; content := "hi"; timestamp := 5 |};
              {| id := "8"; role := assistant; content := "Hello"; timestamp := 8 |} ];
          ChatPage.input := "";
          ChatPage.isLoading := false;
          ChatPage.isInitializing := true;
          ChatPage.error := None;
          ChatPage.streamingContent := "" |}.
Proof. repeat split; reflexivity. Qed.

(** ** The API client *)

Module ApiFacts.
Import Api Shape.

Lemma guarded_returns {T} (body : completion (ApiResponse T)) :
  exists r, guarded body = Normal r /\
    (body = Normal r \/ exists e, body = Throw e /\ r = failed (getErrorMessage e)).
Proof.
  destruct body as [r | e]; simpl.
  - exists r; auto.
  - exists (failed (getErrorMessage e)); split; [reflexivity | right; eauto].
Qed.

Lemma settles_payload {T} (c : completion AxiosResponse) (f : AxiosResponse -> T) :
  settles_as c (fun response => Some (f response))
             (guarded (response <- c ;; Normal (ok_with (f response)))).
Proof. destruct c as [response | e]; reflexivity. Qed.

Lemma settles_empty {T} (c : completion AxiosResponse) :
  settles_as c (fun _ => None) (guarded (_ <- c ;; Normal (@ok_empty T))).
Proof. destruct c as [response | e]; reflexivity. Qed.

Lemma settles_results (c : completion AxiosResponse) :
  settles_as (response <- c ;; get_prop (response_data response) "results") Some
             (guarded (response <- c ;;
                       results <- get_prop (response_data response) "results" ;;
                       Normal (ok_with results))).
Proof.
  destruct c as [[d] | e]; [| reflexivity].
  destruct d; reflexivity.
Qed.

Lemma getErrorMessage_plain (e : js_error) :
  plain_error e -> exists msg, getErrorMessage e = JStr msg /\ msg <> "".
Proof.
  destruct e as [rd m | m | v]; simpl.
  - intros (Hm & Hd & Hmsg).
    set (d := match rd with Some d => d | None => JUndefined end) in *.
    unfold js_or.
    destruct (opt_get d "detail") eqn:Ed; simpl in *; try contradiction;
      destruct (opt_get d "message") eqn:Em; simpl in *; try contradiction;
      repeat match goal with
             | |- context [ (?s =? "") ] => destruct (String.eqb_spec s ""); simpl
             end; eauto.
  - intros Hm; eauto.
  - intros _. eexists; split; [reflexivity | discriminate].
Qed.

Lemma append_assoc (a b c : string) : (a ++ b) ++ c = a ++ (b ++ c).
Proof. induction a as [| x a IH]; simpl; [reflexivity | now rewrite IH]. Qed.

Lemma append_empty_r (a : string) : a ++ "" = a.
Proof. induction a as [| x a IH]; simpl; [reflexivity | now rewrite IH]. Qed.

Section Stream.
Context {TD : TextDecoder}.

Lemma read_loop_trace (d : decoder) (values : list (list byte)) (e : stream_end)
    (acc : string) :
  fst (read_loop true d values e acc)
  = (flat_map step_events (decoded d values) ++ [EvRead])%list.
Proof.
  revert d acc; induction values as [| value rest IH]; intros d acc.
  - simpl. destruct e; reflexivity.
  - simpl. destruct (decode d value) as [chunk d'] eqn:Hd. simpl.
    specialize (IH d' (acc ++ chunk)).
    destruct (read_loop true d' rest e (acc ++ chunk)) as [tr r]; simpl in *.
    now rewrite IH.
Qed.

Lemma read_loop_content (b : bool) (d : decoder) (values : list (list byte))
    (e : stream_end) (acc : string) :
  snd (read_loop b d values e acc)
  = match e with
    | StreamDone => Normal (acc ++ join (decoded d values))
    | StreamError err => Throw err
    end.
Proof.
  revert d acc; induction values as [| value rest IH]; intros d acc.
  - simpl. destruct e; simpl; [now rewrite append_empty_r | reflexivity].
  - simpl. destruct (decode d value) as [chunk d'] eqn:Hd. simpl.
    specialize (IH d' (acc ++ chunk)).
    destruct b; simpl;
      destruct (read_loop _ d' rest e (acc ++ chunk)) as [tr r]; simpl in *;
      rewrite IH; destruct e; try reflexivity; now rewrite append_assoc.
Qed.

Lemma delivered_steps (cs : list string) :
  delivered (flat_map step_events cs ++ [EvRead]) = cs.
Proof. induction cs as [| c cs IH]; simpl; [reflexivity | now rewrite IH]. Qed.

(** Cutting the trace of a read loop just before one of its reads
    leaves as many deliveries as reads. *)
Lemma steps_cut (cs : list string) (pre post : list io_event) :
  (flat_map step_events cs ++ [EvRead])%list = (pre ++ EvRead :: post)%list ->
  delivered pre = firstn (reads pre) cs.
Proof.
  revert pre; induction cs as [| c cs IH]; intros pre H.
  - destruct pre as [| ev pre]; [reflexivity |].
    simpl in H. injection H as _ H. destruct pre; discriminate.
  - destruct pre as [| ev pre]; [reflexivity |].
    cbn in H. injection H as <- H.
    destruct pre as [| ev' pre]; cbn in H; [discriminate |].
    injection H as <- H.
    cbn. f_equal. now apply IH.
Qed.

(** What [sendChatMessage] returns, case by case. *)
Lemma sendChatMessage_result (env : Env) (projectId message : string)
    (userId : option string) (b : bool) :
  snd (sendChatMessage env projectId message userId b)
  = match fetch env (chat_request env projectId message userId) with
    | Throw e => Normal (failed (getErrorMessage e))
    | Normal response =>
        if negb (ok response)
        then Normal (failed (JStr "Failed to send message"))
        else
          let text := match resp_body response with
                      | Some reader =>
                          match ending reader with
                          | StreamDone => Normal (join (decoded new_decoder (chunks reader)))
                          | StreamError err => Throw err
                          end
                      | None => Normal ""
                      end in
          match text, randomUUID env with
          | Throw e, _ => Normal (failed (getErrorMessage e))
          | Normal _, Throw e => Normal (failed (getErrorMessage e))
          | Normal fullContent, Normal uuid =>
              Normal (ok_with {| id := uuid; role := assistant;
                                 content := fullContent; timestamp := now env |})
          end
    end.
Proof.
  unfold sendChatMessage. simpl.
  destruct (fetch env _) as [response | e]; simpl; [| reflexivity].
  destruct (ok response); simpl; [| reflexivity].
  destruct (resp_body response) as [reader |]; simpl.
  - pose proof (read_loop_content b new_decoder (chunks reader) (ending reader) "") as Hc.
    destruct (read_loop b new_decoder (chunks reader) (ending reader) "") as [tr r].
    simpl in Hc. subst r.
    destruct (ending reader); simpl; [| reflexivity].
    destruct (randomUUID env); reflexivity.
  - destruct (randomUUID env); reflexivity.
Qed.

(** The trace of a call whose response is OK and has a body. *)
Lemma sendChatMessage_trace (env : Env) (projectId message : string)
    (userId : option string) (response : FetchResponse) (reader : ReadableStream) :
  fetch env (chat_request env projectId message userId) = Normal response ->
  ok response = true ->
  resp_body response = Some reader ->
  fst (sendChatMessage env projectId message userId true)
  = (EvFetch (chat_request env projectId message userId)
     :: flat_map step_events (decoded new_decoder (chunks reader)) ++ [EvRead])%list.
Proof.
  intros Hf Hok Hb. unfold sendChatMessage. simpl. rewrite Hf. simpl.
  rewrite Hok. simpl. rewrite Hb.
  pose proof (read_loop_trace new_decoder (chunks reader) (ending reader) "") as Ht.
  destruct (read_loop true new_decoder (chunks reader) (ending reader) "") as [tr r].
  simpl in Ht. subst tr.
  destruct r as [full | e]; simpl; [| reflexivity].
  destruct (randomUUID env); simpl; now rewrite app_nil_r.
Qed.

(** On success the content is what was handed to [onChunk], joined. *)
Lemma sendChatMessage_content (env : Env) (projectId message : string)
    (userId : option string) (tr : list io_event) (res : ApiResponse ChatMessage) :
  sendChatMessage env projectId message userId true = (tr, Normal res) ->
  success res = true ->
  exists uuid, data res = Some {| id := uuid; role := assistant;
                                  content := join (delivered tr);
                                  timestamp := now env |}.
Proof.
  intros Hs Hok.
  pose proof (sendChatMessage_result env projectId message userId true) as Hr.
  rewrite Hs in Hr. simpl in Hr.
  destruct (fetch env (chat_request env projectId message userId)) as [response | e] eqn:Hf.
  2:{ injection Hr as ->. discriminate. }
  destruct (ok response) eqn:Ho; simpl in Hr.
  2:{ injection Hr as ->. discriminate. }
  destruct (resp_body response) as [reader |] eqn:Hb.
  - pose proof (sendChatMessage_trace env projectId message userId response reader Hf Ho Hb) as Ht.
    rewrite Hs in Ht. simpl in Ht. subst tr.
    cbn [delivered]. rewrite delivered_steps.
    destruct (ending reader); [| injection Hr as ->; discriminate].
    destruct (randomUUID env) as [uuid | e]; injection Hr as ->; [| discriminate].
    exists uuid. reflexivity.
  - destruct (randomUUID env) as [uuid | e]; injection Hr as ->; [| discriminate].
    exists uuid. simpl. do 3 f_equal.
    unfold sendChatMessage in Hs. simpl in Hs. rewrite Hf in Hs. simpl in Hs.
    rewrite Ho in Hs. simpl in Hs. rewrite Hb in Hs. simpl in Hs.
    destruct (randomUUID env); injection Hs as <- _; reflexivity.
Qed.

End Stream.
End ApiFacts.

Import Shape.

(** C1.  In a chat turn whose response is OK and has a body, the trace
    of [sendChatMessage] is: the fetch, then for every value of the
    stream one [reader.read()] followed at once by [onChunk] with the
    text decoded from it, then the last read.  Hence, wherever the
    trace is cut just before a read, the chunks already handed to
    [onChunk] are exactly the texts of the values read so far: chunk i
    reaches the caller before chunk i+1 is asked for, and nothing waits
    for the whole answer. *)
Theorem sendChatMessage_forwards_each_chunk
    {TD : Api.TextDecoder} (env : Api.Env) (projectId message : string)
    (userId : option string) (response : Api.FetchResponse) (reader : Api.ReadableStream) :
  Api.fetch env (Api.chat_request env projectId message userId) = Normal response ->
  Api.ok response = true ->
  Api.resp_body response = Some reader ->
  let tr := fst (Api.sendChatMessage env projectId message userId true) in
  let texts := decoded Api.new_decoder (Api.chunks reader) in
  tr = (Api.EvFetch (Api.chat_request env projectId message userId)
        :: flat_map (fun chunk => [Api.EvRead; Api.EvOnChunk chunk]) texts
        ++ [Api.EvRead])%list
  /\ delivered tr = texts
  /\ forall pre post, tr = (pre ++ Api.EvRead :: post)%list ->
       delivered pre = firstn (reads pre) texts.
Proof.
  intros Hf Hok Hb tr texts.
  assert (Ht : tr = (Api.EvFetch (Api.chat_request env projectId message userId)
                     :: flat_map step_events texts ++ [Api.EvRead])%list)
    by (apply ApiFacts.sendChatMessage_trace with (response := response); assumption).
  split; [exact Ht |]. split.
  - rewrite Ht. cbn [delivered]. apply ApiFacts.delivered_steps.
  - intros pre post Hcut. rewrite Ht in Hcut.
    destruct pre as [| ev pre]; [reflexivity |].
    cbn in Hcut. injection Hcut as <- Hcut.
    cbn [delivered reads]. now apply ApiFacts.steps_cut with (post := post).
Qed.

Lemma sendChatMessage_forwards_each_chunk_witness :
  let env := Examples.streaming_env [Examples.bytes "Hel"; Examples.bytes "lo"] Api.StreamDone in
  let tr := fst (Api.sendChatMessage (TD := Examples.whole_chunk_decoder)
                  env "p1" "hi" None true) in
  tr = [Api.EvFetch (Api.chat_request env "p1" "hi" None);
        Api.EvRead; Api.EvOnChunk "Hel"; Api.EvRead; Api.EvOnChunk "lo"; Api.EvRead]
  /\ delivered tr = ["Hel"; "lo"]
  /\ forall pre post, tr = (pre ++ Api.EvRead :: post)%list ->
       delivered pre = firstn (reads pre) ["Hel"; "lo"].
Proof.
  intros env.
  exact (sendChatMessage_forwards_each_chunk (TD := Examples.whole_chunk_decoder)
           env "p1" "hi" None
           {| Api.ok := true;
              Api.resp_body := Some {| Api.chunks := [Examples.bytes "Hel"; Examples.bytes "lo"];
                                       Api.ending := Api.StreamDone |} |}
           {| Api.chunks := [Examples.bytes "Hel"; Examples.bytes "lo"];
              Api.ending := Api.StreamDone |}
           eq_refl eq_refl eq_refl).
Defined.

(** C3, as the code has it.  The Analyze/Retry action calls
    [analyzeProject] with [{ skipLsp: true }]: the one request it sends
    is a POST to [/api/projects/<id>/analyze?skip_lsp=true], so it asks
    the service to leave language-server enrichment out (and does not
    ask it to skip the description step). *)
Theorem handleAnalyzeProject_sends_skip_lsp
    (env : Api.Env) (projectId : string) (userId : option string) :
  Dashboard.handleAnalyzeProject_call env projectId userId
  = Api.guarded
      (response <- Api.axios_adapter env
                     {| Api.method := Api.POST;
                        Api.url := Api.API_BASE_URL env ++ "/api/projects/" ++ projectId
                                   ++ "/analyze?skip_lsp=true";
                        Api.req_body := Some (JObj []);
                        Api.headers := (("Content-Type", "application/json")
                                        :: Api.withUserId userId)%list |} ;;
       Normal (ok_with (Api.response_data response)))
  /\ Api.analyze_params (Some {| Api.skipLsp := Some true; Api.skipLlmAnalysis := None |})
     = [("skip_lsp", "true")].
Proof. split; reflexivity. Qed.

(** C3 fails as stated: for project [p1] the request goes to a URL
    whose query is [skip_lsp=true], which switches enrichment off. *)
Lemma handleAnalyzeProject_lsp_counterexample :
  Dashboard.handleAnalyzeProject_call Examples.echo_env "p1" None
  = Normal (ok_with (JStr "http://localhost:8000/api/projects/p1/analyze?skip_lsp=true"))
  /\ lsp_enabled "http://localhost:8000/api/projects/p1/analyze?skip_lsp=true" = false
  /\ lsp_enabled "http://localhost:8000/api/projects/p1/analyze?" = true.
Proof. repeat split; reflexivity. Qed.

(** C7, as the code has it.  What the two lookups deliver is decided
    by the outcome of the one request each of them sends, a GET of
    [/api/projects/<id>/refs/<escaped name>] (or [/calls/]).  When the
    service rejects that request, the result is a failure without data
    whose [error] is what [getErrorMessage] reads from the rejection;
    when the rejection carries a non-empty string as [detail], that
    string is the [error], and the failure is an explicit one.  When
    the service answers with an OK status and an object as body, the
    result is a success whose data is the [results] of the body,
    whatever else the body says.  An explicit failure is never the
    success that carries a list, empty or not. *)
Theorem direct_lookup_follows_http_outcome
    (env : Api.Env) (projectId functionName : string) (userId : option string) :
  let reply_to (path : string) :=
    Api.axios_adapter env
      (Api.instance_request env Api.GET path None (Api.withUserId userId)) in
  let decided_by (reply : completion Api.AxiosResponse)
                 (result : completion (ApiResponse jsval)) :=
    (forall e, reply = Throw e -> result = Normal (failed (Api.getErrorMessage e)))
    /\ (forall body message detail,
          reply = Throw (AxiosError (Some body) message) ->
          opt_get body "detail" = JStr detail -> detail <> "" ->
          result = Normal (failed (JStr detail))
          /\ explicit_failure (@failed jsval (JStr detail)))
    /\ (forall fields,
          reply = Normal {| Api.response_data := JObj fields |} ->
          result = Normal (ok_with (assoc "results" fields))) in
  decided_by (reply_to ("/api/projects/" ++ projectId ++ "/refs/"
                        ++ Uri.encodeURIComponent functionName))
             (Api.getFunctionReferences env projectId functionName userId)
  /\ decided_by (reply_to ("/api/projects/" ++ projectId ++ "/calls/"
                           ++ Uri.encodeURIComponent functionName))
                (Api.getFunctionCalls env projectId functionName userId)
  /\ (forall (r : ApiResponse jsval) items, explicit_failure r -> r <> ok_with (JArr items)).
Proof.
  intros reply_to decided_by.
  assert (Hdecided : forall path,
            decided_by (reply_to path)
              (Api.guarded (response <- reply_to path ;;
                            results <- get_prop (Api.response_data response) "results" ;;
                            Normal (ok_with results)))).
  { intros path. subst decided_by. cbv beta. repeat split.
    - intros e ->. reflexivity.
    - rewrite H. simpl. unfold js_or. rewrite H0. simpl.
      destruct (String.eqb_spec detail ""); [contradiction |]. simpl.
      destruct (String.eqb_spec detail ""); [contradiction | reflexivity].
    - exists detail. split; [reflexivity | assumption].
    - intros fields ->. reflexivity. }
  split; [apply Hdecided |]. split; [apply Hdecided |].
  intros r items [Hs _] ->. discriminate.
Qed.

Lemma direct_lookup_follows_http_outcome_witness :
  let env := Examples.axios_env
               (fun _ => Throw (AxiosError
                                  (Some (JObj [("detail", JStr "Function 'missing' not found")]))
                                  "Request failed with status code 404")) in
  Api.getFunctionReferences env "p1" "missing" None
  = Normal (failed (JStr "Function 'missing' not found"))
  /\ explicit_failure (@failed jsval (JStr "Function 'missing' not found")).
Proof.
  intros env.
  destruct (direct_lookup_follows_http_outcome env "p1" "missing" None) as ((_ & H & _) & _).
  apply (H (JObj [("detail", JStr "Function 'missing' not found")])
           "Request failed with status code 404" "Function 'missing' not found").
  - reflexivity.
  - reflexivity.
  - discriminate.
Defined.

(** C7 fails as stated.  The service reports the unresolved name
    [missing] in the body of a reply with an OK status; both lookups
    deliver a success, with [undefined] as data, and not an explicit
    failure. *)
Lemma lookup_not_found_in_body_counterexample :
  let env := Examples.axios_env (fun _ => Backend.not_found_in_body "missing") in
  (exists r, Api.getFunctionReferences env "p1" "missing" None = Normal r
             /\ success r = true /\ data r = Some JUndefined /\ ~ explicit_failure r)
  /\ (exists r, Api.getFunctionCalls env "p1" "missing" None = Normal r
                /\ success r = true /\ data r = Some JUndefined /\ ~ explicit_failure r).
Proof.
  split; eexists; (split; [reflexivity |]); repeat split; intros [H _]; discriminate.
Qed.




(** ** The chat page *)

Module ChatFacts.
Import ChatPage Shape.

Lemma handleSubmit_end_success (res : ApiResponse ChatMessage) (d : ChatMessage)
    (dateNow newDate : Z) (s : State) :
  success res = true -> data res = Some d ->
  messages (handleSubmit_end res dateNow newDate s)
  = (messages s ++ [ {| id := Z_toString (dateNow + 1); role := assistant;
                        content := content d; timestamp := newDate |} ])%list.
Proof. intros Hs Hd. unfold handleSubmit_end. rewrite Hs, Hd. reflexivity. Qed.

Lemma handleSubmit_end_failure (res : ApiResponse ChatMessage)
    (dateNow newDate : Z) (s : State) :
  success res = false ->
  messages (handleSubmit_end res dateNow newDate s)
  = (messages s ++
     [ {| id := Z_toString (dateNow + 1); role := assistant;
          content := "Sorry, I encountered an error: "
                     ++ js_toString (js_or (match Types.error res with
                                            | Some e => e | None => JUndefined end)
                                           (JStr "Unknown error"))
                     ++ ". Please try again.";
          timestamp := newDate |} ])%list.
Proof. intros Hs. unfold handleSubmit_end. rewrite Hs. reflexivity. Qed.

(** Every segment of [initChat] and [handleSubmit] extends [messages]. *)
Lemma initChat_project_messages (r : ApiResponse Project) (s : State) :
  messages (fst (initChat_project r s)) = messages s.
Proof.
  unfold initChat_project.
  destruct (success r); [| reflexivity].
  destruct (data r) as [p |]; [| reflexivity].
  destruct (status p); reflexivity.
Qed.

Lemma initChat_history_messages (r : ApiResponse (list ChatMessage))
    (newDate : nat -> Z) (s : State) :
  exists suffix, messages (initChat_history r newDate s) = (messages s ++ suffix)%list.
Proof.
  unfold initChat_history.
  destruct (success r); [| exists []; simpl; now rewrite app_nil_r].
  destruct (data r) as [[| m l] |]; try (exists []; simpl; now rewrite app_nil_r).
  eexists. reflexivity.
Qed.

Lemma handleSubmit_end_messages (res : ApiResponse ChatMessage)
    (dateNow newDate : Z) (s : State) :
  exists m, messages (handleSubmit_end res dateNow newDate s) = (messages s ++ [m])%list
            /\ role m = assistant.
Proof.
  unfold handleSubmit_end.
  destruct (success res); [destruct (data res) |]; eexists; split; reflexivity.
Qed.

Section Transitions.

Variable trim : string -> string.
Context {TD : Api.TextDecoder}.
Variables (projectId : string) (userId : option string).


Lemma handleSubmit_messages (dateNow newDate : Z) (env : Api.Env) (sys : System) :
  exists suffix,
    messages (page (handleSubmit trim projectId userId dateNow newDate env sys))
    = (messages (page sys) ++ suffix)%list.
Proof.
  unfold handleSubmit, handleSubmit_begin.
  destruct ((trim (input (page sys)) =? "") || isLoading (page sys)).
  - exists []. now rewrite app_nil_r.
  - cbv zeta.
    destruct (Api.sendChatMessage env projectId _ userId true) as [tr r].
    eexists. reflexivity.
Qed.

Lemma step_messages (sys : System) (a : action) :
  exists suffix, messages (page (step trim projectId userId sys a)) = (messages (page sys) ++ suffix)%list.
Proof.
  destruct a as [| r | r newDate | v | dateNow newDate env
                 | key shiftKey dateNow newDate env | i dateNow newDate]; simpl.
  - exists []. now rewrite app_nil_r.
  - exists []. now rewrite initChat_project_messages, app_nil_r.
  - apply initChat_history_messages.
  - exists []. now rewrite app_nil_r.
  - apply handleSubmit_messages.
  - unfold handleKeyDown.
    destruct ((key =? "Enter") && negb shiftKey).
    + apply handleSubmit_messages.
    + exists []. now rewrite app_nil_r.
  - unfold resume.
    destruct (nth_error (inflight sys) i) as [t |];
      [| exists []; now rewrite app_nil_r].
    destruct (upcoming t) as [| ev rest]; simpl.
    + destruct (result t) as [res | e].
      * destruct (handleSubmit_end_messages res dateNow newDate (page sys)) as (m & Hm & _).
        exists [m]. exact Hm.
      * exists []. now rewrite app_nil_r.
    + destruct ev; exists []; simpl; now rewrite app_nil_r.
Qed.

Lemma run_messages (actions : list action) (sys : System) :
  exists suffix, messages (page (run trim projectId userId sys actions)) = (messages (page sys) ++ suffix)%list.
Proof.
  revert sys; induction actions as [| a actions IH]; intros sys.
  - exists []. simpl. now rewrite app_nil_r.
  - change (run trim projectId userId sys (a :: actions))
      with (run trim projectId userId (step trim projectId userId sys a) actions).
    destruct (IH (step trim projectId userId sys a)) as (l2 & H2).
    destruct (step_messages sys a) as (l1 & H1).
    exists (l1 ++ l2)%list. rewrite H2, H1. now rewrite app_assoc.
Qed.

Lemma handleSubmit_single_turn (dateNow newDate : Z) (env : Api.Env) (sys : System) :
  single_turn sys ->
  single_turn (handleSubmit trim projectId userId dateNow newDate env sys).
Proof.
  intros Inv. unfold handleSubmit, handleSubmit_begin.
  destruct (trim (input (page sys)) =? ""); simpl; [exact Inv |].
  destruct (isLoading (page sys)) eqn:Hl; [exact Inv |].
  cbv zeta.
  destruct (Api.sendChatMessage env projectId _ userId true) as [tr r].
  unfold single_turn in *. simpl.
  destruct (inflight sys) as [| t [| t' l]]; simpl; [reflexivity | | contradiction].
  rewrite Hl in Inv. discriminate.
Qed.

Lemma step_single_turn (sys : System) (a : action) :
  single_turn sys -> single_turn (step trim projectId userId sys a).
Proof.
  intros Inv.
  destruct a as [| r | r newDate | v | dateNow newDate env
                 | key shiftKey dateNow newDate env | i dateNow newDate]; simpl.
  - exact Inv.
  - unfold single_turn in *; simpl.
    destruct (inflight sys) as [| t [| t' l]]; auto.
    unfold initChat_project.
    destruct (success r); [destruct (data r) as [p |]; [destruct (status p) |] |]; exact Inv.
  - unfold single_turn in *; simpl.
    destruct (inflight sys) as [| t [| t' l]]; auto.
    unfold initChat_history.
    destruct (success r); [destruct (data r) as [[| m l] |] |]; exact Inv.
  - exact Inv.
  - now apply handleSubmit_single_turn.
  - unfold handleKeyDown.
    destruct ((key =? "Enter") && negb shiftKey); [now apply handleSubmit_single_turn | exact Inv].
  - unfold resume, single_turn in *.
    destruct (inflight sys) as [| t [| t' l]] eqn:Hin; try contradiction.
    + destruct i; simpl; rewrite Hin; exact I.
    + destruct i as [| i]; simpl.
      * destruct (upcoming t) as [| ev rest]; simpl; [exact I |].
        destruct ev; exact Inv.
      * destruct i; simpl; rewrite Hin; exact Inv.
Qed.

Lemma run_single_turn (actions : list action) (sys : System) :
  single_turn sys -> single_turn (run trim projectId userId sys actions).
Proof.
  revert sys; induction actions as [| a actions IH]; intros sys Inv.
  - exact Inv.
  - change (run trim projectId userId sys (a :: actions))
      with (run trim projectId userId (step trim projectId userId sys a) actions).
    apply IH. now apply step_single_turn.
Qed.

End Transitions.
End ChatFacts.

(** C5.  When [sendChatMessage] reports success, the message that
    [handleSubmit] appends after the stream has ended has role
    [assistant], and its content is the concatenation, in the order of
    the calls, of exactly the chunks that were handed to [onChunk]. *)
Theorem completed_turn_appends_streamed_text
    {TD : Api.TextDecoder} (env : Api.Env) (projectId message : string)
    (userId : option string) (tr : list Api.io_event) (res : ApiResponse ChatMessage)
    (dateNow newDate : Z) (s : ChatPage.State) :
  Api.sendChatMessage env projectId message userId true = (tr, Normal res) ->
  success res = true ->
  exists m,
    ChatPage.messages (ChatPage.handleSubmit_end res dateNow newDate s)
    = (ChatPage.messages s ++ [m])%list
    /\ role m = assistant
    /\ content m = join (delivered tr).
Proof.
  intros Hsend Hok.
  destruct (ApiFacts.sendChatMessage_content env projectId message userId tr res Hsend Hok)
    as (uuid & Hd).
  eexists. split; [| split].
  - apply ChatFacts.handleSubmit_end_success; eassumption.
  - reflexivity.
  - reflexivity.
Qed.

Lemma completed_turn_appends_streamed_text_witness :
  exists m,
    ChatPage.messages
      (ChatPage.handleSubmit_end
         (ok_with {| id := "uuid-0"; role := assistant; content := "Hello"; timestamp := 0 |})
         7 8 (ChatPage.initial 0))
    = (ChatPage.messages (ChatPage.initial 0) ++ [m])%list
    /\ role m = assistant
    /\ content m = join ["Hel"; "lo"].
Proof.
  exact (completed_turn_appends_streamed_text (TD := Examples.whole_chunk_decoder)
           (Examples.streaming_env [Examples.bytes "Hel"; Examples.bytes "lo"] Api.StreamDone)
           "p1" "hi" None _ _ 7 8 (ChatPage.initial 0) eq_refl eq_refl).
Defined.

(** C2, as the code has it.  When the chat request fails,
    [sendChatMessage] reports a failure and [handleSubmit] appends one
    assistant message with the text
    [Sorry, I encountered an error: <error>. Please try again.], which
    is never empty.  The [<error>] is what the failure carries, or
    [Unknown error] when that is falsy: what [getErrorMessage] reads
    from the rejection when [fetch] rejects or when reading the body
    ends in an error, and [Failed to send message] when the status is
    not OK.  A response that is OK and whose body, if it has one, ends
    without text is no failure: [sendChatMessage] reports a success
    with empty content and [handleSubmit] appends an assistant message
    whose content is the empty string. *)
Theorem failed_turn_appends_error_message
    {TD : Api.TextDecoder} (env : Api.Env) (projectId message : string)
    (userId : option string) (dateNow newDate : Z) (s : ChatPage.State) :
  let req := Api.chat_request env projectId message userId in
  let call := snd (Api.sendChatMessage env projectId message userId true) in
  let appended (res : ApiResponse ChatMessage) (text : string) :=
    ChatPage.messages (ChatPage.handleSubmit_end res dateNow newDate s)
    = (ChatPage.messages s ++
       [ {| id := Z_toString (dateNow + 1); role := assistant; content := text;
            timestamp := newDate |} ])%list in
  let apology (error : jsval) :=
    "Sorry, I encountered an error: "
    ++ js_toString (js_or error (JStr "Unknown error")) ++ ". Please try again." in
  let fails_with (error : jsval) :=
    call = Normal (failed error)
    /\ appended (failed error) (apology error)
    /\ apology error <> "" in
  (forall e, Api.fetch env req = Throw e -> fails_with (Api.getErrorMessage e))
  /\ (forall response,
        Api.fetch env req = Normal response -> Api.ok response = false ->
        fails_with (JStr "Failed to send message")
        /\ apology (JStr "Failed to send message")
           = "Sorry, I encountered an error: Failed to send message. Please try again.")
  /\ (forall response reader e,
        Api.fetch env req = Normal response -> Api.ok response = true ->
        Api.resp_body response = Some reader -> Api.ending reader = Api.StreamError e ->
        fails_with (Api.getErrorMessage e))
  /\ (forall response uuid,
        Api.fetch env req = Normal response -> Api.ok response = true ->
        match Api.resp_body response with
        | Some reader =>
            Api.ending reader = Api.StreamDone
            /\ join (decoded Api.new_decoder (Api.chunks reader)) = ""
        | None => True
        end ->
        Api.randomUUID env = Normal uuid ->
        let res := ok_with {| id := uuid; role := assistant; content := "";
                              timestamp := Api.now env |} in
        call = Normal res /\ appended res "").
Proof.
  intros req call appended apology fails_with.
  assert (Hcall : call = _) by apply ApiFacts.sendChatMessage_result.
  fold req in Hcall.
  assert (Hfails : forall error, call = Normal (failed error) -> fails_with error).
  { intros error H. split; [exact H |]. split; [| discriminate].
    apply ChatFacts.handleSubmit_end_failure. reflexivity. }
  split; [| split; [| split]].
  - intros e He. apply Hfails. rewrite Hcall, He. reflexivity.
  - intros response Hf Hok. split; [| reflexivity].
    apply Hfails. rewrite Hcall, Hf, Hok. reflexivity.
  - intros response reader e Hf Hok Hb He.
    apply Hfails. rewrite Hcall, Hf, Hok. cbn [negb]. rewrite Hb, He. reflexivity.
  - intros response uuid Hf Hok Hbody Hid res. split.
    + rewrite Hcall, Hf, Hok. cbn [negb]. rewrite Hid.
      destruct (Api.resp_body response) as [reader |]; [| reflexivity].
      destruct Hbody as [-> ->]. reflexivity.
    + now apply ChatFacts.handleSubmit_end_success with (d := {| id := uuid; role := assistant;
                                                              content := ""; timestamp := Api.now env |}).
Qed.

Lemma failed_turn_appends_error_message_witness :
  let refused := Examples.axios_env (fun _ => Throw (ErrorObject "unused")) in
  let silent := Examples.streaming_env [] Api.StreamDone in
  (snd (Api.sendChatMessage (TD := Examples.whole_chunk_decoder) refused "p1" "hi" None true)
   = Normal (failed (JStr "Failed to send message"))
   /\ ChatPage.messages
        (ChatPage.handleSubmit_end (failed (JStr "Failed to send message")) 7 8
           (ChatPage.initial 0))
      = (ChatPage.messages (ChatPage.initial 0) ++
         [ {| id := "8"; role := assistant;
              content := "Sorry, I encountered an error: Failed to send message. Please try again.";
              timestamp := 8 |} ])%list)
  /\ (snd (Api.sendChatMessage (TD := Examples.whole_chunk_decoder) silent "p1" "hi" None true)
      = Normal (ok_with {| id := "uuid-0"; role := assistant; content := ""; timestamp := 0 |})
      /\ ChatPage.messages
           (ChatPage.handleSubmit_end
              (ok_with {| id := "uuid-0"; role := assistant; content := ""; timestamp := 0 |})
              7 8 (ChatPage.initial 0))
         = (ChatPage.messages (ChatPage.initial 0) ++
            [ {| id := "8"; role := assistant; content := ""; timestamp := 8 |} ])%list).
Proof.
  intros refused silent. split.
  - destruct (failed_turn_appends_error_message (TD := Examples.whole_chunk_decoder)
                refused "p1" "hi" None 7 8 (ChatPage.initial 0)) as (_ & H & _).
    destruct (H {| Api.ok := false; Api.resp_body := None |} eq_refl eq_refl)
      as ((H1 & H2 & _) & _).
    exact (conj H1 H2).
  - destruct (failed_turn_appends_error_message (TD := Examples.whole_chunk_decoder)
                silent "p1" "hi" None 7 8 (ChatPage.initial 0)) as (_ & _ & _ & H).
    exact (H {| Api.ok := true;
                Api.resp_body := Some {| Api.chunks := []; Api.ending := Api.StreamDone |} |}
             "uuid-0" eq_refl eq_refl (conj eq_refl eq_refl) eq_refl).
Defined.

(** C2 fails as stated: a turn can end with an empty assistant answer
    and no error message.  The service answers 200 with a body that
    ends before any value is read; [sendChatMessage] reports success
    with empty content, and the turn (type [hi], submit, let the call
    make its two steps, resume [handleSubmit]) leaves the welcome
    message, the user's message and an assistant message whose content
    is the empty string. *)
Lemma empty_answer_counterexample :
  let env := Examples.streaming_env [] Api.StreamDone in
  let final :=
    ChatPage.run Examples.trim (TD := Examples.whole_chunk_decoder) "p1" None
      (ChatPage.start 0)
      [ChatPage.Change "hi"; ChatPage.FormSubmit 5 5 env;
       ChatPage.Resume 0 6 6; ChatPage.Resume 0 6 6; ChatPage.Resume 0 7 8] in
  snd (Api.sendChatMessage (TD := Examples.whole_chunk_decoder) env "p1" "hi" None true)
  = Normal (ok_with {| id := "uuid-0"; role := assistant; content := ""; timestamp := 0 |})
  /\ ChatPage.inflight final = []
  /\ ChatPage.isLoading (ChatPage.page final) = false
  /\ ChatPage.messages (ChatPage.page final)
     = [ {| id := "1"; role := assistant; content := ChatPage.welcome; timestamp := 0 |};
         {| id := "5"; role := user; content := "hi"; timestamp := 5 |};
         {| id := "8"; role := assistant; content := ""; timestamp := 8 |} ].
Proof. repeat split; reflexivity. Qed.

Module BrowserFacts.
Import ChatPage Shape.

Lemma Forall_replace_nth {A} (P : A -> Prop) (i : nat) (x : A) (l : list A) :
  Forall P l -> P x -> Forall P (replace_nth i x l).
Proof.
  intros Hl Hx. revert i. induction Hl as [| y l Hy Hl IH]; intros i.
  - destruct i; constructor.
  - destruct i as [| j]; simpl; constructor; try assumption. apply IH.
Qed.

Lemma replace_nth_same {A} (i : nat) (x : A) (l : list A) :
  nth_error l i = Some x -> replace_nth i x l = l.
Proof.
  revert i. induction l as [| y l IH]; intros i H.
  - now destruct i.
  - destruct i as [| i]; simpl in *.
    + now injection H as ->.
    + now rewrite IH.
Qed.

(** Replacing one page changes the turns in progress by the turns of
    that page alone. *)
Lemma in_progress_replace (i : nat) (sys sys' : System) (pages : list System) :
  nth_error pages i = Some sys ->
  (length (Browser.in_progress (replace_nth i sys' pages)) + length (inflight sys)
   = length (Browser.in_progress pages) + length (inflight sys'))%nat.
Proof.
  unfold Browser.in_progress.
  revert i. induction pages as [| y l IH]; intros i H.
  - now destruct i.
  - destruct i as [| i]; simpl in *.
    + injection H as ->. rewrite !length_app. lia.
    + specialize (IH i H). rewrite !length_app. lia.
Qed.

Section Session.

Variable trim : string -> string.
Context {TD : Api.TextDecoder}.
Variables (projectId : string) (userId : option string).

Lemma step_all_single (pages : list System) (ev : Browser.event) :
  Forall single_turn pages ->
  Forall single_turn (Browser.step trim projectId userId pages ev).
Proof.
  intros Hall. destruct ev as [newDate | i a]; simpl.
  - apply Forall_app. split; [exact Hall |]. constructor; [exact I | constructor].
  - unfold Browser.act. destruct (nth_error pages i) as [sys |] eqn:Hi; [| exact Hall].
    apply Forall_replace_nth; [exact Hall |].
    apply ChatFacts.step_single_turn.
    rewrite Forall_forall in Hall. apply Hall. eapply nth_error_In. exact Hi.
Qed.

Lemma run_all_single (events : list Browser.event) (pages : list System) :
  Forall single_turn pages ->
  Forall single_turn (Browser.run trim projectId userId pages events).
Proof.
  revert pages. induction events as [| ev events IH]; intros pages Hall; [exact Hall |].
  apply IH, step_all_single, Hall.
Qed.

(** A submit on a page that awaits a call leaves the page as it is. *)
Lemma handleSubmit_while_loading (dateNow newDate : Z) (env : Api.Env) (sys : System) :
  isLoading (page sys) = true ->
  handleSubmit trim projectId userId dateNow newDate env sys = sys.
Proof.
  intros Hl. unfold handleSubmit, handleSubmit_begin. now rewrite Hl, orb_true_r.
Qed.

(** A submit on an idle page with a non-blank input starts one turn. *)
Lemma handleSubmit_starts (dateNow newDate : Z) (env : Api.Env) (sys : System) :
  isLoading (page sys) = false -> trim (input (page sys)) <> "" ->
  length (inflight (handleSubmit trim projectId userId dateNow newDate env sys))
  = S (length (inflight sys)).
Proof.
  intros Hl Hin. unfold handleSubmit, handleSubmit_begin.
  apply String.eqb_neq in Hin. rewrite Hl, Hin. cbn [orb].
  destruct (Api.sendChatMessage env projectId _ userId true) as [tr r].
  cbn [inflight]. rewrite length_app. simpl. lia.
Qed.

End Session.
End BrowserFacts.

(** C4, as the code has it.  Take the chat pages mounted for one
    project and one user, whatever they have done so far.  On each of
    them at most one call of [sendChatMessage] is awaited; while one
    is, [isLoading] of that page is set, and a submit on that page, by
    the form or by the Enter key, changes nothing: it starts no turn.
    The guard reads the state of the page alone: a submit on a page
    that is not loading and holds a non-blank input starts a turn
    whatever the other pages await, so the turns in progress against
    the session are one more than before. *)
Theorem one_turn_per_mounted_page
    (trim : string -> string) {TD : Api.TextDecoder} (projectId : string)
    (userId : option string) (events : list Browser.event) :
  let pages := Browser.run trim projectId userId [] events in
  (forall i sys,
      nth_error pages i = Some sys ->
      (length (ChatPage.inflight sys) <= 1)%nat
      /\ (ChatPage.inflight sys <> [] ->
          ChatPage.isLoading (ChatPage.page sys) = true
          /\ forall dateNow newDate env,
               Browser.act trim projectId userId i
                 (ChatPage.FormSubmit dateNow newDate env) pages = pages
               /\ forall key shiftKey,
                    Browser.act trim projectId userId i
                      (ChatPage.KeyDown key shiftKey dateNow newDate env) pages = pages))
  /\ (forall i sys dateNow newDate env,
        nth_error pages i = Some sys ->
        ChatPage.isLoading (ChatPage.page sys) = false ->
        trim (ChatPage.input (ChatPage.page sys)) <> "" ->
        length (Browser.in_progress
                  (Browser.act trim projectId userId i
                     (ChatPage.FormSubmit dateNow newDate env) pages))
        = S (length (Browser.in_progress pages))).
Proof.
  intros pages.
  assert (Hall : Forall single_turn pages)
    by (apply BrowserFacts.run_all_single; constructor).
  split.
  - intros i sys Hi.
    assert (Inv : single_turn sys).
    { rewrite Forall_forall in Hall. apply Hall. eapply nth_error_In. exact Hi. }
    unfold single_turn in Inv.
    destruct (ChatPage.inflight sys) as [| t [| t' l]] eqn:Hin; try contradiction.
    + split; [simpl; lia | intros H; now contradiction H].
    + split; [simpl; lia |]. intros _. split; [exact Inv |].
      intros dateNow newDate env.
      pose proof (BrowserFacts.handleSubmit_while_loading trim projectId userId
                    dateNow newDate env sys Inv) as Hsub.
      split.
      * unfold Browser.act. rewrite Hi. cbn [ChatPage.step]. rewrite Hsub.
        now apply BrowserFacts.replace_nth_same.
      * intros key shiftKey. unfold Browser.act. rewrite Hi.
        cbn [ChatPage.step]. unfold ChatPage.handleKeyDown.
        destruct ((key =? "Enter") && negb shiftKey); [rewrite Hsub |];
          now apply BrowserFacts.replace_nth_same.
  - intros i sys dateNow newDate env Hi Hl Hin.
    unfold Browser.act. rewrite Hi. cbn [ChatPage.step].
    pose proof (BrowserFacts.in_progress_replace i sys
                  (ChatPage.handleSubmit trim projectId userId dateNow newDate env sys)
                  pages Hi) as Hcount.
    rewrite (BrowserFacts.handleSubmit_starts trim projectId userId dateNow newDate env sys
               Hl Hin) in Hcount.
    lia.
Qed.

Lemma one_turn_per_mounted_page_witness :
  let env := Examples.streaming_env [Examples.bytes "ok"] Api.StreamDone in
  let pages := Browser.run Examples.trim (TD := Examples.whole_chunk_decoder) "p1" (Some "u1") []
                 [Browser.Mount 0; Browser.On 0 (ChatPage.Change "hi");
                  Browser.On 0 (ChatPage.FormSubmit 5 5 env);
                  Browser.On 0 (ChatPage.Resume 0 6 6);
                  Browser.On 0 (ChatPage.Change "again")] in
  length (Browser.in_progress pages) = 1%nat
  /\ Browser.act Examples.trim (TD := Examples.whole_chunk_decoder) "p1" (Some "u1") 0
       (ChatPage.KeyDown "Enter" false 9 9 env) pages = pages.
Proof.
  intros env pages. split; [reflexivity |].
  destruct (one_turn_per_mounted_page Examples.trim (TD := Examples.whole_chunk_decoder)
              "p1" (Some "u1")
              [Browser.Mount 0; Browser.On 0 (ChatPage.Change "hi");
               Browser.On 0 (ChatPage.FormSubmit 5 5 env);
               Browser.On 0 (ChatPage.Resume 0 6 6);
               Browser.On 0 (ChatPage.Change "again")]) as [H _].
  destruct (H 0%nat _ eq_refl) as [_ H'].
  destruct H' as [_ H']; [discriminate |].
  exact (proj2 (H' 9%Z 9%Z env) "Enter" false).
Defined.

(** C4 fails as stated.  Two chat pages are mounted for project [p1]
    and user [u1], as in two tabs.  The first submits [hi]; while its
    call is awaited, the second, which is not loading, submits
    [again].  Two turns are then in progress against the one session:
    two POST requests to the chat URL of [p1] with the header of
    [u1]. *)
Lemma two_pages_overlap_counterexample :
  let env := Examples.streaming_env [Examples.bytes "ok"] Api.StreamDone in
  let pages := Browser.run Examples.trim (TD := Examples.whole_chunk_decoder) "p1" (Some "u1") []
                 [Browser.Mount 0; Browser.Mount 1;
                  Browser.On 0 (ChatPage.Change "hi");
                  Browser.On 0 (ChatPage.FormSubmit 5 5 env);
                  Browser.On 1 (ChatPage.Change "again");
                  Browser.On 1 (ChatPage.FormSubmit 6 6 env)] in
  length (Browser.in_progress pages) = 2%nat
  /\ map ChatPage.isLoading (map ChatPage.page pages) = [true; true]
  /\ map (fun t => option_map Api.url (Browser.request_of t)) (Browser.in_progress pages)
     = [Some "http://localhost:8000/api/projects/p1/chat";
        Some "http://localhost:8000/api/projects/p1/chat"]
  /\ map (fun t => option_map Api.headers (Browser.request_of t)) (Browser.in_progress pages)
     = [Some [("Content-Type", "application/json"); ("X-User-Id", "u1")];
        Some [("Content-Type", "application/json"); ("X-User-Id", "u1")]]
  /\ ~ (length (Browser.in_progress pages) <= 1)%nat.
Proof.
  intros env pages. repeat split; try reflexivity.
  change (length (Browser.in_progress pages)) with 2%nat. lia.
Qed.

(** C6.  Whatever the chat page does, from any state: the message list
    afterwards is the list before with messages added at its end.
    Every message that was there keeps its place, role and content. *)
Theorem chat_messages_append_only
    (trim : string -> string) {TD : Api.TextDecoder} (projectId : string)
    (userId : option string) (sys : ChatPage.System) (actions : list ChatPage.action) :
  let after := ChatPage.messages (ChatPage.page (ChatPage.run trim projectId userId sys actions)) in
  let before := ChatPage.messages (ChatPage.page sys) in
  (exists suffix, after = (before ++ suffix)%list)
  /\ forall i m, nth_error before i = Some m -> nth_error after i = Some m.
Proof.
  intros after before.
  destruct (ChatFacts.run_messages trim projectId userId actions sys) as (suffix & H).
  fold after before in H.
  split; [exists suffix; exact H |].
  intros i m Hi. rewrite H.
  rewrite nth_error_app1; [exact Hi |].
  apply nth_error_Some. rewrite Hi. discriminate.
Qed.

Lemma chat_messages_append_only_witness :
  let env := Examples.streaming_env [Examples.bytes "ok"] Api.StreamDone in
  nth_error
    (ChatPage.messages
       (ChatPage.page
          (ChatPage.run Examples.trim (TD := Examples.whole_chunk_decoder) "p1" None
             (ChatPage.start 0)
             [ChatPage.InitBegin;
              ChatPage.InitHistory (ok_with [ {| id := "x"; role := user; content := "old";
                                                timestamp := 0 |} ]) (fun _ => 3%Z);
              ChatPage.Change "hi"; ChatPage.FormSubmit 5 5 env])))
    0
  = Some {| id := "1"; role := assistant; content := ChatPage.welcome; timestamp := 0 |}.
Proof.
  intros env.
  apply (proj2 (chat_messages_append_only Examples.trim (TD := Examples.whole_chunk_decoder)
                  "p1" None (ChatPage.start 0) _)).
  reflexivity.
Defined.

(** ** The middleware and the dashboard layout *)

(** C10.  A request for a path that starts with [/dashboard] is one the
    middleware is run on.  Without a session the middleware answers it
    with a redirect to [/] of the same origin, and the layout, given no
    session (or a session without a user), redirects to [/] as well
    and renders nothing of the dashboard.  With a session the
    middleware returns nothing for any path: the request goes
    through. *)
Theorem dashboard_needs_a_session
    (req : Middleware.NextRequest) (Children : Type) (children : Children) :
  String.prefix "/dashboard" (Middleware.pathname req) = true ->
  Middleware.matcher (Middleware.pathname req) = true
  /\ (Middleware.auth req = None ->
        Middleware.middleware req
        = Some (Middleware.redirect_response (Middleware.origin req ++ "/"))
        /\ Middleware.DashboardLayout (Middleware.auth req) children
           = Middleware.redirect "/"
        /\ Middleware.DashboardLayout
             (Some {| Middleware.session_user := None |}) children
           = Middleware.redirect "/")
  /\ (forall (other : Middleware.NextRequest) (session : Middleware.Session),
        Middleware.auth other = Some session -> Middleware.middleware other = None).
Proof.
  intros Hpre. split; [| split].
  - destruct (Middleware.pathname req) as [| c0 p]; [discriminate |].
    cbn [String.prefix] in Hpre.
    destruct (ascii_dec "/" c0) as [<- |]; [| discriminate].
    destruct p as [| c1 p]; [discriminate |].
    cbn [String.prefix] in Hpre.
    destruct (ascii_dec "d" c1) as [<- |]; [| discriminate].
    reflexivity.
  - intros Hno. unfold Middleware.middleware. rewrite Hno, Hpre. simpl.
    repeat split.
  - intros other session Hs. unfold Middleware.middleware. rewrite Hs.
    now rewrite andb_false_r.
Qed.

Lemma dashboard_needs_a_session_witness :
  let req := {| Middleware.auth := None;
                Middleware.origin := "https://gitmate.example";
                Middleware.pathname := "/dashboard/project/42/chat" |} in
  Middleware.matcher (Middleware.pathname req) = true
  /\ Middleware.middleware req
     = Some (Middleware.redirect_response "https://gitmate.example/")
  /\ Middleware.DashboardLayout (Middleware.auth req) tt = Middleware.redirect "/".
Proof.
  intros req.
  destruct (dashboard_needs_a_session req unit tt eq_refl) as (Hm & Hno & _).
  destruct (Hno eq_refl) as (H1 & H2 & _).
  exact (conj Hm (conj H1 H2)).
Defined.

(** ** Ranking of search hits *)

Module RankFacts.
Import VectorIndex.

Lemma leb_iff (a b : string) :
  String.leb a b = true <-> a = b \/ OrderedTypeEx.String_as_OT.lt a b.
Proof.
  unfold String.leb.
  destruct (String.compare a b) eqn:Hc.
  - apply OrderedTypeEx.String_as_OT.cmp_eq in Hc. tauto.
  - apply OrderedTypeEx.String_as_OT.cmp_lt in Hc. tauto.
  - split; [discriminate |]. intros [-> | Hlt].
    + assert (String.compare b b = Eq) by now apply OrderedTypeEx.String_as_OT.cmp_eq.
      congruence.
    + apply OrderedTypeEx.String_as_OT.cmp_lt in Hlt.
      unfold OrderedTypeEx.String_as_OT.cmp in Hlt. congruence.
Qed.

Lemma leb_trans (a b c : string) :
  String.leb a b = true -> String.leb b c = true -> String.leb a c = true.
Proof.
  rewrite !leb_iff. intros [-> | Hab] [-> | Hbc]; auto.
  right. eapply OrderedTypeEx.String_as_OT.lt_trans; eassumption.
Qed.

Lemma before_iff (a b : Hit) :
  before a b = true <->
  (snd b < snd a)%Q \/ ((snd b == snd a)%Q /\ String.leb (fst a) (fst b) = true).
Proof.
  unfold before.
  destruct (Qcompare_spec (snd b) (snd a)) as [He | Hl | Hg].
  - split; [auto |]. intros [Hl | [_ H]]; [| exact H].
    rewrite He in Hl. now apply Qlt_irrefl in Hl.
  - tauto.
  - split; [discriminate |]. intros [Hl | [He _]].
    + exfalso. apply (Qlt_irrefl (snd a)). eapply Qlt_trans; eassumption.
    + rewrite He in Hg. now apply Qlt_irrefl in Hg.
Qed.

Lemma before_total (a b : Hit) : before a b = true \/ before b a = true.
Proof.
  rewrite !before_iff.
  destruct (Qcompare_spec (snd b) (snd a)) as [He | Hl | Hg]; auto.
  destruct (String.leb_total (fst a) (fst b)) as [H | H].
  - left. right. split; assumption.
  - right. right. split; [symmetry; assumption | assumption].
Qed.

Lemma before_trans (a b c : Hit) :
  before a b = true -> before b c = true -> before a c = true.
Proof.
  rewrite !before_iff.
  intros [Hab | [Eab Lab]] [Hbc | [Ebc Lbc]].
  - left. eapply Qlt_trans; eassumption.
  - left. now rewrite Ebc.
  - left. now rewrite <- Eab.
  - right. split; [now rewrite Ebc | eapply leb_trans; eassumption].
Qed.

Lemma insert_perm (x : Hit) (l : list Hit) : Permutation (x :: l) (insert x l).
Proof.
  induction l as [| y l IH]; simpl; [reflexivity |].
  destruct (before x y); [reflexivity |].
  rewrite perm_swap. now constructor.
Qed.

Lemma rank_perm (l : list Hit) : Permutation l (rank l).
Proof.
  induction l as [| x l IH]; simpl; [constructor |].
  rewrite <- insert_perm. now constructor.
Qed.

Lemma insert_sorted (x : Hit) (l : list Hit) :
  StronglySorted Before l -> StronglySorted Before (insert x l).
Proof.
  induction l as [| y l IH]; intros Hs; simpl.
  - constructor; constructor.
  - inversion Hs as [| ? ? Hl Hy]; subst.
    destruct (before x y) eqn:Hxy.
    + constructor; [exact Hs |]. constructor; [exact Hxy |].
      eapply Forall_impl; [| exact Hy].
      intros z Hz. eapply before_trans; eassumption.
    + constructor; [now apply IH |].
      assert (Hyx : Before y x)
        by (destruct (before_total x y) as [H | H]; [congruence | exact H]).
      eapply Permutation_Forall; [apply insert_perm |].
      constructor; assumption.
Qed.

Lemma rank_sorted (l : list Hit) : StronglySorted Before (rank l).
Proof.
  induction l as [| x l IH]; simpl; [constructor | now apply insert_sorted].
Qed.

Lemma firstn_sorted (k : nat) (l : list Hit) :
  StronglySorted Before l -> StronglySorted Before (firstn k l).
Proof.
  revert k; induction l as [| x l IH]; intros k Hs.
  - destruct k; constructor.
  - destruct k; simpl; [constructor |].
    inversion Hs as [| ? ? Hl Hx]; subst.
    constructor; [now apply IH |].
    rewrite Forall_forall in *. intros y Hy. apply Hx.
    revert Hy. clear. revert k. induction l as [| z l IHl]; intros [| k]; simpl; try tauto.
    intros [-> | H]; [now left | right; eauto].
Qed.

Lemma sorted_nth (l : list Hit) :
  StronglySorted Before l ->
  forall i j a b, (i < j)%nat -> nth_error l i = Some a -> nth_error l j = Some b ->
                  Before a b.
Proof.
  induction 1 as [| x l Hs IH Hx]; intros i j a b Hij Ha Hb.
  - destruct i; discriminate.
  - destruct j as [| j]; [lia |]. simpl in Hb.
    destruct i as [| i]; simpl in Ha.
    + injection Ha as <-. rewrite Forall_forall in Hx. apply Hx.
      eapply nth_error_In; eassumption.
    + eapply IH; [| eassumption | eassumption]. lia.
Qed.

Lemma before_antisym (a b : Hit) :
  Before a b -> Before b a -> fst a = fst b.
Proof.
  unfold Before. rewrite !before_iff.
  intros [Hab | [Eab Lab]] [Hba | [Eba Lba]].
  - exfalso. apply (Qlt_irrefl (snd a)). eapply Qlt_trans; eassumption.
  - exfalso. rewrite Eba in Hab. now apply Qlt_irrefl in Hab.
  - exfalso. rewrite Eab in Hba. now apply Qlt_irrefl in Hba.
  - now apply String.leb_antisym.
Qed.

Lemma same_key_same_hit (l : list Hit) (a b : Hit) :
  NoDup (map fst l) -> In a l -> In b l -> fst a = fst b -> a = b.
Proof.
  induction l as [| x l IH]; simpl; intros Hnd Ha Hb Hk; [contradiction |].
  inversion Hnd as [| ? ? Hx Hl]; subst.
  destruct Ha as [-> | Ha], Hb as [-> | Hb]; auto.
  - exfalso. apply Hx. rewrite Hk. now apply in_map.
  - exfalso. apply Hx. rewrite <- Hk. now apply in_map.
Qed.

(** A list of hits with distinct ids has one ranked arrangement. *)
Lemma sorted_perm_unique (l1 l2 : list Hit) :
  StronglySorted Before l1 -> StronglySorted Before l2 ->
  Permutation l1 l2 -> NoDup (map fst l1) -> l1 = l2.
Proof.
  revert l2; induction l1 as [| a l1 IH]; intros l2 H1 H2 Hp Hnd.
  - apply Permutation_nil in Hp. now subst.
  - destruct l2 as [| b l2].
    + symmetry in Hp. apply Permutation_nil in Hp. discriminate.
    + assert (Hab : a = b).
      { assert (Hb : In b (a :: l1))
          by (eapply Permutation_in; [symmetry; exact Hp | now left]).
        assert (Ha : In a (b :: l2))
          by (eapply Permutation_in; [exact Hp | now left]).
        destruct Hb as [Hb | Hb]; [assumption |].
        destruct Ha as [Ha | Ha]; [now symmetry |].
        inversion H1 as [| ? ? _ Fa]; subst.
        inversion H2 as [| ? ? _ Fb]; subst.
        rewrite Forall_forall in Fa, Fb.
        apply (same_key_same_hit (a :: l1)); [assumption | now left | now right |].
        apply before_antisym; auto. }
      subst b. f_equal.
      inversion H1; inversion H2; subst.
      apply IH; try assumption.
      * eapply Permutation_cons_inv; eassumption.
      * simpl in Hnd. now inversion Hnd.
Qed.

Lemma rank_of_permutation (l1 l2 : list Hit) :
  Permutation l1 l2 -> NoDup (map fst l1) -> rank l1 = rank l2.
Proof.
  intros Hp Hnd. apply sorted_perm_unique; try apply rank_sorted.
  - rewrite <- (rank_perm l1), <- (rank_perm l2). exact Hp.
  - eapply Permutation_NoDup; [| exact Hnd].
    apply Permutation_map, rank_perm.
Qed.

Lemma firstn_incl {A} (k : nat) (l : list A) (x : A) : In x (firstn k l) -> In x l.
Proof.
  revert k; induction l as [| y l IH]; intros [| k]; simpl; try tauto.
  intros [-> | H]; [now left | right; eauto].
Qed.

End RankFacts.

(** C8.  For every query, every [k >= 1] and every index state,
    [search] returns at most [k] hits; each hit is the id of a record
    of the index with its score against the query; the hits are in
    non-increasing order of score, and of two hits with the same score
    the one with the smaller id comes first.  The output is a function
    of the index state and the query: equal inputs give equal output,
    and, the ids of an index being distinct, so do two indexes that
    hold the same records in a different order. *)
Theorem search_returns_ranked_top_k
    (embed : string -> list Q) (index : list VectorIndex.VectorRecord)
    (queryText : string) (k : nat) :
  (1 <= k)%nat ->
  let out := VectorIndex.search embed index queryText k in
  (length out <= k)%nat
  /\ (forall hit, In hit out ->
        exists r, In r index
                  /\ fst hit = VectorIndex.entityId r
                  /\ snd hit = VectorIndex.inner_product (embed queryText)
                                 (VectorIndex.embeddingVector r))
  /\ (forall i j a b, (i < j)%nat ->
        nth_error out i = Some a -> nth_error out j = Some b ->
        (snd b <= snd a)%Q
        /\ ((snd a == snd b)%Q -> String.leb (fst a) (fst b) = true))
  /\ (forall index' queryText',
        index' = index -> queryText' = queryText ->
        VectorIndex.search embed index' queryText' k = out)
  /\ (forall index',
        Permutation index index' -> NoDup (map VectorIndex.entityId index) ->
        VectorIndex.search embed index' queryText k = out).
Proof.
  intros _ out. unfold out, VectorIndex.search. cbv zeta.
  set (score := fun r => (VectorIndex.entityId r,
                          VectorIndex.inner_product (embed queryText)
                            (VectorIndex.embeddingVector r))).
  assert (Hsorted : forall i j a b, (i < j)%nat ->
            nth_error (firstn k (VectorIndex.rank (map score index))) i = Some a ->
            nth_error (firstn k (VectorIndex.rank (map score index))) j = Some b ->
            (snd b < snd a)%Q
            \/ ((snd b == snd a)%Q /\ String.leb (fst a) (fst b) = true)).
  { intros i j a b Hij Ha Hb. apply RankFacts.before_iff.
    eapply RankFacts.sorted_nth; [| eassumption | eassumption | eassumption].
    apply RankFacts.firstn_sorted, RankFacts.rank_sorted. }
  split; [apply firstn_le_length |].
  split.
  { intros hit H.
    apply RankFacts.firstn_incl in H.
    apply (Permutation_in _ (Permutation_sym (RankFacts.rank_perm _))) in H.
    apply in_map_iff in H. destruct H as (r & <- & Hr).
    exists r. repeat split. exact Hr. }
  split.
  { intros i j a b Hij Ha Hb.
    destruct (Hsorted i j a b Hij Ha Hb) as [Hlt | [Heq Hle]]; split.
    - now apply Qlt_le_weak.
    - intros Htie. rewrite Htie in Hlt. now apply Qlt_irrefl in Hlt.
    - rewrite Heq. apply Qle_refl.
    - intros _. exact Hle. }
  split.
  { intros index' queryText' -> ->. reflexivity. }
  intros index' Hp Hnd. f_equal. symmetry.
  apply RankFacts.rank_of_permutation.
  - now apply Permutation_map.
  - rewrite map_map. simpl. exact Hnd.
Qed.

Lemma search_returns_ranked_top_k_witness :
  VectorIndex.search Examples.first_axis Examples.small_index "where is add" 3
  = [("c", 3%Q); ("a", 2%Q); ("b", 2%Q)]
  /\ (length (VectorIndex.search Examples.first_axis Examples.small_index "where is add" 3)
      <= 3)%nat.
Proof.
  split; [reflexivity |].
  exact (proj1 (search_returns_ranked_top_k Examples.first_axis Examples.small_index
                  "where is add" 3 ltac:(lia))).
Defined.

(** ** More on the API client *)

Module ApiMore.
Import Api Shape.

Section Stream.
Context {TD : TextDecoder}.

(** The steps of a call, whatever comes of it. *)
Lemma sendChatMessage_events (env : Env) (projectId message : string)
    (userId : option string) (b : bool) :
  fst (sendChatMessage env projectId message userId b)
  = EvFetch (chat_request env projectId message userId)
    :: match fetch env (chat_request env projectId message userId) with
       | Throw _ => []
       | Normal response =>
           if ok response then
             match resp_body response with
             | Some reader => fst (read_loop b new_decoder (chunks reader) (ending reader) "")
             | None => []
             end
           else []
       end.
Proof.
  unfold sendChatMessage. simpl.
  destruct (fetch env _) as [response | e]; simpl; [| reflexivity].
  destruct (ok response); simpl; [| reflexivity].
  destruct (resp_body response) as [reader |]; simpl.
  - destruct (read_loop b new_decoder (chunks reader) (ending reader) "") as [tr r].
    simpl. destruct r as [full | e]; simpl; [| reflexivity].
    destruct (randomUUID env); simpl; now rewrite app_nil_r.
  - destruct (randomUUID env); reflexivity.
Qed.

Lemma read_loop_reads (b : bool) (d : decoder) (values : list (list byte))
    (e : stream_end) (acc : string) :
  reads (fst (read_loop b d values e acc)) = S (length values).
Proof.
  revert d acc; induction values as [| value rest IH]; intros d acc.
  - simpl. destruct e; reflexivity.
  - simpl. destruct (decode d value) as [chunk d']. simpl.
    specialize (IH d' (acc ++ chunk)).
    destruct b; simpl;
      destruct (read_loop _ d' rest e (acc ++ chunk)) as [tr r]; simpl in *;
      now rewrite IH.
Qed.

Lemma read_loop_silent (d : decoder) (values : list (list byte))
    (e : stream_end) (acc : string) :
  delivered (fst (read_loop false d values e acc)) = [].
Proof.
  revert d acc; induction values as [| value rest IH]; intros d acc.
  - simpl. destruct e; reflexivity.
  - simpl. destruct (decode d value) as [chunk d']. simpl.
    specialize (IH d' (acc ++ chunk)).
    destruct (read_loop false d' rest e (acc ++ chunk)) as [tr r]; simpl in *.
    exact IH.
Qed.

End Stream.
End ApiMore.

Module CallbackFacts.
Import Api Shape.

Section Stream.
Context {TD : TextDecoder} (cb : Callback.OnChunk).

(** With a callback that always returns, the loop is the one whose
    trace records the calls. *)
Lemma read_loop_returning (d : decoder) (values : list (list byte)) (e : stream_end) :
  Callback.returns_always cb ->
  forall st acc,
    Callback.read_loop cb st d values e acc = read_loop true d values e acc.
Proof.
  intros Hret. revert d. induction values as [| value rest IH]; intros d st acc.
  - reflexivity.
  - simpl. destruct (decode d value) as [chunk d'].
    destruct (Hret st chunk) as [st' Hcall]. rewrite Hcall. simpl.
    now rewrite IH.
Qed.

Lemma sendChatMessage_returning (env : Env) (projectId message : string)
    (userId : option string) :
  Callback.returns_always cb ->
  Callback.sendChatMessage env cb projectId message userId
  = sendChatMessage env projectId message userId true.
Proof.
  intros Hret. unfold Callback.sendChatMessage, sendChatMessage. simpl.
  destruct (fetch env _) as [response | e]; [| reflexivity]. simpl.
  destruct (ok response); [| reflexivity]. simpl.
  destruct (resp_body response) as [reader |]; [| reflexivity].
  now rewrite read_loop_returning.
Qed.

(** When the callback throws at [chunk], having returned on the texts
    before it, the loop ends there with what was thrown. *)
Lemma read_loop_thrown (before after : list string) (chunk : string) (err : js_error)
    (e : stream_end) :
  forall (values : list (list byte)) (d : decoder) (st0 st : Callback.cb_state cb)
         (acc : string),
    decoded d values = (before ++ chunk :: after)%list ->
    Callback.feed cb st0 before = Normal st ->
    Callback.cb_call cb st chunk = Throw err ->
    Callback.read_loop cb st0 d values e acc
    = (flat_map step_events (before ++ [chunk]), Throw err).
Proof.
  induction before as [| b before IH]; intros values d st0 st acc Hdec Hfeed Hthrow.
  - destruct values as [| value rest]; [discriminate |].
    simpl in Hdec. simpl. destruct (decode d value) as [c d'].
    injection Hdec as -> _. injection Hfeed as ->.
    rewrite Hthrow. reflexivity.
  - destruct values as [| value rest]; [discriminate |].
    simpl in Hdec. simpl. destruct (decode d value) as [c d'].
    injection Hdec as -> Hdec. simpl in Hfeed.
    destruct (Callback.cb_call cb st0 b) as [st1 | e1]; [| discriminate].
    simpl. now rewrite (IH rest d' st1 st (acc ++ b) Hdec Hfeed Hthrow).
Qed.

Lemma delivered_without_last_read (cs : list string) :
  delivered (flat_map step_events cs) = cs.
Proof. induction cs as [| c cs IH]; simpl; [reflexivity | now rewrite IH]. Qed.

Lemma reads_of_steps (cs : list string) :
  reads (flat_map step_events cs) = length cs.
Proof. induction cs as [| c cs IH]; simpl; [reflexivity | now rewrite IH]. Qed.

End Stream.
End CallbackFacts.

(** X1.  What passing [onChunk] to [sendChatMessage] changes.  With a
    callback that always returns, nothing but the calls of the
    callback: the call returns the same response and reads the body
    the same number of times as without it (and without it nothing is
    delivered).  A callback that throws is not a mere observer: its
    call runs inside the [try], so when it throws at some chunk, having
    returned on the chunks before, reading stops there, and the call
    returns a failure that carries the message of what the callback
    threw, whatever the rest of the stream holds. *)
Theorem onChunk_observes_unless_it_throws
    {TD : Api.TextDecoder} (env : Api.Env) (projectId message : string)
    (userId : option string) (cb : Callback.OnChunk) :
  let with_callback := Callback.sendChatMessage env cb projectId message userId in
  let without := Api.sendChatMessage env projectId message userId false in
  (Callback.returns_always cb ->
     with_callback = Api.sendChatMessage env projectId message userId true
     /\ snd with_callback = snd without
     /\ reads (fst with_callback) = reads (fst without))
  /\ delivered (fst without) = []
  /\ (forall response reader before chunk after st e,
        Api.fetch env (Api.chat_request env projectId message userId) = Normal response ->
        Api.ok response = true ->
        Api.resp_body response = Some reader ->
        decoded Api.new_decoder (Api.chunks reader) = (before ++ chunk :: after)%list ->
        Callback.feed cb (Callback.cb_start cb) before = Normal st ->
        Callback.cb_call cb st chunk = Throw e ->
        snd with_callback = Normal (failed (Api.getErrorMessage e))
        /\ delivered (fst with_callback) = (before ++ [chunk])%list
        /\ reads (fst with_callback) = S (length before)).
Proof.
  intros with_callback without.
  assert (Hreads : reads (fst (Api.sendChatMessage env projectId message userId true))
                   = reads (fst without)).
  { subst without. rewrite !ApiMore.sendChatMessage_events. cbn [reads].
    destruct (Api.fetch env _) as [response | e]; [| reflexivity].
    destruct (Api.ok response); [| reflexivity].
    destruct (Api.resp_body response) as [reader |]; [| reflexivity].
    now rewrite !ApiMore.read_loop_reads. }
  split; [| split].
  - intros Hret. subst with_callback.
    rewrite (CallbackFacts.sendChatMessage_returning cb env projectId message userId Hret).
    split; [reflexivity |]. split; [| exact Hreads].
    subst without. now rewrite !ApiFacts.sendChatMessage_result.
  - subst without. rewrite ApiMore.sendChatMessage_events. cbn [delivered].
    destruct (Api.fetch env _) as [response | e]; [| reflexivity].
    destruct (Api.ok response); [| reflexivity].
    destruct (Api.resp_body response) as [reader |]; [| reflexivity].
    apply ApiMore.read_loop_silent.
  - intros response reader before chunk after st e Hf Hok Hb Hdec Hfeed Hthrow.
    assert (Hrun : with_callback
                   = ((Api.EvFetch (Api.chat_request env projectId message userId)
                       :: flat_map step_events (before ++ [chunk]))%list,
                      Normal (failed (Api.getErrorMessage e)))).
    { subst with_callback. unfold Callback.sendChatMessage. simpl.
      rewrite Hf. simpl. rewrite Hok. simpl. rewrite Hb.
      rewrite (CallbackFacts.read_loop_thrown cb before after chunk e (Api.ending reader)
                 (Api.chunks reader) Api.new_decoder (Callback.cb_start cb) st ""
                 Hdec Hfeed Hthrow).
      reflexivity. }
    rewrite Hrun. cbn [fst snd delivered reads].
    rewrite CallbackFacts.delivered_without_last_read, CallbackFacts.reads_of_steps.
    rewrite length_app. simpl. repeat split. lia.
Qed.

Lemma onChunk_observes_unless_it_throws_witness :
  let env := Examples.streaming_env
               [Examples.bytes "Hel"; Examples.bytes "lo"; Examples.bytes "!"] Api.StreamDone in
  (snd (Callback.sendChatMessage (TD := Examples.whole_chunk_decoder) env
          Callbacks.page_callback "p1" "hi" None)
   = Normal (ok_with {| id := "uuid-0"; role := assistant; content := "Hello!";
                        timestamp := 0 |}))
  /\ (snd (Callback.sendChatMessage (TD := Examples.whole_chunk_decoder) env
             Callbacks.throws_in_second_call "p1" "hi" None)
      = Normal (failed (JStr "render failed"))
      /\ delivered (fst (Callback.sendChatMessage (TD := Examples.whole_chunk_decoder) env
                           Callbacks.throws_in_second_call "p1" "hi" None))
         = ["Hel"; "lo"]
      /\ reads (fst (Callback.sendChatMessage (TD := Examples.whole_chunk_decoder) env
                       Callbacks.throws_in_second_call "p1" "hi" None))
         = 2%nat).
Proof.
  intros env. split.
  - destruct (onChunk_observes_unless_it_throws (TD := Examples.whole_chunk_decoder)
                env "p1" "hi" None Callbacks.page_callback) as (H & _).
    destruct (H ltac:(intros st chunk; eexists; reflexivity)) as (_ & Hsame & _).
    exact Hsame.
  - destruct (onChunk_observes_unless_it_throws (TD := Examples.whole_chunk_decoder)
                env "p1" "hi" None Callbacks.throws_in_second_call) as (_ & _ & H).
    exact (H {| Api.ok := true;
                Api.resp_body := Some {| Api.chunks := [Examples.bytes "Hel"; Examples.bytes "lo";
                                                        Examples.bytes "!"];
                                         Api.ending := Api.StreamDone |} |}
             {| Api.chunks := [Examples.bytes "Hel"; Examples.bytes "lo"; Examples.bytes "!"];
                Api.ending := Api.StreamDone |}
             ["Hel"] "lo" ["!"] 1%nat (ErrorObject "render failed")
             eq_refl eq_refl eq_refl eq_refl eq_refl eq_refl).
Defined.

(** X2.  When the chat request is answered with a status that is not
    OK, [sendChatMessage] never touches the body: its only step is the
    fetch, and whatever the body holds the caller gets the one fixed
    message [Failed to send message]. *)
Theorem non_ok_response_is_never_read
    {TD : Api.TextDecoder} (env : Api.Env) (projectId message : string)
    (userId : option string) (onChunk : bool) (response : Api.FetchResponse) :
  Api.fetch env (Api.chat_request env projectId message userId) = Normal response ->
  Api.ok response = false ->
  Api.sendChatMessage env projectId message userId onChunk
  = ([Api.EvFetch (Api.chat_request env projectId message userId)],
     Normal (failed (JStr "Failed to send message"))).
Proof.
  intros Hf Hok. apply injective_projections.
  - rewrite ApiMore.sendChatMessage_events, Hf, Hok. reflexivity.
  - rewrite ApiFacts.sendChatMessage_result, Hf, Hok. reflexivity.
Qed.

Lemma non_ok_response_is_never_read_witness :
  Api.sendChatMessage (TD := Examples.whole_chunk_decoder)
    MoreExamples.refusing_env "p1" "hi" None true
  = ([Api.EvFetch (Api.chat_request MoreExamples.refusing_env "p1" "hi" None)],
     Normal (failed (JStr "Failed to send message"))).
Proof.
  exact (non_ok_response_is_never_read (TD := Examples.whole_chunk_decoder)
           MoreExamples.refusing_env "p1" "hi" None true _ eq_refl eq_refl).
Defined.

(** X3.  When reading the body of an OK response ends in an error,
    every chunk read before it has been handed to [onChunk], yet the
    call returns a failure without data: the text streamed so far is
    not part of the result.  [handleSubmit] then appends the error
    message and clears the streaming bubble, so the partial answer is
    not kept in the chat. *)
Theorem stream_error_discards_partial_answer
    {TD : Api.TextDecoder} (env : Api.Env) (projectId message : string)
    (userId : option string) (response : Api.FetchResponse) (reader : Api.ReadableStream)
    (e : js_error) (dateNow newDate : Z) (s : ChatPage.State) :
  Api.fetch env (Api.chat_request env projectId message userId) = Normal response ->
  Api.ok response = true ->
  Api.resp_body response = Some reader ->
  Api.ending reader = Api.StreamError e ->
  let sent := Api.sendChatMessage env projectId message userId true in
  let s' := ChatPage.handleSubmit_end (failed (Api.getErrorMessage e)) dateNow newDate s in
  delivered (fst sent) = decoded Api.new_decoder (Api.chunks reader)
  /\ snd sent = Normal (failed (Api.getErrorMessage e))
  /\ ChatPage.streamingContent s' = ""
  /\ ChatPage.isLoading s' = false
  /\ ChatPage.messages s'
     = (ChatPage.messages s ++
        [ {| id := Z_toString (dateNow + 1); role := assistant;
             content := "Sorry, I encountered an error: "
                        ++ js_toString (js_or (Api.getErrorMessage e) (JStr "Unknown error"))
                        ++ ". Please try again.";
             timestamp := newDate |} ])%list.
Proof.
  intros Hf Hok Hb He sent s'. subst sent s'.
  split; [| split; [| repeat split]].
  - rewrite (ApiFacts.sendChatMessage_trace env projectId message userId response reader
               Hf Hok Hb).
    cbn [delivered]. apply ApiFacts.delivered_steps.
  - rewrite ApiFacts.sendChatMessage_result, Hf, Hok. simpl. rewrite Hb, He. reflexivity.
Qed.

Lemma stream_error_discards_partial_answer_witness :
  let sent := Api.sendChatMessage (TD := Examples.whole_chunk_decoder)
                MoreExamples.broken_env "p1" "hi" None true in
  delivered (fst sent) = ["The function "; "add "]
  /\ snd sent = Normal (failed (JStr "network error")).
Proof.
  intros sent.
  destruct (stream_error_discards_partial_answer (TD := Examples.whole_chunk_decoder)
              MoreExamples.broken_env "p1" "hi" None _ _ (ErrorObject "network error")
              0 0 (ChatPage.initial 0) eq_refl eq_refl eq_refl eq_refl)
    as (H1 & H2 & _).
  exact (conj H1 H2).
Defined.

(** X4.  When the server rejects the request, what each axios-based
    function of the client returns is a failure that carries the
    message read from that very rejection; and of a rejection whose
    body has a [detail] the caller gets the [detail], else its
    [message], else the message of the error. *)
Theorem rejected_request_reaches_caller (env : Api.Env) (e : js_error) :
  (forall req, Api.axios_adapter env req = Throw e) ->
  let failure := Normal (failed (Api.getErrorMessage e)) in
  (forall repoUrl name userId description,
      Api.createProject env repoUrl name userId description = failure)
  /\ (forall userId, Api.getProjects env userId = failure)
  /\ (forall id userId, Api.getProject env id userId = failure)
  /\ (forall id userId, Api.deleteProject env id userId = failure)
  /\ (forall projectId userId options,
        Api.analyzeProject env projectId userId options = failure)
  /\ (forall projectId userId, Api.getProjectStats env projectId userId = failure)
  /\ (forall projectId userId, Api.getProjectFileTree env projectId userId = failure)
  /\ (forall projectId userId options,
        Api.getProjectEntities env projectId userId options = failure)
  /\ (forall projectId functionName userId,
        Api.getFunctionReferences env projectId functionName userId = failure)
  /\ (forall projectId functionName userId,
        Api.getFunctionCalls env projectId functionName userId = failure)
  /\ (forall projectId userId focus, Api.getCallGraph env projectId userId focus = failure)
  /\ (forall projectId userId, Api.getEntityDiagram env projectId userId = failure)
  /\ (forall projectId userId, Api.getStructureDiagram env projectId userId = failure)
  /\ (forall projectId filePath userId,
        Api.getFileContent env projectId filePath userId = failure)
  /\ (forall projectId userId, Api.getChatHistory env projectId userId = failure)
  /\ (forall projectId userId, Api.clearChatHistory env projectId userId = failure)
  /\ Api.checkHealth env = failure
  /\ (forall body message,
        e = AxiosError (Some body) message ->
        Api.getErrorMessage e
        = if truthy (opt_get body "detail") then opt_get body "detail"
          else if truthy (opt_get body "message") then opt_get body "message"
          else JStr message).
Proof.
  intros Hrej failure. subst failure.
  repeat match goal with |- _ /\ _ => split end; intros;
    try (unfold Api.createProject, Api.getProjects, Api.getProject, Api.deleteProject,
           Api.analyzeProject, Api.getProjectStats, Api.getProjectFileTree,
           Api.getProjectEntities, Api.getFunctionReferences, Api.getFunctionCalls,
           Api.getCallGraph, Api.getEntityDiagram, Api.getStructureDiagram,
           Api.getFileContent, Api.getChatHistory, Api.clearChatHistory, Api.checkHealth,
           Api.api_get, Api.api_post, Api.api_delete, Api.api_request;
         rewrite Hrej; reflexivity).
  subst e. simpl. unfold js_or.
  destruct (truthy (opt_get body "detail")) eqn:Ed; [now rewrite Ed |].
  destruct (truthy (opt_get body "message")) eqn:Em; reflexivity.
Qed.

Lemma rejected_request_reaches_caller_witness :
  Api.getProject
    (Examples.axios_env
       (fun _ => Throw (AxiosError (Some (JObj [("detail", JStr "Project not found")]))
                                   "Request failed with status code 404")))
    "p1" None
  = Normal (failed (JStr "Project not found")).
Proof.
  destruct (rejected_request_reaches_caller
              (Examples.axios_env
                 (fun _ => Throw (AxiosError (Some (JObj [("detail", JStr "Project not found")]))
                                             "Request failed with status code 404")))
              (AxiosError (Some (JObj [("detail", JStr "Project not found")]))
                          "Request failed with status code 404")
              (fun _ => eq_refl)) as (_ & _ & H & _).
  exact (H "p1" None).
Defined.

(** X5.  [sendChatMessage] goes around the axios instance and sets by
    hand the headers that these sources configure for the axios calls:
    the headers it hands to [fetch] are the [Content-Type] header
    written in [axios.create] followed by the headers of
    [withUserId(userId)].  In both, an [X-User-Id] header is present
    exactly when the user id is a non-empty string, and its value is
    that id. *)
Theorem chat_request_sets_user_header
    (env : Api.Env) (projectId message : string) (userId : option string) :
  let sent := Api.chat_request env projectId message userId in
  Api.headers sent = (("Content-Type", "application/json") :: Api.withUserId userId)%list
  /\ (forall u, In ("X-User-Id", u) (Api.headers sent) <-> userId = Some u /\ u <> "")
  /\ (forall u, In ("X-User-Id", u) (Api.withUserId userId) <-> userId = Some u /\ u <> "").
Proof.
  intros sent. subst sent.
  assert (Hconfig : forall u, In ("X-User-Id", u) (Api.withUserId userId)
                              <-> userId = Some u /\ u <> "").
  { intros u. unfold Api.withUserId. destruct userId as [v |].
    - destruct (String.eqb_spec v "") as [-> | Hne].
      + split; [intros [] |]. intros [H Hu]. injection H as <-. now contradiction Hu.
      + split.
        * intros [H | []]. injection H as <-. auto.
        * intros [H _]. injection H as <-. now left.
    - split; [intros [] | intros [H _]; discriminate]. }
  assert (Hheaders : Api.headers (Api.chat_request env projectId message userId)
                     = (("Content-Type", "application/json") :: Api.withUserId userId)%list).
  { unfold Api.chat_request, Api.withUserId. cbn [Api.headers].
    destruct userId as [v |]; [destruct (v =? "") |]; reflexivity. }
  split; [exact Hheaders |]. split; [| exact Hconfig].
  intros u. rewrite Hheaders, <- Hconfig. split.
  - intros [H | H]; [discriminate | exact H].
  - intros H. now right.
Qed.

(** X6.  In the query of [getProjectEntities] an empty filter and a
    zero count are the same as none: an empty string for
    [entityType], [filePath] or [search] and the number 0 for [limit]
    or [offset] add no parameter, so a call that asks for
    [limit: 0] or [offset: 0] sends the request of a call without
    them; and options that set nothing send the request of a call
    without options. *)
Theorem empty_filters_are_not_sent (o : Api.EntityOptions) :
  let drop_empty (v : option string) :=
    match v with Some s => if s =? "" then None else Some s | None => None end in
  let drop_zero (v : option Z) :=
    match v with Some n => if (n =? 0)%Z then None else Some n | None => None end in
  Api.entities_params (Some o)
  = Api.entities_params
      (Some {| Api.entityType := drop_empty (Api.entityType o);
               Api.filePath := drop_empty (Api.filePath o);
               Api.search := drop_empty (Api.search o);
               Api.limit := drop_zero (Api.limit o);
               Api.offset := drop_zero (Api.offset o) |})
  /\ (drop_empty (Api.entityType o) = None -> drop_empty (Api.filePath o) = None ->
      drop_empty (Api.search o) = None -> drop_zero (Api.limit o) = None ->
      drop_zero (Api.offset o) = None ->
      forall env projectId userId,
        Api.getProjectEntities env projectId userId (Some o)
        = Api.getProjectEntities env projectId userId None).
Proof.
  intros drop_empty drop_zero.
  assert (Hs : forall params key v,
             Api.append_str params key (drop_empty v) = Api.append_str params key v).
  { intros params key [s |]; simpl; [| reflexivity].
    destruct (s =? "") eqn:E; simpl; [reflexivity | now rewrite E]. }
  assert (Hn : forall params key v,
             Api.append_num params key (drop_zero v) = Api.append_num params key v).
  { intros params key [n |]; simpl; [| reflexivity].
    destruct (n =? 0)%Z eqn:E; simpl; [reflexivity | now rewrite E]. }
  split.
  - unfold Api.entities_params. cbn [Api.entityType Api.filePath Api.search Api.limit Api.offset].
    now rewrite !Hs, !Hn.
  - intros H1 H2 H3 H4 H5 env projectId userId.
    unfold Api.getProjectEntities. do 4 f_equal.
    unfold Api.entities_params.
    rewrite <- (Hs _ _ (Api.entityType o)), <- (Hs _ _ (Api.filePath o)),
            <- (Hs _ _ (Api.search o)), <- (Hn _ _ (Api.limit o)), <- (Hn _ _ (Api.offset o)).
    now rewrite H1, H2, H3, H4, H5.
Qed.

Lemma empty_filters_are_not_sent_witness :
  Api.getProjectEntities Examples.echo_env "p1" (Some "u1")
    (Some {| Api.entityType := Some ""; Api.filePath := None; Api.search := Some "";
             Api.limit := Some 0%Z; Api.offset := Some 0%Z |})
  = Api.getProjectEntities Examples.echo_env "p1" (Some "u1") None.
Proof.
  exact (proj2 (empty_filters_are_not_sent
                  {| Api.entityType := Some ""; Api.filePath := None; Api.search := Some "";
                     Api.limit := Some 0%Z; Api.offset := Some 0%Z |})
               eq_refl eq_refl eq_refl eq_refl eq_refl
               Examples.echo_env "p1" (Some "u1")).
Defined.

Module UriFacts.
Import Uri Unescape.

Lemma percent_back (c : ascii) :
  ascii_of_N (unhex (hex_digit (N_of_ascii c / 16)) * 16
              + unhex (hex_digit (N_of_ascii c mod 16))) = c.
Proof. destruct c as [[] [] [] [] [] [] [] []]; reflexivity. Qed.

Lemma percent_chars (c x : ascii) :
  mem_ascii x (percent c) = true ->
  is_alnum x || Ascii.eqb x "%" = true.
Proof.
  unfold percent. cbn [mem_ascii]. rewrite orb_false_r.
  intros H. apply orb_true_iff in H. destruct H as [H | H].
  - rewrite H. apply orb_true_r.
  - apply orb_true_iff in H.
    destruct H as [H | H]; apply Ascii.eqb_eq in H; subst x;
      destruct c as [[] [] [] [] [] [] [] []]; reflexivity.
Qed.

Lemma safe_is_not_percent (c : ascii) :
  is_alnum c || mem_ascii c "-_.!~*'()" = true -> Ascii.eqb c "%" = false.
Proof.
  intros H. destruct (Ascii.eqb_spec c "%") as [-> |]; [discriminate | reflexivity].
Qed.

Lemma unescape_encode (s : string) : unescape (encodeURIComponent s) = s.
Proof.
  induction s as [| c s IH]; [reflexivity |].
  cbn [encodeURIComponent].
  destruct (is_alnum c || mem_ascii c "-_.!~*'()") eqn:Hsafe.
  - cbn [String.append unescape]. rewrite (safe_is_not_percent c Hsafe). now rewrite IH.
  - unfold percent. cbn [String.append unescape]. cbn [Ascii.eqb Bool.eqb].
    now rewrite percent_back, IH.
Qed.

Lemma mem_ascii_app (x : ascii) (a b : string) :
  mem_ascii x (a ++ b) = mem_ascii x a || mem_ascii x b.
Proof.
  induction a as [| c a IH]; [reflexivity |].
  cbn [String.append mem_ascii]. now rewrite IH, orb_assoc.
Qed.

Lemma encode_chars (s : string) (x : ascii) :
  mem_ascii x (encodeURIComponent s) = true ->
  is_alnum x || mem_ascii x "-_.!~*'()%" = true.
Proof.
  induction s as [| c s IH]; [discriminate |].
  cbn [encodeURIComponent]. rewrite mem_ascii_app. intros H.
  apply orb_true_iff in H. destruct H as [H | H]; [| now apply IH].
  destruct (is_alnum c || mem_ascii c "-_.!~*'()") eqn:Hsafe.
  - cbn [mem_ascii] in H. rewrite orb_false_r in H. apply Ascii.eqb_eq in H. subst x.
    apply orb_true_iff in Hsafe. destruct Hsafe as [Ha | Hm].
    + now rewrite Ha.
    + apply orb_true_iff. right.
      change "-_.!~*'()%" with ("-_.!~*'()" ++ "%"). rewrite mem_ascii_app, Hm. reflexivity.
  - apply percent_chars in H. apply orb_true_iff in H. destruct H as [Ha | Hp].
    + now rewrite Ha.
    + apply Ascii.eqb_eq in Hp. subst x. reflexivity.
Qed.

Lemma append_cancel (p a b : string) : p ++ a = p ++ b -> a = b.
Proof.
  induction p as [| c p IH]; simpl; intros H; [exact H |].
  injection H as H. now apply IH.
Qed.

End UriFacts.

(** X7.  The lookup URLs keep names apart: two function names give the
    same [/refs/] (or [/calls/]) URL of a project only if they are the
    same name, and the escaped name holds none of the characters that
    would end the path segment or start a query
    ([/], [?], [#], [&], [=], [+], space). *)
Theorem lookup_urls_keep_names_apart (projectId a b : string) :
  (Api.refs_url projectId a = Api.refs_url projectId b -> a = b)
  /\ (Api.calls_url projectId a = Api.calls_url projectId b -> a = b)
  /\ (forall c, Uri.mem_ascii c "/?#&=+ " = true ->
                Uri.mem_ascii c (Uri.encodeURIComponent a) = false).
Proof.
  assert (Hinj : forall x y, Uri.encodeURIComponent x = Uri.encodeURIComponent y -> x = y).
  { intros x y H. rewrite <- (UriFacts.unescape_encode x), <- (UriFacts.unescape_encode y).
    now rewrite H. }
  split; [| split].
  - unfold Api.refs_url. intros H.
    apply UriFacts.append_cancel, UriFacts.append_cancel, UriFacts.append_cancel in H.
    now apply Hinj.
  - unfold Api.calls_url. intros H.
    apply UriFacts.append_cancel, UriFacts.append_cancel, UriFacts.append_cancel in H.
    now apply Hinj.
  - intros c Hc.
    destruct (Uri.mem_ascii c (Uri.encodeURIComponent a)) eqn:Hm; [| reflexivity].
    apply UriFacts.encode_chars in Hm.
    cbn [Uri.mem_ascii] in Hc. rewrite orb_false_r in Hc.
    repeat (apply orb_true_iff in Hc; destruct Hc as [Hc | Hc];
            [apply Ascii.eqb_eq in Hc; subst c; discriminate |]).
    apply Ascii.eqb_eq in Hc; subst c; discriminate.
Qed.

Lemma lookup_urls_keep_names_apart_witness :
  Api.refs_url "p1" "operator/" <> Api.refs_url "p1" "operator%2F"
  /\ Api.refs_url "p1" "a/b?c" = "/api/projects/p1/refs/a%2Fb%3Fc".
Proof.
  split; [| reflexivity].
  intros H. apply (proj1 (lookup_urls_keep_names_apart "p1" "operator/" "operator%2F")) in H.
  discriminate.
Defined.

(** ** More on the chat page *)

Module ChatMore.
Import ChatPage Shape Invariant.

Section Transitions.

Variable trim : string -> string.
Context {TD : Api.TextDecoder}.
Variables (projectId : string) (userId : option string).

Lemma sendChatMessage_returns (env : Api.Env) (message : string) :
  exists res, snd (Api.sendChatMessage env projectId message userId true) = Normal res.
Proof.
  rewrite ApiFacts.sendChatMessage_result.
  destruct (Api.fetch env _) as [response | e]; [| eauto].
  destruct (negb (Api.ok response)); [eauto |]. cbv zeta.
  destruct (Api.resp_body response) as [reader |].
  - destruct (Api.ending reader); [destruct (Api.randomUUID env) |]; eauto.
  - destruct (Api.randomUUID env); eauto.
Qed.

Lemma handleSubmit_in_step (dateNow newDate : Z) (env : Api.Env) (sys : System) :
  in_step sys -> in_step (handleSubmit trim projectId userId dateNow newDate env sys).
Proof.
  intros Inv. unfold handleSubmit, handleSubmit_begin.
  destruct (trim (input (page sys)) =? ""); simpl; [exact Inv |].
  destruct (isLoading (page sys)) eqn:Hl; [exact Inv |].
  cbv zeta.
  destruct (Api.sendChatMessage env projectId (trim (input (page sys))) userId true)
    as [tr r] eqn:Hsend.
  unfold in_step in *. simpl.
  destruct (inflight sys) as [| t [| t' l]]; simpl.
  - split; [reflexivity |].
    destruct (sendChatMessage_returns env (trim (input (page sys)))) as (res & Hres).
    rewrite Hsend in Hres. simpl in Hres. subst r.
    exists res. split; [reflexivity |].
    intros d Hok Hd.
    destruct (ApiFacts.sendChatMessage_content env projectId _ userId tr res Hsend Hok)
      as (uuid & Hd').
    rewrite Hd in Hd'. injection Hd' as ->. reflexivity.
  - destruct Inv as [Inv _]. congruence.
  - contradiction.
Qed.

Lemma step_in_step (sys : System) (a : action) :
  in_step sys -> in_step (step trim projectId userId sys a).
Proof.
  intros Inv.
  assert (Hpage : forall f : State -> State,
             (forall s, isLoading (f s) = isLoading s
                        /\ streamingContent (f s) = streamingContent s) ->
             in_step (on_page f sys)).
  { intros f Hf. unfold in_step in *. cbn [on_page page inflight].
    destruct (Hf (page sys)) as [-> ->].
    destruct (inflight sys) as [| t [| t' l]]; exact Inv. }
  destruct a as [| r | r newDate | v | dateNow newDate env
                 | key shiftKey dateNow newDate env | i dateNow newDate]; cbn [step].
  - apply Hpage. intros s. split; reflexivity.
  - apply Hpage. intros s. unfold initChat_project.
    destruct (success r); [destruct (data r) as [p |]; [destruct (status p) |] |];
      split; reflexivity.
  - apply Hpage. intros s. unfold initChat_history.
    destruct (success r); [destruct (data r) as [[| m l] |] |]; split; reflexivity.
  - apply Hpage. intros s. split; reflexivity.
  - now apply handleSubmit_in_step.
  - unfold handleKeyDown.
    destruct ((key =? "Enter") && negb shiftKey); [now apply handleSubmit_in_step | exact Inv].
  - unfold resume, in_step in *.
    destruct (inflight sys) as [| t [| t' l]] eqn:Hin; try contradiction.
    + destruct i; simpl; rewrite Hin; exact Inv.
    + destruct i as [| i]; simpl.
      * destruct Inv as (Hl & res & Hres & Hc).
        destruct (upcoming t) as [| ev rest] eqn:Hup; simpl.
        -- rewrite Hres. split; reflexivity.
        -- split; [destruct ev; exact Hl |].
           exists res. split; [exact Hres |].
           intros d Hok Hd. rewrite (Hc d Hok Hd).
           destruct ev; simpl; try reflexivity.
           unfold join. simpl. now rewrite ApiFacts.append_assoc.
      * destruct i; simpl; rewrite Hin; exact Inv.
Qed.

Lemma run_in_step (actions : list action) (sys : System) :
  in_step sys -> in_step (run trim projectId userId sys actions).
Proof.
  revert sys; induction actions as [| a actions IH]; intros sys Inv.
  - exact Inv.
  - change (run trim projectId userId sys (a :: actions))
      with (run trim projectId userId (step trim projectId userId sys a) actions).
    apply IH. now apply step_in_step.
Qed.

Lemma start_in_step (newDate : Z) : in_step (start newDate).
Proof. split; reflexivity. Qed.

End Transitions.
End ChatMore.

(** X8.  In every state the chat page can reach, [isLoading] is set
    exactly while a call of [sendChatMessage] is awaited: the input is
    blocked during a turn and is free again as soon as the turn is
    over, whatever the outcome of the call. *)
Theorem loading_exactly_while_awaited
    (trim : string -> string) {TD : Api.TextDecoder} (projectId : string)
    (userId : option string) (newDate0 : Z) (actions : list ChatPage.action) :
  let sys := ChatPage.run trim projectId userId (ChatPage.start newDate0) actions in
  ChatPage.isLoading (ChatPage.page sys) = true <-> ChatPage.inflight sys <> [].
Proof.
  intros sys.
  assert (Inv : Invariant.in_step sys)
    by (apply ChatMore.run_in_step, ChatMore.start_in_step).
  unfold Invariant.in_step in Inv.
  destruct (ChatPage.inflight sys) as [| t [| t' l]]; try contradiction.
  - destruct Inv as [Hl _]. rewrite Hl. split; [discriminate | intros H; now contradiction H].
  - destruct Inv as [Hl _]. rewrite Hl. split; [discriminate | reflexivity].
Qed.

(** X9.  In every state the chat page can reach, the streaming bubble
    is empty when no call is awaited; and while one is, the call is
    sure to return, and if it returns a success its content is the text
    in the bubble followed by the chunks that are still to come.  So
    what the user reads while the answer streams is a prefix of the
    answer that is stored, and all of it once the last chunk is in. *)
Theorem streaming_bubble_is_prefix_of_answer
    (trim : string -> string) {TD : Api.TextDecoder} (projectId : string)
    (userId : option string) (newDate0 : Z) (actions : list ChatPage.action) :
  let sys := ChatPage.run trim projectId userId (ChatPage.start newDate0) actions in
  (ChatPage.inflight sys = [] -> ChatPage.streamingContent (ChatPage.page sys) = "")
  /\ (forall t, In t (ChatPage.inflight sys) ->
        exists res,
          ChatPage.result t = Normal res
          /\ forall d, success res = true -> data res = Some d ->
               content d = ChatPage.streamingContent (ChatPage.page sys)
                           ++ join (delivered (ChatPage.upcoming t))).
Proof.
  intros sys.
  assert (Inv : Invariant.in_step sys)
    by (apply ChatMore.run_in_step, ChatMore.start_in_step).
  unfold Invariant.in_step in Inv.
  destruct (ChatPage.inflight sys) as [| t [| t' l]]; try contradiction.
  - split; [intros _; apply Inv | intros t []].
  - split; [discriminate |].
    intros t0 [<- | []]. apply Inv.
Qed.

Lemma loading_exactly_while_awaited_witness :
  let env := Examples.streaming_env [Examples.bytes "Hel"; Examples.bytes "lo"] Api.StreamDone in
  ChatPage.isLoading
    (ChatPage.page
       (ChatPage.run Examples.trim (TD := Examples.whole_chunk_decoder) "p1" None
          (ChatPage.start 0)
          [ChatPage.Change "hi"; ChatPage.FormSubmit 5 5 env; ChatPage.Resume 0 6 6]))
  = true.
Proof.
  intros env.
  apply (proj2 (loading_exactly_while_awaited Examples.trim
                  (TD := Examples.whole_chunk_decoder) "p1" None 0
                  [ChatPage.Change "hi"; ChatPage.FormSubmit 5 5 env; ChatPage.Resume 0 6 6])).
  discriminate.
Defined.

Lemma streaming_bubble_is_prefix_of_answer_witness :
  let env := Examples.streaming_env [Examples.bytes "Hel"; Examples.bytes "lo"] Api.StreamDone in
  let sys := ChatPage.run Examples.trim (TD := Examples.whole_chunk_decoder) "p1" None
               (ChatPage.start 0)
               [ChatPage.Change "hi"; ChatPage.FormSubmit 5 5 env; ChatPage.Resume 0 6 6;
                ChatPage.Resume 0 6 6; ChatPage.Resume 0 6 6] in
  ChatPage.streamingContent (ChatPage.page sys) = "Hel"
  /\ forall t, In t (ChatPage.inflight sys) ->
       exists res,
         ChatPage.result t = Normal res
         /\ forall d, success res = true -> data res = Some d ->
              content d = "Hel" ++ join (delivered (ChatPage.upcoming t)).
Proof.
  intros env sys. split; [reflexivity |].
  exact (proj2 (streaming_bubble_is_prefix_of_answer Examples.trim
                  (TD := Examples.whole_chunk_decoder) "p1" None 0
                  [ChatPage.Change "hi"; ChatPage.FormSubmit 5 5 env; ChatPage.Resume 0 6 6;
                   ChatPage.Resume 0 6 6; ChatPage.Resume 0 6 6])).
Defined.

Module TurnFacts.
Import ChatPage Shape Invariant.

Section Transitions.

Variable trim : string -> string.
Context {TD : Api.TextDecoder}.
Variables (projectId : string) (userId : option string).

Lemma after_steps_keeps (tr : list Api.io_event) (pg : State) :
  messages (after_steps tr pg) = messages pg
  /\ input (after_steps tr pg) = input pg.
Proof.
  revert pg; induction tr as [| ev tr IH]; intros pg; [split; reflexivity |].
  unfold after_steps in *. cbn [fold_left].
  destruct (IH (match ev with Api.EvOnChunk chunk => onChunk chunk pg | _ => pg end))
    as [-> ->].
  destruct ev; split; reflexivity.
Qed.

Lemma resume_to_the_end (tr : list Api.io_event) (res : ApiResponse ChatMessage)
    (d n : Z) (pg : State) :
  run trim projectId userId
      {| page := pg; inflight := [ {| upcoming := tr; result := Normal res |} ] |}
      (repeat (Resume 0 d n) (S (length tr)))
  = {| page := handleSubmit_end res d n (after_steps tr pg); inflight := [] |}.
Proof.
  revert pg; induction tr as [| ev tr IH]; intros pg.
  - reflexivity.
  - change (repeat (Resume 0 d n) (S (length (ev :: tr))))
      with (Resume 0 d n :: repeat (Resume 0 d n) (S (length tr))).
    unfold run in *. cbn [fold_left]. cbn [step resume inflight nth_error upcoming result
                                           replace_nth page].
    rewrite IH. reflexivity.
Qed.

End Transitions.
End TurnFacts.

(** X10.  A whole turn with nothing in between.  From a page that
    awaits no call, is not loading and holds a non-blank input: the
    submit, the steps of the awaited call and the resumption of
    [handleSubmit] leave the page idle again, with the input cleared
    and the bubble empty, and add exactly two messages: the user's
    trimmed text, then one assistant message, which is the streamed
    text when the call succeeded. *)
Theorem whole_turn_adds_question_and_reply
    (trim : string -> string) {TD : Api.TextDecoder} (projectId : string)
    (userId : option string) (sys : ChatPage.System) (dateNow newDate : Z)
    (env : Api.Env) (endNow endDate : Z) :
  ChatPage.inflight sys = [] ->
  ChatPage.isLoading (ChatPage.page sys) = false ->
  trim (ChatPage.input (ChatPage.page sys)) <> "" ->
  let question := trim (ChatPage.input (ChatPage.page sys)) in
  let sent := Api.sendChatMessage env projectId question userId true in
  let final := ChatPage.run trim projectId userId sys
                 (Invariant.whole_turn dateNow newDate env (length (fst sent))
                                       endNow endDate) in
  ChatPage.inflight final = []
  /\ ChatPage.isLoading (ChatPage.page final) = false
  /\ ChatPage.input (ChatPage.page final) = ""
  /\ ChatPage.streamingContent (ChatPage.page final) = ""
  /\ exists reply,
       ChatPage.messages (ChatPage.page final)
       = (ChatPage.messages (ChatPage.page sys)
          ++ [ {| id := Z_toString dateNow; role := user; content := question;
                  timestamp := newDate |};
               reply ])%list
       /\ role reply = assistant
       /\ id reply = Z_toString (endNow + 1)
       /\ (forall res, snd sent = Normal res -> success res = true ->
             content reply = join (delivered (fst sent))).
Proof.
  intros Hidle Hload Hblank question sent final.
  destruct (ChatMore.sendChatMessage_returns projectId userId env question) as (res & Hres).
  fold sent in Hres.
  assert (Hfinal : final
            = {| ChatPage.page :=
                   ChatPage.handleSubmit_end res endNow endDate
                     (Invariant.after_steps (fst sent)
                        (ChatPage.set_streamingContent (fun _ => "")
                           (ChatPage.set_isLoading true
                              (ChatPage.set_input ""
                                 (ChatPage.set_messages
                                    (fun prev => (prev ++ [ {| id := Z_toString dateNow;
                                                               role := user;
                                                               content := question;
                                                               timestamp := newDate |} ])%list)
                                    (ChatPage.page sys))))));
                 ChatPage.inflight := [] |}).
  { subst final. unfold Invariant.whole_turn.
    change (ChatPage.run trim projectId userId sys
              (ChatPage.FormSubmit dateNow newDate env
               :: repeat (ChatPage.Resume 0 endNow endDate) (S (length (fst sent)))))
      with (ChatPage.run trim projectId userId
              (ChatPage.handleSubmit trim projectId userId dateNow newDate env sys)
              (repeat (ChatPage.Resume 0 endNow endDate) (S (length (fst sent))))).
    unfold ChatPage.handleSubmit, ChatPage.handleSubmit_begin.
    fold question.
    destruct (String.eqb_spec question "") as [E | _]; [now contradiction Hblank |].
    rewrite Hload. cbn [orb]. cbv zeta. cbn [content].
    fold sent. destruct sent as [tr r] eqn:Hsent. cbn [fst snd] in *. subst r.
    rewrite Hidle. cbn [app].
    apply TurnFacts.resume_to_the_end. }
  rewrite Hfinal. cbn [ChatPage.inflight ChatPage.page].
  split; [reflexivity |]. split; [reflexivity |].
  assert (Hkeep := TurnFacts.after_steps_keeps (fst sent)
            (ChatPage.set_streamingContent (fun _ => "")
               (ChatPage.set_isLoading true
                  (ChatPage.set_input ""
                     (ChatPage.set_messages
                        (fun prev => (prev ++ [ {| id := Z_toString dateNow; role := user;
                                                   content := question;
                                                   timestamp := newDate |} ])%list)
                        (ChatPage.page sys)))))).
  destruct Hkeep as [Hm Hi].
  split; [| split; [reflexivity |]].
  - unfold ChatPage.handleSubmit_end.
    destruct (success res); [destruct (data res) |]; cbn; exact Hi.
  - destruct (success res) eqn:Hok.
    + destruct sent as [tr r] eqn:Hsent. cbn [fst snd] in *. subst r.
      destruct (ApiFacts.sendChatMessage_content env projectId question userId tr res
                  Hsent Hok) as (uuid & Hd).
      eexists. split; [| split; [| split]].
      * rewrite (ChatFacts.handleSubmit_end_success res _ endNow endDate _ Hok Hd), Hm.
        cbn [ChatPage.messages ChatPage.set_messages ChatPage.set_input
             ChatPage.set_isLoading ChatPage.set_streamingContent].
        rewrite <- app_assoc. reflexivity.
      * reflexivity.
      * reflexivity.
      * intros res' _ _. reflexivity.
    + eexists. split; [| split; [| split]].
      * rewrite (ChatFacts.handleSubmit_end_failure res endNow endDate _ Hok), Hm.
        cbn [ChatPage.messages ChatPage.set_messages ChatPage.set_input
             ChatPage.set_isLoading ChatPage.set_streamingContent].
        rewrite <- app_assoc. reflexivity.
      * reflexivity.
      * reflexivity.
      * intros res' Hr Hs. rewrite Hres in Hr. injection Hr as <-. congruence.
Qed.

Lemma whole_turn_adds_question_and_reply_witness :
  let env := Examples.streaming_env [Examples.bytes "Hel"; Examples.bytes "lo"] Api.StreamDone in
  let sys := ChatPage.step Examples.trim (TD := Examples.whole_chunk_decoder) "p1" None
               (ChatPage.start 0) (ChatPage.Change " hi ") in
  let final := ChatPage.run Examples.trim (TD := Examples.whole_chunk_decoder) "p1" None sys
                 (Invariant.whole_turn 5 5 env 6 7 8) in
  ChatPage.inflight final = []
  /\ ChatPage.messages (ChatPage.page final)
     = [ {| id := "1"; role := assistant; content := ChatPage.welcome; timestamp := 0 |};
         {| id := "5"; role := user; content := "hi"; timestamp := 5 |};
         {| id := "8"; role := assistant; content := "Hello"; timestamp := 8 |} ].
Proof.
  intros env sys final.
  destruct (whole_turn_adds_question_and_reply Examples.trim
              (TD := Examples.whole_chunk_decoder) "p1" None sys 5 5 env 7 8
              eq_refl eq_refl ltac:(discriminate)) as (H1 & _).
  split; [exact H1 | reflexivity].
Defined.

Module HistoryFacts.
Import ChatPage.

Lemma historyMessages_nth (k : nat) (newDate : nat -> Z) (h : list ChatMessage) :
  forall i, nth_error (historyMessages k newDate h) i
            = match nth_error h i with
              | Some msg => Some {| id := "history-" ++ Z_toString (Z.of_nat (k + i));
                                    role := role msg;
                                    content := content msg;
                                    timestamp := newDate (k + i)%nat |}
              | None => None
              end.
Proof.
  revert k; induction h as [| msg h IH]; intros k i.
  - destruct i; reflexivity.
  - destruct i as [| i]; cbn [historyMessages nth_error].
    + now rewrite Nat.add_0_r.
    + rewrite IH. now rewrite Nat.add_succ_r.
Qed.

Lemma historyMessages_maps (k : nat) (newDate : nat -> Z) (h : list ChatMessage) :
  map role (historyMessages k newDate h) = map role h
  /\ map content (historyMessages k newDate h) = map content h.
Proof.
  revert k; induction h as [| msg h IH]; intros k; [split; reflexivity |].
  cbn [historyMessages map]. destruct (IH (S k)) as [-> ->]. split; reflexivity.
Qed.

Lemma initChat_history_loaded (r : ApiResponse (list ChatMessage)) (h : list ChatMessage)
    (newDate : nat -> Z) (s : State) :
  success r = true -> data r = Some h ->
  messages (initChat_history r newDate s)
  = (messages s ++ historyMessages 0 newDate h)%list.
Proof.
  intros Hs Hd. unfold initChat_history. rewrite Hs, Hd.
  destruct h; [simpl; now rewrite app_nil_r | reflexivity].
Qed.

End HistoryFacts.

(** X11.  Loading the chat history.  When [getChatHistory] succeeds,
    [initChat] appends one message for each message of the history, in
    order, with the same role and content, the id [history-<index>]
    and a fresh timestamp, and ends the initialising state; an empty
    history adds nothing.  When [initChat] runs a second time (its
    effect runs again when the user id changes) the history is added a
    second time, and, the history not being empty, message ids
    repeat. *)
Theorem history_is_appended_in_order
    (r : ApiResponse (list ChatMessage)) (h : list ChatMessage)
    (newDate newDate' : nat -> Z) (s : ChatPage.State) :
  success r = true -> data r = Some h ->
  let loaded := ChatPage.historyMessages 0 newDate h in
  let once := ChatPage.initChat_history r newDate s in
  let twice := ChatPage.initChat_history r newDate' once in
  ChatPage.messages once = (ChatPage.messages s ++ loaded)%list
  /\ ChatPage.isInitializing once = false
  /\ map role loaded = map role h
  /\ map content loaded = map content h
  /\ (forall i m, nth_error loaded i = Some m ->
        id m = "history-" ++ Z_toString (Z.of_nat i) /\ timestamp m = newDate i)
  /\ ChatPage.messages twice
     = (ChatPage.messages s ++ loaded ++ ChatPage.historyMessages 0 newDate' h)%list
  /\ (h <> [] -> ~ NoDup (map id (ChatPage.messages twice))).
Proof.
  intros Hs Hd loaded once twice.
  assert (H1 : ChatPage.messages once = (ChatPage.messages s ++ loaded)%list)
    by (apply HistoryFacts.initChat_history_loaded; assumption).
  assert (H2 : ChatPage.messages twice
               = (ChatPage.messages s ++ loaded ++ ChatPage.historyMessages 0 newDate' h)%list).
  { unfold twice. rewrite (HistoryFacts.initChat_history_loaded r h newDate' once Hs Hd), H1.
    now rewrite <- app_assoc. }
  split; [exact H1 |]. split.
  { unfold once, ChatPage.initChat_history.
    destruct (success r); [destruct (data r) as [[| m l] |] |]; reflexivity. }
  split; [apply HistoryFacts.historyMessages_maps |].
  split; [apply HistoryFacts.historyMessages_maps |].
  split.
  { intros i m Hi. unfold loaded in Hi. rewrite HistoryFacts.historyMessages_nth in Hi.
    destruct (nth_error h i); [| discriminate]. injection Hi as <-. split; reflexivity. }
  split; [exact H2 |].
  intros Hne Hnd. rewrite H2 in Hnd.
  destruct h as [| msg h']; [now contradiction Hne |].
  unfold loaded in Hnd. cbn [ChatPage.historyMessages] in Hnd.
  rewrite !map_app in Hnd. apply NoDup_app_remove_l in Hnd.
  cbn [map app id] in Hnd.
  inversion Hnd as [| x l Hx _]; subst. apply Hx.
  apply in_or_app. right. left. reflexivity.
Qed.

Lemma history_is_appended_in_order_witness :
  let h := [ {| id := "a"; role := user; content := "what does add do?"; timestamp := 0 |};
             {| id := "b"; role := assistant; content := "It adds."; timestamp := 0 |} ] in
  ChatPage.messages (ChatPage.initChat_history (ok_with h) (fun _ => 9%Z) (ChatPage.initial 0))
  = [ {| id := "1"; role := assistant; content := ChatPage.welcome; timestamp := 0 |};
      {| id := "history-0"; role := user; content := "what does add do?"; timestamp := 9 |};
      {| id := "history-1"; role := assistant; content := "It adds."; timestamp := 9 |} ].
Proof.
  intros h.
  exact (proj1 (history_is_appended_in_order (ok_with h) h (fun _ => 9%Z) (fun _ => 9%Z)
                  (ChatPage.initial 0) eq_refl eq_refl)).
Defined.

(** X12.  The chat page adds no blank question.  Whatever handler
    runs, other than the loading of the history: every message it adds
    with role [user] has as content the trimmed text of the input, and
    that text is not empty.  In particular a submit of an input that
    is blank once trimmed adds nothing. *)
Theorem page_adds_no_blank_question
    (trim : string -> string) {TD : Api.TextDecoder} (projectId : string)
    (userId : option string) (sys : ChatPage.System) (a : ChatPage.action)
    (added : list ChatMessage) :
  (forall r newDate, a <> ChatPage.InitHistory r newDate) ->
  ChatPage.messages (ChatPage.page (ChatPage.step trim projectId userId sys a))
  = (ChatPage.messages (ChatPage.page sys) ++ added)%list ->
  Forall (fun m => role m = user ->
                   content m = trim (ChatPage.input (ChatPage.page sys))
                   /\ content m <> "") added.
Proof.
  intros Hnot Hadded.
  assert (Hnone : ChatPage.messages (ChatPage.page (ChatPage.step trim projectId userId sys a))
                  = ChatPage.messages (ChatPage.page sys) -> Forall
                      (fun m => role m = user ->
                                content m = trim (ChatPage.input (ChatPage.page sys))
                                /\ content m <> "") added).
  { intros Hsame. rewrite Hsame in Hadded.
    rewrite <- (app_nil_r (ChatPage.messages (ChatPage.page sys))) in Hadded at 1.
    apply app_inv_head in Hadded. subst added. constructor. }
  assert (Hsubmit : forall dateNow newDate env,
             ChatPage.messages
               (ChatPage.page (ChatPage.handleSubmit trim projectId userId dateNow newDate env sys))
             = (ChatPage.messages (ChatPage.page sys) ++ added)%list ->
             Forall (fun m => role m = user ->
                              content m = trim (ChatPage.input (ChatPage.page sys))
                              /\ content m <> "") added).
  { intros dateNow newDate env H.
    unfold ChatPage.handleSubmit, ChatPage.handleSubmit_begin in H.
    destruct (String.eqb_spec (trim (ChatPage.input (ChatPage.page sys))) "") as [E | E];
      cbn [orb] in H.
    - rewrite <- (app_nil_r (ChatPage.messages (ChatPage.page sys))) in H at 1.
      apply app_inv_head in H. subst added. constructor.
    - destruct (ChatPage.isLoading (ChatPage.page sys)).
      + rewrite <- (app_nil_r (ChatPage.messages (ChatPage.page sys))) in H at 1.
        apply app_inv_head in H. subst added. constructor.
      + cbv zeta in H.
        destruct (Api.sendChatMessage env projectId _ userId true) as [tr r].
        cbn in H. apply app_inv_head in H. subst added.
        constructor; [| constructor]. intros _. split; [reflexivity | exact E]. }
  destruct a as [| r | r newDate | v | dateNow newDate env
                 | key shiftKey dateNow newDate env | i dateNow newDate]; cbn [ChatPage.step] in *.
  - apply Hnone. reflexivity.
  - apply Hnone. apply ChatFacts.initChat_project_messages.
  - now contradiction (Hnot r newDate).
  - apply Hnone. reflexivity.
  - now apply (Hsubmit dateNow newDate env).
  - unfold ChatPage.handleKeyDown in *.
    destruct ((key =? "Enter") && negb shiftKey);
      [now apply (Hsubmit dateNow newDate env) | apply Hnone; reflexivity].
  - unfold ChatPage.resume in *.
    destruct (nth_error (ChatPage.inflight sys) i) as [t |]; [| apply Hnone; reflexivity].
    destruct (ChatPage.upcoming t) as [| ev rest].
    + destruct (ChatPage.result t) as [res | e]; [| apply Hnone; reflexivity].
      cbn [ChatPage.page] in Hadded.
      destruct (ChatFacts.handleSubmit_end_messages res dateNow newDate (ChatPage.page sys))
        as (m & Hm & Hrole).
      rewrite Hm in Hadded. apply app_inv_head in Hadded. subst added.
      constructor; [| constructor]. intros Hu. rewrite Hrole in Hu. discriminate.
    + apply Hnone. destruct ev; reflexivity.
Qed.

Lemma page_adds_no_blank_question_witness :
  let sys := ChatPage.step Examples.trim (TD := Examples.whole_chunk_decoder) "p1" None
               (ChatPage.start 0) (ChatPage.Change "   ") in
  ChatPage.messages
    (ChatPage.page
       (ChatPage.step Examples.trim (TD := Examples.whole_chunk_decoder) "p1" None sys
          (ChatPage.FormSubmit 5 5 (Examples.streaming_env [] Api.StreamDone))))
  = (ChatPage.messages (ChatPage.page sys) ++ [])%list
  /\ Forall (fun m => role m = user -> content m = "" /\ content m <> "") [].
Proof.
  intros sys. split; [reflexivity |].
  exact (page_adds_no_blank_question Examples.trim (TD := Examples.whole_chunk_decoder)
           "p1" None sys
           (ChatPage.FormSubmit 5 5 (Examples.streaming_env [] Api.StreamDone)) []
           ltac:(discriminate) eq_refl).
Defined.

(** ** More on the dashboard *)

Module DashboardFacts.
Import Dashboard.

Lemma has_set_add (x y : string) (l : list string) :
  ChartPage.has y (set_add x l) = (y =? x) || ChartPage.has y l.
Proof.
  unfold set_add, ChartPage.has.
  destruct (existsb (String.eqb x) l) eqn:Hx.
  - destruct (String.eqb_spec y x) as [-> |]; [now rewrite Hx | reflexivity].
  - rewrite existsb_app. simpl. rewrite orb_false_r. apply orb_comm.
Qed.

Lemma has_set_delete (x y : string) (l : list string) :
  ChartPage.has y (set_delete x l) = negb (y =? x) && ChartPage.has y l.
Proof.
  unfold set_delete, ChartPage.has.
  induction l as [| z l IH]; simpl; [now rewrite andb_false_r |].
  destruct (String.eqb_spec z x) as [-> | Hzx]; simpl.
  - rewrite IH. destruct (String.eqb_spec y x) as [-> | Hyx]; simpl; [reflexivity |].
    destruct (String.eqb_spec y x); [contradiction | reflexivity].
  - rewrite IH. destruct (String.eqb_spec y z) as [-> | Hyz]; simpl.
    + destruct (String.eqb_spec z x); [contradiction | reflexivity].
    + reflexivity.
Qed.

Lemma end_analyzing (projectId : string) (result : ApiResponse AnalyzeResult) (s : State) :
  analyzingProjects (handleAnalyzeProject_end projectId result s)
  = set_delete projectId (analyzingProjects s).
Proof.
  unfold handleAnalyzeProject_end.
  destruct (success result); [destruct (data result) as [[a m [fresh |]] |] |]; reflexivity.
Qed.

End DashboardFacts.

(** X13.  [handleAnalyzeProject] marks the project as being analysed
    while it waits and unmarks it when the call is back, whatever came
    of the call; the marks of the other projects are left as they
    were. *)
Theorem analysis_marks_then_unmarks
    (projectId other : string) (result : ApiResponse Dashboard.AnalyzeResult)
    (s : Dashboard.State) :
  let during := Dashboard.handleAnalyzeProject_begin projectId s in
  let after := Dashboard.handleAnalyzeProject_end projectId result during in
  ChartPage.has projectId (Dashboard.analyzingProjects during) = true
  /\ ChartPage.has projectId (Dashboard.analyzingProjects after) = false
  /\ (other <> projectId ->
      ChartPage.has other (Dashboard.analyzingProjects during)
      = ChartPage.has other (Dashboard.analyzingProjects s)
      /\ ChartPage.has other (Dashboard.analyzingProjects after)
         = ChartPage.has other (Dashboard.analyzingProjects s)).
Proof.
  intros during after. subst after.
  rewrite DashboardFacts.end_analyzing.
  subst during. cbn [Dashboard.handleAnalyzeProject_begin Dashboard.analyzingProjects].
  split; [| split].
  - rewrite DashboardFacts.has_set_add, String.eqb_refl. reflexivity.
  - rewrite DashboardFacts.has_set_delete, String.eqb_refl. reflexivity.
  - intros Hne. apply String.eqb_neq in Hne.
    rewrite DashboardFacts.has_set_delete, !DashboardFacts.has_set_add, Hne. split; reflexivity.
Qed.

Lemma analysis_marks_then_unmarks_witness :
  let s := {| Dashboard.projects := []; Dashboard.analyzingProjects := ["p2"];
              Dashboard.error := None |} in
  ChartPage.has "p2"
    (Dashboard.analyzingProjects
       (Dashboard.handleAnalyzeProject_end "p1" (failed (JStr "boom"))
          (Dashboard.handleAnalyzeProject_begin "p1" s)))
  = true.
Proof.
  intros s.
  destruct (analysis_marks_then_unmarks "p1" "p2" (failed (JStr "boom")) s) as (_ & _ & H).
  destruct (H ltac:(discriminate)) as [_ H2]. exact H2.
Defined.

(** X14.  What the cards show around an analysis.  While
    [handleAnalyzeProject] waits, every project with the given id
    shows the disabled Analyzing button.  When the call has failed,
    every such project shows the Retry button, enabled, and an error is
    set.  Throughout, the list keeps its length and the projects with
    another id are left as they were. *)
Theorem failed_analysis_offers_retry
    (projectId : string) (result : ApiResponse Dashboard.AnalyzeResult)
    (s : Dashboard.State) :
  success result = false ->
  let during := Dashboard.handleAnalyzeProject_begin projectId s in
  let after := Dashboard.handleAnalyzeProject_end projectId result during in
  (forall p, In p (Dashboard.projects during) -> project_id p = projectId ->
             DashboardForms.card_action during p = DashboardForms.analyzing_button)
  /\ (forall p, In p (Dashboard.projects after) -> project_id p = projectId ->
                DashboardForms.card_action after p
                = DashboardForms.analyze_button "Retry" false)
  /\ Dashboard.error after <> None
  /\ length (Dashboard.projects after) = length (Dashboard.projects s)
  /\ (forall p, project_id p <> projectId ->
        (In p (Dashboard.projects after) <-> In p (Dashboard.projects s))).
Proof.
  intros Hfail during after.
  assert (Hafter : after
            = {| Dashboard.projects :=
                   map (fun p => if project_id p =? projectId
                                 then Dashboard.with_status error_status p else p)
                       (Dashboard.projects during);
                 Dashboard.analyzingProjects :=
                   Dashboard.set_delete projectId (Dashboard.analyzingProjects during);
                 Dashboard.error :=
                   Some (js_or (match Types.error result with
                                | Some e => e | None => JUndefined end)
                               (JStr "Failed to analyze project")) |}).
  { subst after. unfold Dashboard.handleAnalyzeProject_end. rewrite Hfail. reflexivity. }
  split; [| split; [| split; [| split]]].
  - intros p Hin Hid. subst during. cbn [Dashboard.handleAnalyzeProject_begin
                                          Dashboard.projects] in Hin.
    apply in_map_iff in Hin. destruct Hin as (q & Hq & _).
    destruct (String.eqb_spec (project_id q) projectId) as [E | E].
    + subst p. reflexivity.
    + subst p. contradiction.
  - intros p Hin Hid. rewrite Hafter in Hin |- *. cbn [Dashboard.projects] in Hin.
    apply in_map_iff in Hin. destruct Hin as (q & Hq & _).
    destruct (String.eqb_spec (project_id q) projectId) as [E | E].
    + subst p. unfold DashboardForms.card_action.
      cbn [status Dashboard.with_status project_id Dashboard.analyzingProjects].
      rewrite E, DashboardFacts.has_set_delete, String.eqb_refl. reflexivity.
    + subst p. contradiction.
  - rewrite Hafter. discriminate.
  - rewrite Hafter. subst during.
    cbn [Dashboard.projects Dashboard.handleAnalyzeProject_begin]. now rewrite !length_map.
  - intros p Hid. rewrite Hafter. subst during.
    cbn [Dashboard.projects Dashboard.handleAnalyzeProject_begin].
    rewrite map_map. split.
    + intros Hin. apply in_map_iff in Hin. destruct Hin as (q & Hq & Hin).
      destruct (String.eqb_spec (project_id q) projectId) as [E | E].
      * cbn [project_id Dashboard.with_status] in Hq. rewrite E, String.eqb_refl in Hq.
        subst p. now contradiction Hid.
      * rewrite (proj2 (String.eqb_neq _ _) E) in Hq. now subst p.
    + intros Hin. apply in_map_iff. exists p. split; [| exact Hin].
      rewrite (proj2 (String.eqb_neq _ _) Hid). now rewrite (proj2 (String.eqb_neq _ _) Hid).
Qed.

Lemma failed_analysis_offers_retry_witness :
  let after := Dashboard.handleAnalyzeProject_end "p1" (failed (JStr "Analysis failed"))
                 (Dashboard.handleAnalyzeProject_begin "p1" MoreExamples.two_projects) in
  Dashboard.projects after
  = [MoreExamples.project "p1" error_status; MoreExamples.project "p2" ready]
  /\ DashboardForms.card_action after (MoreExamples.project "p1" error_status)
     = DashboardForms.analyze_button "Retry" false.
Proof.
  intros after. split; [reflexivity |].
  destruct (failed_analysis_offers_retry "p1" (failed (JStr "Analysis failed"))
              MoreExamples.two_projects eq_refl) as (_ & H & _).
  apply H; [left |]; reflexivity.
Defined.

(** ** More on the middleware *)

(** X15.  The middleware either lets a request through or redirects it
    to [/] of the same origin; it redirects exactly the requests for a
    path under [/dashboard] that come without a session; and the
    request that follows the redirect, for [/], is let through, so the
    redirect cannot loop. *)
Theorem middleware_redirects_only_dashboard (req : Middleware.NextRequest) :
  (Middleware.middleware req = None
   \/ Middleware.middleware req
      = Some (Middleware.redirect_response (Middleware.origin req ++ "/")))
  /\ (Middleware.middleware req <> None
      <-> String.prefix "/dashboard" (Middleware.pathname req) = true
          /\ Middleware.auth req = None)
  /\ Middleware.middleware {| Middleware.auth := Middleware.auth req;
                              Middleware.origin := Middleware.origin req;
                              Middleware.pathname := "/" |} = None.
Proof.
  unfold Middleware.middleware. cbn [Middleware.auth Middleware.origin Middleware.pathname].
  destruct (String.prefix "/dashboard" (Middleware.pathname req));
    destruct (Middleware.auth req) as [sess |]; cbn.
  all: split; [auto |]; split; [| reflexivity].
  all: split; [intros H | intros [H1 H2]]; try discriminate; try (now contradiction H); auto.
Qed.

(** X16.  The layout asks for more than the middleware.  Whenever
    [DashboardLayout] renders the dashboard for the session of a
    request, the middleware lets that request through; the layout
    renders exactly when the session has a user, so a session without
    a user passes the middleware and is still redirected by the
    layout. *)
Theorem layout_is_stricter_than_middleware
    (req : Middleware.NextRequest) (Children : Type) (children : Children) :
  (forall u, Middleware.DashboardLayout (Middleware.auth req) children
             = Middleware.layout u children ->
             Middleware.middleware req = None)
  /\ (forall u, Middleware.DashboardLayout (Middleware.auth req) children
                = Middleware.layout u children
                <-> Middleware.auth req = Some {| Middleware.session_user := Some u |})
  /\ (Middleware.auth req = Some {| Middleware.session_user := None |} ->
      Middleware.middleware req = None
      /\ Middleware.DashboardLayout (Middleware.auth req) children = Middleware.redirect "/").
Proof.
  unfold Middleware.middleware, Middleware.DashboardLayout.
  destruct (Middleware.auth req) as [[[u' |]] |].
  all: split; [intros u H; try discriminate; now rewrite andb_false_r |].
  all: split; [intros u; split; intros H; try discriminate;
               try (injection H as ->; reflexivity) |].
  all: intros H; try discriminate.
  split; [now rewrite andb_false_r | reflexivity].
Qed.

Lemma layout_is_stricter_than_middleware_witness :
  let req := {| Middleware.auth := Some {| Middleware.session_user := None |};
                Middleware.origin := "https://gitmate.example";
                Middleware.pathname := "/dashboard" |} in
  Middleware.middleware req = None
  /\ Middleware.DashboardLayout (Middleware.auth req) tt = Middleware.redirect "/".
Proof.
  intros req.
  exact (proj2 (proj2 (layout_is_stricter_than_middleware req unit tt)) eq_refl).
Defined.

(** ** The dashboard header *)

Module HeaderFacts.
Import Header.

Lemma length_app (a b : string) :
  String.length (a ++ b) = (String.length a + String.length b)%nat.
Proof. induction a as [| c a IH]; simpl; [reflexivity | now rewrite IH]. Qed.

Lemma concat_snoc (l : list string) (x : string) :
  l <> [] ->
  String.length (String.concat "/" (l ++ [x])%list)
  = (String.length (String.concat "/" l) + 1 + String.length x)%nat.
Proof.
  induction l as [| y l IH]; intros Hne; [now contradiction Hne |].
  destruct l as [| z l].
  - simpl. rewrite length_app. simpl. lia.
  - change (String.concat "/" ((y :: z :: l) ++ [x])%list)
      with (y ++ "/" ++ String.concat "/" ((z :: l) ++ [x])%list).
    change (String.concat "/" (y :: z :: l)) with (y ++ "/" ++ String.concat "/" (z :: l)).
    rewrite !length_app, IH by discriminate. simpl. lia.
Qed.

Lemma firstn_snoc {A} (l : list A) (k : nat) (x : A) :
  nth_error l k = Some x -> firstn (S k) l = (firstn k l ++ [x])%list.
Proof.
  revert k; induction l as [| y l IH]; intros [| k] H; try discriminate.
  - injection H as ->. reflexivity.
  - cbn [firstn app]. f_equal. now apply IH.
Qed.

Lemma reach_grows (segments : list string) (k : nat) :
  (S k < length segments)%nat -> (reach segments k < reach segments (S k))%nat.
Proof.
  intros Hk. unfold reach. rewrite !Nat.add_1_r.
  destruct (nth_error segments (S k)) as [x |] eqn:Hx.
  - rewrite (firstn_snoc segments (S k) x Hx), concat_snoc; [lia |].
    destruct segments; [simpl in Hk; lia | discriminate].
  - apply nth_error_None in Hx. lia.
Qed.

Lemma reach_mono (segments : list string) (i j : nat) :
  (i < j)%nat -> (j < length segments)%nat -> (reach segments i < reach segments j)%nat.
Proof.
  induction 1 as [| j Hij IH]; intros Hj.
  - now apply reach_grows.
  - etransitivity; [apply IH; lia | now apply reach_grows].
Qed.

Section Crumbs.
Variable capitalize : string -> string.

Lemma crumbs_from_nth (segments : list string) (k : nat) (todo : list string) (i : nat) :
  nth_error (crumbs_from capitalize segments k todo) i
  = match nth_error todo i with
    | Some segment =>
        Some {| label := label_of capitalize segments (k + i) segment;
                href := "/" ++ String.concat "/" (firstn (k + i + 1) segments);
                isLast := (k + i =? length segments - 1)%nat |}
    | None => None
    end.
Proof.
  revert k i; induction todo as [| segment rest IH]; intros k i.
  - destruct i; reflexivity.
  - destruct i as [| i]; cbn [crumbs_from nth_error].
    + now rewrite Nat.add_0_r.
    + rewrite IH. replace (k + S i)%nat with (S k + i)%nat by lia. reflexivity.
Qed.

Lemma crumbs_from_length (segments : list string) (k : nat) (todo : list string) :
  length (crumbs_from capitalize segments k todo) = length todo.
Proof.
  revert k; induction todo as [| segment rest IH]; intros k; simpl; [reflexivity |].
  now rewrite IH.
Qed.

Lemma hrefs_differ (segments : list string) (i j : nat) (a b : Crumb) :
  nth_error (crumbs_from capitalize segments 0 segments) i = Some a ->
  nth_error (crumbs_from capitalize segments 0 segments) j = Some b ->
  href a = href b -> i = j.
Proof.
  rewrite !crumbs_from_nth. cbn [Nat.add].
  destruct (nth_error segments i) as [x |] eqn:Hi; [| discriminate].
  destruct (nth_error segments j) as [y |] eqn:Hj; [| discriminate].
  intros Ha Hb Heq. injection Ha as <-. injection Hb as <-. cbn [href] in Heq.
  injection Heq as Heq.
  assert (Hlen : reach segments i = reach segments j) by (unfold reach; now rewrite Heq).
  assert (Hi' : (i < length segments)%nat) by (apply nth_error_Some; congruence).
  assert (Hj' : (j < length segments)%nat) by (apply nth_error_Some; congruence).
  destruct (Nat.lt_trichotomy i j) as [H | [H | H]]; [| exact H |].
  - pose proof (reach_mono segments i j H Hj'). lia.
  - pose proof (reach_mono segments j i H Hi'). lia.
Qed.

End Crumbs.

Lemma split_pieces (s cur : string) :
  Uri.mem_ascii "/" cur = false ->
  Forall (fun piece => Uri.mem_ascii "/" piece = false) (Uri.split "/" s cur).
Proof.
  revert cur; induction s as [| c s IH]; intros cur Hcur.
  - repeat constructor. exact Hcur.
  - cbn [Uri.split].
    destruct (Ascii.eqb_spec c "/") as [-> | Hc].
    + constructor; [exact Hcur | now apply IH].
    + apply IH. rewrite UriFacts.mem_ascii_app, Hcur. cbn [Uri.mem_ascii orb].
      destruct (Ascii.eqb_spec "/" c) as [E |]; [now contradiction Hc | reflexivity].
Qed.

End HeaderFacts.

(** X17.  The breadcrumb trail has one crumb for each non-empty segment
    of the path, none of which holds a slash; exactly its last crumb is
    marked as last; and no two crumbs have the same [href], which is
    what the header uses as the key of a crumb. *)
Theorem breadcrumbs_follow_the_path (capitalize : string -> string) (pathname : string) :
  let segments := Header.segments_of pathname in
  let crumbs := Header.getBreadcrumbs capitalize pathname in
  length crumbs = length segments
  /\ Forall (fun segment => segment <> "" /\ Uri.mem_ascii "/" segment = false) segments
  /\ (forall i c, nth_error crumbs i = Some c ->
        (Header.isLast c = true <-> S i = length segments))
  /\ NoDup (map Header.href crumbs).
Proof.
  intros segments crumbs. subst crumbs. unfold Header.getBreadcrumbs. fold segments.
  split; [apply HeaderFacts.crumbs_from_length |]. split; [| split].
  - subst segments. unfold Header.segments_of.
    apply Forall_forall. intros x Hx. apply filter_In in Hx. destruct Hx as [Hin Hne].
    split.
    + intros ->. discriminate.
    + pose proof (HeaderFacts.split_pieces pathname "" eq_refl) as Hall.
      rewrite Forall_forall in Hall. now apply Hall.
  - intros i c Hc. rewrite HeaderFacts.crumbs_from_nth in Hc. cbn [Nat.add] in Hc.
    destruct (nth_error segments i) as [x |] eqn:Hi; [| discriminate].
    injection Hc as <-. cbn [Header.isLast].
    assert (Hlt : (i < length segments)%nat) by (apply nth_error_Some; congruence).
    rewrite Nat.eqb_eq. lia.
  - apply (proj2 (NoDup_nth_error _)). intros i j Hi Heq.
    rewrite length_map in Hi.
    rewrite !nth_error_map in Heq.
    destruct (nth_error (Header.crumbs_from capitalize segments 0 segments) i) as [a |] eqn:Ha.
    2:{ apply nth_error_None in Ha. lia. }
    destruct (nth_error (Header.crumbs_from capitalize segments 0 segments) j) as [b |] eqn:Hb;
      [| discriminate].
    cbn in Heq. injection Heq as Heq.
    exact (HeaderFacts.hrefs_differ capitalize segments i j a b Ha Hb Heq).
Qed.

Lemma breadcrumbs_follow_the_path_witness :
  map Header.href (Header.getBreadcrumbs MoreExamples.capitalize "/dashboard//settings/")
  = ["/dashboard"; "/dashboard/settings"]
  /\ map Header.label (Header.getBreadcrumbs MoreExamples.capitalize "/dashboard//settings/")
     = ["Dashboard"; "Settings"]
  /\ NoDup (map Header.href
              (Header.getBreadcrumbs MoreExamples.capitalize "/dashboard//settings/")).
Proof.
  split; [reflexivity |]. split; [reflexivity |].
  exact (proj2 (proj2 (proj2 (breadcrumbs_follow_the_path MoreExamples.capitalize
                                "/dashboard//settings/")))).
Defined.

Module TrailFacts.

Lemma split_no_slash (a rest cur : string) :
  Uri.mem_ascii "/" a = false ->
  Uri.split "/" (a ++ rest) cur = Uri.split "/" rest (cur ++ a).
Proof.
  revert cur; induction a as [| c a IH]; intros cur H.
  - simpl. now rewrite ApiFacts.append_empty_r.
  - cbn [Uri.mem_ascii] in H. apply orb_false_iff in H. destruct H as [Hc Ha].
    cbn [String.append Uri.split].
    rewrite Ascii.eqb_sym, Hc, IH by exact Ha.
    now rewrite ApiFacts.append_assoc.
Qed.

Lemma split_whole (a cur : string) :
  Uri.mem_ascii "/" a = false -> Uri.split "/" a cur = [cur ++ a].
Proof.
  revert cur; induction a as [| c a IH]; intros cur H.
  - simpl. now rewrite ApiFacts.append_empty_r.
  - cbn [Uri.mem_ascii] in H. apply orb_false_iff in H. destruct H as [Hc Ha].
    cbn [Uri.split]. rewrite Ascii.eqb_sym, Hc, IH by exact Ha.
    now rewrite ApiFacts.append_assoc.
Qed.

End TrailFacts.

(** X18.  The trail of a project page.  For a project id that is not
    empty, holds no slash and is not the word [project], the path
    [/dashboard/project/<id>/chat] gives four crumbs, labelled
    Dashboard (the capitalised segment), [Project], [Project <id>] and
    [Chat], each linking to the path up to its segment; for
    [.../chart] the last label is [Chart View].  The id goes before the
    names of the tabs: a project whose id is [chat] is still labelled
    [Project chat]. *)
Theorem project_page_trail (capitalize : string -> string) (pid : string) :
  pid <> "" -> Uri.mem_ascii "/" pid = false -> pid <> "project" ->
  Header.getBreadcrumbs capitalize ("/dashboard/project/" ++ pid ++ "/chat")
  = [ {| Header.label := capitalize "dashboard"; Header.href := "/dashboard";
         Header.isLast := false |};
      {| Header.label := "Project"; Header.href := "/dashboard/project";
         Header.isLast := false |};
      {| Header.label := "Project " ++ pid; Header.href := "/dashboard/project/" ++ pid;
         Header.isLast := false |};
      {| Header.label := "Chat"; Header.href := "/dashboard/project/" ++ pid ++ "/chat";
         Header.isLast := true |} ]
  /\ map Header.label
        (Header.getBreadcrumbs capitalize ("/dashboard/project/" ++ pid ++ "/chart"))
     = [capitalize "dashboard"; "Project"; "Project " ++ pid; "Chart View"].
Proof.
  intros Hne Hslash Hproj.
  apply String.eqb_neq in Hne. apply String.eqb_neq in Hproj.
  assert (Hsegs : forall tab, Uri.mem_ascii "/" tab = false -> (tab =? "") = false ->
            Header.segments_of ("/dashboard/project/" ++ pid ++ String "/" tab)
            = ["dashboard"; "project"; pid; tab]).
  { intros tab Htab Htne. unfold Header.segments_of.
    cbn [String.append Uri.split Ascii.eqb Bool.eqb].
    rewrite (TrailFacts.split_no_slash pid (String "/" tab) "" Hslash).
    cbn [String.append Uri.split Ascii.eqb Bool.eqb].
    rewrite (TrailFacts.split_whole tab "" Htab).
    cbn [String.append filter String.eqb negb Ascii.eqb Bool.eqb].
    now rewrite Hne, Htne. }
  split.
  - unfold Header.getBreadcrumbs.
    rewrite (Hsegs "chat" eq_refl eq_refl).
    cbn [Header.crumbs_from Header.label_of Header.previous nth_error length Nat.eqb
         Nat.sub Nat.add firstn String.concat].
    unfold Header.label_of, Header.previous.
    cbn [nth_error String.eqb Ascii.eqb Bool.eqb].
    rewrite Hproj. reflexivity.
  - unfold Header.getBreadcrumbs.
    rewrite (Hsegs "chart" eq_refl eq_refl).
    cbn [Header.crumbs_from Header.label_of Header.previous nth_error length Nat.eqb
         Nat.sub Nat.add firstn String.concat map Header.label].
    unfold Header.label_of, Header.previous.
    cbn [nth_error String.eqb Ascii.eqb Bool.eqb].
    rewrite Hproj. reflexivity.
Qed.

Lemma project_page_trail_witness :
  map Header.label
    (Header.getBreadcrumbs MoreExamples.capitalize "/dashboard/project/chat/chat")
  = ["Dashboard"; "Project"; "Project chat"; "Chat"].
Proof.
  exact (f_equal (map Header.label)
           (proj1 (project_page_trail MoreExamples.capitalize "chat"
                     ltac:(discriminate) eq_refl ltac:(discriminate)))).
Defined.

(** ** The chart page *)

Module TreeFacts.
Import ChartPage Trees.

Lemma FileNode_deep_ind (P : FileNode -> Prop) :
  (forall name path type is_dir children functions variables,
      match children with Some cs => Forall P cs | None => True end ->
      P (mkFileNode name path type is_dir children functions variables)) ->
  forall node, P node.
Proof.
  intros H. fix IH 1.
  intros [name path type is_dir children functions variables]. apply H.
  destruct children as [cs |]; [| exact I].
  induction cs as [| c cs IHcs]; constructor; [apply IH | exact IHcs].
Qed.

Lemma Forall_deep (P : FileNode -> Prop) (nodes : list FileNode) :
  (forall name path type is_dir children functions variables,
      match children with Some cs => Forall P cs | None => True end ->
      P (mkFileNode name path type is_dir children functions variables)) ->
  Forall P nodes.
Proof.
  intros H. apply Forall_forall. intros n _. now apply FileNode_deep_ind.
Qed.

Lemma convert_twice (node : FileNode) :
  convertFileNode (convertFileNode node) = convertFileNode node.
Proof.
  induction node as [name path type is_dir children functions variables IH]
    using FileNode_deep_ind.
  cbn [convertFileNode]. f_equal.
  destruct children as [cs |]; [| reflexivity].
  f_equal. rewrite map_map. apply map_ext_Forall. exact IH.
Qed.

Lemma descendants_convert (node : FileNode) :
  descendants (convertFileNode node) = map convertFileNode (descendants node).
Proof.
  induction node as [name path type is_dir children functions variables IH]
    using FileNode_deep_ind.
  cbn [convertFileNode descendants map]. f_equal.
  destruct children as [cs |]; [| reflexivity].
  induction IH as [| c cs Hc _ IHcs]; [reflexivity |].
  cbn [map flat_map]. rewrite map_app, Hc, IHcs. reflexivity.
Qed.

Lemma all_nodes_convert (nodes : list FileNode) :
  all_nodes (convertFileTree nodes) = map convertFileNode (all_nodes nodes).
Proof.
  unfold all_nodes, convertFileTree.
  induction nodes as [| n nodes IH]; [reflexivity |].
  cbn [map flat_map]. now rewrite map_app, descendants_convert, IH.
Qed.

End TreeFacts.

(** X19.  [convertFileTree] changes nothing but the [type] field: at
    every depth the converted tree has the same nodes in the same
    order, each with its name, path, [is_dir] flag, functions and
    variables, and with [type] set from [is_dir] alone ([directory]
    when the flag is true, [file] when it is false or absent).
    Converting a converted tree again changes nothing. *)
Theorem convertFileTree_sets_only_type (nodes : list ChartPage.FileNode) :
  let converted := ChartPage.convertFileTree nodes in
  ChartPage.convertFileTree converted = converted
  /\ Forall2 (fun old new =>
                ChartPage.name new = ChartPage.name old
                /\ ChartPage.path new = ChartPage.path old
                /\ ChartPage.is_dir new = ChartPage.is_dir old
                /\ ChartPage.functions new = ChartPage.functions old
                /\ ChartPage.variables new = ChartPage.variables old
                /\ ChartPage.type new = Some (ChartPage.kind_of (ChartPage.is_dir old)))
             (Trees.all_nodes nodes) (Trees.all_nodes converted).
Proof.
  intros converted. subst converted. split.
  - unfold ChartPage.convertFileTree. rewrite map_map.
    apply map_ext. apply TreeFacts.convert_twice.
  - rewrite TreeFacts.all_nodes_convert.
    induction (Trees.all_nodes nodes) as [| n l IH]; constructor; [| exact IH].
    destruct n. repeat split.
Qed.

Module DiagramFacts.
Import ChartPage Trees.

Lemma list_sum_cons (x : nat) (l : list nat) : list_sum (x :: l) = (x + list_sum l)%nat.
Proof. reflexivity. Qed.

Lemma leaves_size {A} (f : A -> D3TreeNode) (l : list A) :
  (forall x, d3_size (f x) = 1%nat) -> list_sum (map d3_size (map f l)) = length l.
Proof.
  intros Hf. induction l as [| x l IH]; [reflexivity |].
  change (list_sum (map d3_size (map f (x :: l))))
    with (d3_size (f x) + list_sum (map d3_size (map f l)))%nat.
  rewrite Hf, IH. reflexivity.
Qed.

Lemma functionNodes_size (owner : string) (l : list FunctionInfo) :
  list_sum (map d3_size (functionNodes owner l)) = length l.
Proof. unfold functionNodes. apply leaves_size. reflexivity. Qed.

Lemma variableNodes_size (owner : string) (l : list VariableInfo) :
  list_sum (map d3_size (variableNodes owner l)) = length l.
Proof. unfold variableNodes. apply leaves_size. reflexivity. Qed.

Lemma with_items_size {A} (made : list A -> list D3TreeNode) (items : option (list A))
    (sofar : list D3TreeNode) :
  (forall l, list_sum (map d3_size (made l)) = length l) ->
  list_sum (map d3_size (with_items made items sofar))
  = (list_sum (map d3_size sofar) + count items)%nat.
Proof.
  intros Hmade. unfold with_items, count.
  destruct items as [[| x l] |]; simpl; try lia.
  rewrite map_app, list_sum_app, Hmade. reflexivity.
Qed.

Lemma convertNodeToD3Tree_size (node : FileNode) :
  d3_size (convertNodeToD3Tree node) = list_sum (map weight (descendants node)).
Proof.
  induction node as [name path type is_dir children functions variables IH]
    using TreeFacts.FileNode_deep_ind.
  cbn [convertNodeToD3Tree d3_size descendants map].
  rewrite list_sum_cons.
  rewrite !with_items_size
    by (intros; first [apply functionNodes_size | apply variableNodes_size]).
  unfold weight at 1. cbn [ChartPage.functions ChartPage.variables].
  assert (Hkids : list_sum (map d3_size (match children with
                                         | Some cs => map convertNodeToD3Tree cs
                                         | None => []
                                         end))
                  = list_sum (map weight (match children with
                                          | Some cs => flat_map descendants cs
                                          | None => []
                                          end))).
  { destruct children as [cs |]; [| reflexivity].
    induction IH as [| c cs Hc _ IHcs]; [reflexivity |].
    cbn [map flat_map]. rewrite map_app, list_sum_app, list_sum_cons, Hc, IHcs. reflexivity. }
  rewrite Hkids. lia.
Qed.

Lemma weights (l : list FileNode) :
  list_sum (map weight l)
  = (length l + list_sum (map (fun n => count (functions n)) l)
     + list_sum (map (fun n => count (variables n)) l))%nat.
Proof.
  induction l as [| n l IH]; [reflexivity |].
  cbn [map length]. rewrite !list_sum_cons, IH. unfold weight. lia.
Qed.

End DiagramFacts.

(** X20.  The full diagram has one node for everything in the file
    tree: besides its root, one node for each file and directory at
    any depth, one for each function and one for each variable of each
    of them. *)
Theorem full_diagram_has_a_node_for_everything (nodes : list ChartPage.FileNode) :
  Trees.d3_size (ChartPage.convertFullTreeToD3 nodes)
  = (1 + length (Trees.all_nodes nodes)
     + list_sum (map (fun n => Trees.count (ChartPage.functions n)) (Trees.all_nodes nodes))
     + list_sum (map (fun n => Trees.count (ChartPage.variables n)) (Trees.all_nodes nodes)))%nat.
Proof.
  unfold ChartPage.convertFullTreeToD3. cbn [Trees.d3_size].
  transitivity (S (list_sum (map Trees.weight (Trees.all_nodes nodes))));
    [| rewrite DiagramFacts.weights; lia].
  f_equal. unfold Trees.all_nodes.
  induction nodes as [| n nodes IH]; [reflexivity |].
  cbn [map flat_map].
  rewrite map_app, list_sum_app, DiagramFacts.list_sum_cons,
          DiagramFacts.convertNodeToD3Tree_size, IH.
  reflexivity.
Qed.

Module PathFacts.
Import ChartPage Trees.

Lemma first_some_found {A B} (f : A -> option B) (l : list A) (r : B) :
  first_some f l = Some r -> exists x, In x l /\ f x = Some r.
Proof.
  induction l as [| x l IH]; cbn [first_some]; [discriminate |].
  destruct (f x) as [r' |] eqn:Hx.
  - intros H. injection H as <-. exists x. split; [now left | exact Hx].
  - intros H. destruct (IH H) as (y & Hy & Hfy). exists y. split; [now right | exact Hfy].
Qed.

Lemma first_some_none {A B} (f : A -> option B) (l : list A) :
  first_some f l = None -> forall x, In x l -> f x = None.
Proof.
  induction l as [| x l IH]; cbn [first_some]; [intros _ y [] |].
  destruct (f x) as [r' |] eqn:Hx; [discriminate |].
  intros H y [<- | Hy]; [exact Hx | now apply IH].
Qed.

Lemma findPath_node_sound (targetPath : string) (node : FileNode) :
  forall trail chain,
    findPath_node targetPath trail node = Some chain ->
    found_below targetPath [node] trail chain.
Proof.
  induction node as [name p type is_dir children functions variables IH]
    using TreeFacts.FileNode_deep_ind.
  intros trail chain. cbn [findPath_node].
  destruct (String.eqb_spec p targetPath) as [Hp | Hp].
  - intros H. injection H as <-.
    exists [], (mkFileNode name p type is_dir children functions variables).
    split; [reflexivity |]. split; [exact Hp |]. split; [constructor |].
    cbn [app descent]. split; [now left | exact I].
  - destruct children as [cs |]; [| discriminate].
    intros H. apply first_some_found in H. destruct H as (c & Hc & Hfound).
    rewrite Forall_forall in IH.
    destruct (IH c Hc _ _ Hfound) as (anc & target & -> & Ht & Hanc & Hd).
    exists (mkFileNode name p type is_dir (Some cs) functions variables :: anc), target.
    split; [now rewrite <- app_assoc |].
    split; [exact Ht |].
    split; [constructor; [exact Hp | exact Hanc] |].
    cbn [descent app]. split; [now left |].
    destruct (anc ++ [target])%list as [| x rest] eqn:Hx;
      [destruct anc; discriminate |].
    cbn [ChartPage.children].
    cbn [descent] in Hd |- *. destruct Hd as [[<- | []] Hrest].
    split; [exact Hc | exact Hrest].
Qed.

Lemma findPath_node_complete (targetPath : string) (node : FileNode) :
  forall trail,
    findPath_node targetPath trail node = None ->
    Forall (fun n => path n <> targetPath) (descendants node).
Proof.
  induction node as [name p type is_dir children functions variables IH]
    using TreeFacts.FileNode_deep_ind.
  intros trail. cbn [findPath_node descendants].
  destruct (String.eqb_spec p targetPath) as [Hp | Hp]; [discriminate |].
  intros H. constructor; [exact Hp |].
  destruct children as [cs |]; [| constructor].
  assert (Hnone : forall x, In x cs -> exists tr, findPath_node targetPath tr x = None)
    by (intros x Hx; eexists; apply (first_some_none _ _ H x Hx)).
  clear H. induction IH as [| c cs Hc _ IHcs]; [constructor |].
  cbn [flat_map]. apply Forall_app. split.
  - destruct (Hnone c (or_introl eq_refl)) as (tr & Htr). exact (Hc tr Htr).
  - apply IHcs. intros x Hx. apply Hnone. now right.
Qed.

Lemma descent_widen (nodes nodes' chain : list FileNode) :
  incl nodes nodes' -> descent nodes chain -> descent nodes' chain.
Proof.
  intros Hincl. destruct chain as [| n rest]; [trivial |].
  cbn [descent]. intros [Hin Hrest]. split; [now apply Hincl | exact Hrest].
Qed.

Lemma descent_in_all (chain nodes : list FileNode) :
  descent nodes chain -> incl chain (all_nodes nodes).
Proof.
  revert nodes; induction chain as [| n rest IH]; intros nodes Hd x Hx; [destruct Hx |].
  cbn [descent] in Hd. destruct Hd as [Hn Hrest].
  unfold all_nodes. apply in_flat_map. exists n. split; [exact Hn |].
  destruct Hx as [<- | Hx].
  - destruct n. now left.
  - destruct rest as [| m rest']; [destruct Hx |].
    destruct n as [name p type is_dir children functions variables].
    cbn [ChartPage.children] in Hrest. destruct children as [cs |]; [| contradiction].
    cbn [descendants]. right. now apply (IH cs Hrest).
Qed.

Lemma backward_app (l1 l2 : list FileNode) (current : option D3TreeNode) :
  backward (l1 ++ l2) false current = backward l2 false (backward l1 false current).
Proof.
  revert current; induction l1 as [| n l1 IH]; intros current; [reflexivity |].
  cbn [app backward]. apply IH.
Qed.

Lemma backward_spine (ancestors : list FileNode) (below : D3TreeNode) :
  backward (rev ancestors) false (Some below)
  = Some (fold_right (fun node c => d3Node_of node false (Some c)) below ancestors).
Proof.
  induction ancestors as [| n ancestors IH]; [reflexivity |].
  cbn [rev fold_right]. rewrite backward_app, IH. reflexivity.
Qed.

End PathFacts.

Module PathMore.

Lemma findPath_sound (fileTree : list ChartPage.FileNode) (targetPath : string) chain :
  ChartPage.findPath targetPath fileTree [] = Some chain ->
  exists ancestors target,
    chain = (ancestors ++ [target])%list
    /\ ChartPage.path target = targetPath
    /\ Forall (fun n => ChartPage.path n <> targetPath) ancestors
    /\ Trees.descent fileTree chain.
Proof.
  intros H. unfold ChartPage.findPath in H.
  apply PathFacts.first_some_found in H. destruct H as (x & Hx & Hfound).
  destruct (PathFacts.findPath_node_sound targetPath x [] chain Hfound)
    as (anc & t & -> & Ht & Hanc & Hd).
  exists anc, t. cbn [app]. repeat split; try assumption.
  eapply PathFacts.descent_widen; [| exact Hd].
  intros y [<- | []]. exact Hx.
Qed.

Lemma findPath_none_iff (fileTree : list ChartPage.FileNode) (targetPath : string) :
  ChartPage.findPath targetPath fileTree [] = None
  <-> Forall (fun n => ChartPage.path n <> targetPath) (Trees.all_nodes fileTree).
Proof.
  split.
  - intros H. unfold ChartPage.findPath in H.
    pose proof (PathFacts.first_some_none _ _ H) as Hnone.
    unfold Trees.all_nodes. clear H.
    induction fileTree as [| n l IH]; [constructor |].
    cbn [flat_map]. apply Forall_app. split.
    + apply (PathFacts.findPath_node_complete targetPath n []). apply Hnone. now left.
    + apply IH. intros x Hx. apply Hnone. now right.
  - intros Hall.
    destruct (ChartPage.findPath targetPath fileTree []) as [chain |] eqn:Hf; [| reflexivity].
    destruct (findPath_sound _ _ _ Hf) as (anc & t & -> & Ht & _ & Hd).
    apply PathFacts.descent_in_all in Hd.
    rewrite Forall_forall in Hall.
    exfalso. apply (Hall t); [| exact Ht].
    apply Hd. apply in_or_app. right. now left.
Qed.

Lemma buildPathToNode_shape (fileTree : list ChartPage.FileNode) (targetPath : string) chain :
  ChartPage.findPath targetPath fileTree [] = Some chain ->
  exists ancestors target,
    chain = (ancestors ++ [target])%list
    /\ ChartPage.path target = targetPath
    /\ ChartPage.buildPathToNode fileTree targetPath
       = Some (ChartPage.mkD3 "Project Root" ChartPage.d3_directory None None
                 (Some [Trees.spine ancestors target]) None None None).
Proof.
  intros Hf.
  destruct (findPath_sound _ _ _ Hf) as (anc & t & Hchain & Ht & _ & _).
  exists anc, t. split; [exact Hchain |]. split; [exact Ht |].
  unfold ChartPage.buildPathToNode. rewrite Hf, Hchain.
  destruct (anc ++ [t])%list as [| y rest] eqn:Hy; [destruct anc; discriminate |].
  rewrite <- Hy, rev_app_distr. cbn [rev app ChartPage.backward].
  unfold Trees.spine. now rewrite PathFacts.backward_spine.
Qed.

End PathMore.

(** X21.  The search of [buildPathToNode] finds a path exactly when
    the tree holds it.  It gives nothing if and only if no node at any
    depth has the path looked for.  What it gives otherwise is a chain
    that goes down from a top-level node, each node a child of the one
    before, to a node with that path; no node before the last has the
    path. *)
Theorem findPath_finds_what_the_tree_holds
    (fileTree : list ChartPage.FileNode) (targetPath : string) :
  (ChartPage.findPath targetPath fileTree [] = None
   <-> Forall (fun n => ChartPage.path n <> targetPath) (Trees.all_nodes fileTree))
  /\ (forall chain,
        ChartPage.findPath targetPath fileTree [] = Some chain ->
        exists ancestors target,
          chain = (ancestors ++ [target])%list
          /\ ChartPage.path target = targetPath
          /\ Forall (fun n => ChartPage.path n <> targetPath) ancestors
          /\ Trees.descent fileTree chain).
Proof.
  split; [apply PathMore.findPath_none_iff | apply PathMore.findPath_sound].
Qed.


Lemma findPath_finds_what_the_tree_holds_witness :
  exists ancestors target,
    [ChartPage.convertFileNode TreeExamples.src_dir;
     ChartPage.convertFileNode TreeExamples.main_py] = (ancestors ++ [target])%list
    /\ ChartPage.path target = "src/main.py"
    /\ Forall (fun n => ChartPage.path n <> "src/main.py") ancestors
    /\ Trees.descent (ChartPage.convertFileTree TreeExamples.repository)
         [ChartPage.convertFileNode TreeExamples.src_dir;
          ChartPage.convertFileNode TreeExamples.main_py].
Proof.
  exact (proj2 (findPath_finds_what_the_tree_holds
                  (ChartPage.convertFileTree TreeExamples.repository) "src/main.py")
               _ eq_refl).
Defined.


(* ------------------------------------------------------------------ *)
(** ** The set of open directories *)
(* ------------------------------------------------------------------ *)

Module SetFacts.
Import ChartPage.

Lemma has_add (x y : string) (s : list string) :
  has y (add x s) = (y =? x) || has y s.
Proof. exact (DashboardFacts.has_set_add x y s). Qed.

Lemma has_delete (x y : string) (s : list string) :
  has y (delete x s) = negb (y =? x) && has y s.
Proof. exact (DashboardFacts.has_set_delete x y s). Qed.

Lemma has_toggleNode (p q : string) (s : list string) :
  has q (toggleNode p s) = if q =? p then negb (has p s) else has q s.
Proof.
  unfold toggleNode. destruct (has p s) eqn:Hp.
  - rewrite has_delete. destruct (String.eqb_spec q p); reflexivity.
  - rewrite has_add. destruct (String.eqb_spec q p); reflexivity.
Qed.

Lemma has_fold_add (p : string) (l s : list string) :
  has p (fold_left (fun s x => add x s) l s) = has p s || existsb (String.eqb p) l.
Proof.
  revert s. induction l as [| x l IH]; intros s; cbn [fold_left existsb].
  - now rewrite orb_false_r.
  - rewrite IH, has_add. destruct (p =? x), (has p s); reflexivity.
Qed.

Lemma NoDup_add (x : string) (s : list string) : NoDup s -> NoDup (add x s).
Proof.
  intros H. unfold add. destruct (has x s) eqn:Hx; [exact H |].
  apply NoDup_app; [exact H | constructor; [intros [] | constructor] |].
  intros a Ha [<- | []]. unfold has in Hx.
  assert (existsb (String.eqb x) s = true)
    by (apply existsb_exists; exists x; split; [exact Ha | apply String.eqb_refl]).
  congruence.
Qed.

Lemma NoDup_fold_add (l s : list string) :
  NoDup s -> NoDup (fold_left (fun s x => add x s) l s).
Proof.
  revert s. induction l as [| x l IH]; intros s H; cbn [fold_left]; [exact H |].
  apply IH, NoDup_add, H.
Qed.

Lemma has_firstLevelPaths (p : string) (converted : list FileNode) :
  has p (firstLevelPaths converted) = true
  <-> exists n, In n converted /\ type n = Some directory /\ path n = p.
Proof.
  unfold firstLevelPaths. rewrite has_fold_add. cbn [has existsb orb].
  rewrite existsb_exists. split.
  - intros (x & Hx & Heq). apply in_map_iff in Hx. destruct Hx as (n & <- & Hn).
    apply filter_In in Hn. destruct Hn as (Hn & Hty).
    exists n. split; [exact Hn |]. split.
    + destruct (type n) as [[] |]; congruence.
    + symmetry. now apply String.eqb_eq.
  - intros (n & Hn & Hty & <-). exists (path n). split; [| apply String.eqb_refl].
    apply in_map, filter_In. split; [exact Hn |]. now rewrite Hty.
Qed.

End SetFacts.

(** X23.  A click on a directory of the file explorer flips whether
    this one path is open and leaves every other path as it was; a
    second click on it gives back the set of open paths that was there
    before the first, as far as [has] can tell. *)
Theorem toggleNode_flips_one_path (p q : string) (expandedNodes : list string) :
  ChartPage.has q (ChartPage.toggleNode p expandedNodes)
  = (if q =? p then negb (ChartPage.has p expandedNodes)
     else ChartPage.has q expandedNodes)
  /\ ChartPage.has q (ChartPage.toggleNode p (ChartPage.toggleNode p expandedNodes))
     = ChartPage.has q expandedNodes.
Proof.
  split; [apply SetFacts.has_toggleNode |].
  rewrite !SetFacts.has_toggleNode, String.eqb_refl.
  destruct (String.eqb_spec q p) as [-> |]; [apply negb_involutive | reflexivity].
Qed.

(** X24.  The directories that are open when the chart page has loaded
    are the directories of the first level of the tree, each once: a
    path is in the set exactly when a top-level node that the backend
    marked [is_dir] has it. *)
Theorem loaded_tree_opens_first_level (tree : list ChartPage.FileNode) (p : string) :
  (ChartPage.has p (ChartPage.firstLevelPaths (ChartPage.convertFileTree tree)) = true
   <-> exists n, In n tree /\ ChartPage.is_dir n = Some true /\ ChartPage.path n = p)
  /\ NoDup (ChartPage.firstLevelPaths (ChartPage.convertFileTree tree)).
Proof.
  split.
  - rewrite SetFacts.has_firstLevelPaths. unfold ChartPage.convertFileTree. split.
    + intros (n & Hn & Hty & Hp). apply in_map_iff in Hn. destruct Hn as (m & <- & Hm).
      exists m. split; [exact Hm |]. destruct m as [nm pth ty [[] |] cs fs vs]; cbn in *;
        split; congruence.
    + intros (n & Hn & Hdir & Hp). exists (ChartPage.convertFileNode n).
      split; [now apply in_map |]. destruct n as [nm pth ty d cs fs vs]; cbn in *.
      subst. now split.
  - apply SetFacts.NoDup_fold_add. constructor.
Qed.

(* ------------------------------------------------------------------ *)
(** ** The rows of the file explorer *)
(* ------------------------------------------------------------------ *)

Module PanelFacts.
Import ChartPage TreePanel.

Lemma apart {A} (l1 l2 : list A) (a : A) :
  NoDup (l1 ++ l2) -> In a l1 -> In a l2 -> False.
Proof.
  induction l1 as [| x l1 IH]; cbn [app]; intros Hnd H1 H2; [destruct H1 |].
  inversion Hnd as [| ? ? Hx Hrest]; subst.
  destruct H1 as [-> | H1]; [| exact (IH Hrest H1 H2)].
  apply Hx, in_or_app. now right.
Qed.

Lemma self_in_descendants (n : FileNode) : In n (Trees.descendants n).
Proof. destruct n. now left. Qed.

Lemma top_in_all (l : list FileNode) (n : FileNode) :
  In n l -> In n (Trees.all_nodes l).
Proof.
  intros H. unfold Trees.all_nodes. apply in_flat_map. exists n.
  split; [exact H | apply self_in_descendants].
Qed.

Lemma child_in_descendants (n c : FileNode) (cs : list FileNode) :
  children n = Some cs -> In c cs ->
  exists rest, Trees.descendants n = n :: rest /\ In c rest.
Proof.
  destruct n as [nm pth ty d ch fs vs]. cbn [children]. intros -> Hc.
  eexists. split; [reflexivity |].
  apply in_flat_map. exists c. split; [exact Hc | apply self_in_descendants].
Qed.

(** With paths that are all different, two top-level nodes with one
    path are one node. *)
Lemma top_unique (l : list FileNode) (m n : FileNode) :
  NoDup (map path (Trees.all_nodes l)) -> In m l -> In n l -> path m = path n -> m = n.
Proof.
  unfold Trees.all_nodes.
  induction l as [| a l IH]; [intros _ [] |].
  cbn [flat_map]. rewrite map_app. intros Hnd Hm Hn Heq.
  assert (Hcross : forall x, In x l -> path x = path a -> False).
  { intros x Hx Hxa. apply (apart _ _ (path a) Hnd).
    - apply in_map, self_in_descendants.
    - rewrite <- Hxa. apply in_map. exact (top_in_all l x Hx). }
  destruct Hm as [<- | Hm], Hn as [<- | Hn].
  - reflexivity.
  - exfalso. exact (Hcross n Hn (eq_sym Heq)).
  - exfalso. exact (Hcross m Hm Heq).
  - apply IH; try assumption. exact (NoDup_app_remove_l _ _ Hnd).
Qed.

(** With paths that are all different, no child of a top-level node
    has the path of a top-level node. *)
Lemma child_is_not_top (l : list FileNode) (n c m : FileNode) (cs : list FileNode) :
  NoDup (map path (Trees.all_nodes l)) ->
  In n l -> children n = Some cs -> In c cs -> In m l -> path m <> path c.
Proof.
  unfold Trees.all_nodes.
  induction l as [| a l IH]; [intros _ [] |].
  cbn [flat_map]. rewrite map_app. intros Hnd Hn Hcs Hc Hm Heq.
  destruct Hn as [<- | Hn].
  - destruct (child_in_descendants a c cs Hcs Hc) as (rest & Hd & Hrest).
    rewrite Hd in Hnd. cbn [map app] in Hnd.
    destruct Hm as [<- | Hm].
    + inversion Hnd as [| ? ? Hx _]; subst. apply Hx, in_or_app. left.
      rewrite Heq. now apply in_map.
    + inversion Hnd as [| ? ? _ Hnd']; subst.
      apply (apart _ _ (path c) Hnd'); [now apply in_map |].
      rewrite <- Heq. apply in_map. exact (top_in_all l m Hm).
  - destruct Hm as [<- | Hm].
    + apply (apart _ _ (path a) Hnd); [apply in_map, self_in_descendants |].
      rewrite Heq. apply in_map.
      destruct (child_in_descendants n c cs Hcs Hc) as (rest & Hd & Hrest).
      apply in_flat_map. exists n. split; [exact Hn |]. rewrite Hd. now right.
    + exact (IH (NoDup_app_remove_l _ _ Hnd) Hn Hcs Hc Hm Heq).
Qed.

Lemma isDirectory_convert (n : FileNode) :
  isDirectory (convertFileNode n) = flag (is_dir n).
Proof. destruct n as [nm pth ty [[] |] cs fs vs]; reflexivity. Qed.

Lemma flat_map_agree {A B} (f g : A -> list B) (l : list A) :
  (forall a, In a l -> f a = g a) -> flat_map f l = flat_map g l.
Proof.
  induction l as [| a l IH]; intros H; [reflexivity |].
  cbn [flat_map]. rewrite (H a (or_introl eq_refl)), IH; [reflexivity |].
  intros b Hb. apply H. now right.
Qed.

Lemma flat_map_single {A B} (f : A -> B) (l : list A) :
  flat_map (fun a => [f a]) l = map f l.
Proof. induction l as [| a l IH]; [reflexivity |]. cbn. now rewrite IH. Qed.

(** A closed node is a single row. *)
Lemma renderTreeNode_closed (expandedNodes : list string) (depth : nat) (n : FileNode) :
  has (path n) expandedNodes = false ->
  renderTreeNode expandedNodes depth n = [NodeRow n depth (isDirectory n) false].
Proof.
  destruct n as [nm pth ty d cs fs vs]. cbn [path]. intros H.
  cbn [renderTreeNode]. rewrite H, !andb_false_r. reflexivity.
Qed.

(** Each row selects a node of the tree. *)
Lemma rows_select_nodes (expandedNodes : list string) (n : FileNode) :
  forall depth row,
    In row (renderTreeNode expandedNodes depth n) -> In (selects row) (Trees.descendants n).
Proof.
  induction n as [nm pth ty d cs fs vs IH] using TreeFacts.FileNode_deep_ind.
  intros depth row. cbn [renderTreeNode]. intros Hrow.
  apply in_app_or in Hrow. destruct Hrow as [[<- | Hrow] | Hrow].
  - now left.
  - destruct (_ && _); [| destruct Hrow].
    destruct cs as [cs |]; [| destruct Hrow].
    cbn [Trees.descendants]. right.
    apply in_flat_map in Hrow. destruct Hrow as (c & Hc & Hrow).
    apply in_flat_map. exists c. split; [exact Hc |].
    cbn in IH. rewrite Forall_forall in IH. exact (IH c Hc _ _ Hrow).
  - destruct (_ && _); [| destruct Hrow].
    apply in_app_or in Hrow. destruct Hrow as [Hrow | Hrow];
      apply in_map_iff in Hrow; destruct Hrow as (x & <- & _); now left.
Qed.

Lemma panel_selects_nodes (expandedNodes : list string) (fileTree : list FileNode) row :
  In row (panel expandedNodes fileTree) -> In (selects row) (Trees.all_nodes fileTree).
Proof.
  unfold panel, Trees.all_nodes. intros H.
  apply in_flat_map in H. destruct H as (n & Hn & Hrow).
  apply in_flat_map. exists n. split; [exact Hn |].
  exact (rows_select_nodes _ _ _ _ Hrow).
Qed.

(** With paths that are all different, two nodes of the tree with one
    path are one node. *)
Lemma node_unique (l : list FileNode) (m n : FileNode) :
  NoDup (map path l) -> In m l -> In n l -> path m = path n -> m = n.
Proof.
  induction l as [| a l IH]; [intros _ [] |].
  cbn [map]. intros Hnd Hm Hn Heq. inversion Hnd as [| ? ? Ha Hrest]; subst.
  destruct Hm as [<- | Hm], Hn as [<- | Hn].
  - reflexivity.
  - exfalso. apply Ha. rewrite Heq. now apply in_map.
  - exfalso. apply Ha. rewrite <- Heq. now apply in_map.
  - now apply IH.
Qed.

End PanelFacts.

(** X25.  What the file explorer shows when the chart page has loaded
    a tree whose paths are all different: the top-level nodes, the
    directories among them open, and under each of these directories
    its children, closed; nothing deeper, and no function or variable
    rows. *)
Theorem explorer_opens_first_level (tree : list ChartPage.FileNode) :
  NoDup (map ChartPage.path (Trees.all_nodes tree)) ->
  TreePanel.after_load tree = TreePanel.first_level (ChartPage.convertFileTree tree).
Proof.
  intros Hnd.
  assert (Hnd' : NoDup (map ChartPage.path
                            (Trees.all_nodes (ChartPage.convertFileTree tree)))).
  { rewrite TreeFacts.all_nodes_convert, map_map.
    erewrite map_ext; [exact Hnd |]. now intros []. }
  unfold TreePanel.after_load, TreePanel.panel, TreePanel.first_level.
  set (converted := ChartPage.convertFileTree tree) in *.
  set (expandedNodes := ChartPage.firstLevelPaths converted).
  apply PanelFacts.flat_map_agree. intros n Hn.
  assert (Hconv : exists n0, n = ChartPage.convertFileNode n0).
  { apply in_map_iff in Hn. destruct Hn as (n0 & <- & _). now exists n0. }
  destruct Hconv as (n0 & Hn0).
  assert (Hdir : TreePanel.isDirectory n = TreePanel.flag (ChartPage.is_dir n)).
  { subst n. rewrite PanelFacts.isDirectory_convert. now destruct n0. }
  assert (Hty : ChartPage.type n = Some ChartPage.directory
                <-> TreePanel.flag (ChartPage.is_dir n) = true).
  { subst n. destruct n0 as [nm pth ty [[] |] cs fs vs]; cbn; split; congruence. }
  assert (Hexp : ChartPage.has (ChartPage.path n) expandedNodes
                 = TreePanel.flag (ChartPage.is_dir n)).
  { destruct (TreePanel.flag (ChartPage.is_dir n)) eqn:Hf.
    - apply SetFacts.has_firstLevelPaths. exists n.
      split; [exact Hn |]. split; [now apply Hty | reflexivity].
    - destruct (ChartPage.has (ChartPage.path n) expandedNodes) eqn:Hh; [| reflexivity].
      apply SetFacts.has_firstLevelPaths in Hh. destruct Hh as (m & Hm & Hmty & Hp).
      rewrite (PanelFacts.top_unique converted m n Hnd' Hm Hn Hp) in Hmty.
      apply Hty in Hmty. congruence. }
  assert (Hkids : forall cs c, ChartPage.children n = Some cs -> In c cs ->
            TreePanel.renderTreeNode expandedNodes 1 c
            = [TreePanel.NodeRow c 1 (TreePanel.flag (ChartPage.is_dir c)) false]).
  { intros cs c Hcs Hc.
    assert (Hcdir : TreePanel.isDirectory c = TreePanel.flag (ChartPage.is_dir c)).
    { subst n. destruct n0 as [nm pth ty d [l |] fs vs]; cbn in Hcs; [| discriminate].
      injection Hcs as <-. apply in_map_iff in Hc. destruct Hc as (c0 & <- & _).
      rewrite PanelFacts.isDirectory_convert. now destruct c0. }
    rewrite <- Hcdir. apply PanelFacts.renderTreeNode_closed.
    destruct (ChartPage.has (ChartPage.path c) expandedNodes) eqn:Hh; [| reflexivity].
    apply SetFacts.has_firstLevelPaths in Hh. destruct Hh as (m & Hm & _ & Hp).
    exfalso. exact (PanelFacts.child_is_not_top converted n c m cs Hnd' Hn Hcs Hc Hm Hp). }
  clear Hn0 Hty. destruct n as [nm pth ty d cs fs vs].
  cbn [ChartPage.path ChartPage.is_dir ChartPage.children] in *.
  cbn [TreePanel.renderTreeNode]. rewrite Hexp, Hdir.
  destruct (TreePanel.flag d); cbn [andb negb]; rewrite app_nil_r; [| reflexivity].
  f_equal. destruct cs as [cs |]; [| reflexivity]. cbn [TreePanel.items].
  rewrite <- PanelFacts.flat_map_single. apply PanelFacts.flat_map_agree.
  intros c Hc. exact (Hkids cs c eq_refl Hc).
Qed.

Lemma explorer_opens_first_level_witness :
  NoDup (map ChartPage.path (Trees.all_nodes TreeExamples.repository))
  /\ TreePanel.after_load TreeExamples.repository
     = [TreePanel.NodeRow (ChartPage.convertFileNode TreeExamples.src_dir) 0 true true;
        TreePanel.NodeRow (ChartPage.convertFileNode TreeExamples.util_dir) 1 true false;
        TreePanel.NodeRow (ChartPage.convertFileNode TreeExamples.main_py) 1 false false;
        TreePanel.NodeRow (ChartPage.convertFileNode TreeExamples.readme) 0 false false].
Proof.
  assert (H : NoDup (map ChartPage.path (Trees.all_nodes TreeExamples.repository))).
  { cbn. repeat constructor; cbn; intuition discriminate. }
  split; [exact H |].
  exact (explorer_opens_first_level TreeExamples.repository H).
Defined.

(** X26.  A click on any row of the file explorer makes the diagram
    show the way to a node with the path of the node the row selects,
    never the whole project: the root [Project Root] with the spine of
    a chain that ends in such a node.  If the paths of the tree are
    all different, that node is the selected one. *)
Theorem selecting_a_row_draws_its_path
    (fileTree : list ChartPage.FileNode) (expandedNodes : list string)
    (row : TreePanel.Row) :
  In row (TreePanel.panel expandedNodes fileTree) ->
  exists ancestors target,
    ChartPage.treeData fileTree (Some (TreePanel.selects row))
    = Some (ChartPage.mkD3 "Project Root" ChartPage.d3_directory None None
              (Some [Trees.spine ancestors target]) None None None)
    /\ ChartPage.path target = ChartPage.path (TreePanel.selects row)
    /\ Trees.descent fileTree (ancestors ++ [target])%list
    /\ (NoDup (map ChartPage.path (Trees.all_nodes fileTree)) ->
        target = TreePanel.selects row).
Proof.
  intros Hrow. apply PanelFacts.panel_selects_nodes in Hrow.
  set (sel := TreePanel.selects row) in *.
  destruct (ChartPage.findPath (ChartPage.path sel) fileTree []) as [chain |] eqn:Hf.
  - destruct (PathMore.findPath_sound _ _ _ Hf) as (anc & t & Hchain & Ht & _ & Hd).
    destruct (PathMore.buildPathToNode_shape _ _ _ Hf) as (anc' & t' & Hchain' & _ & Hb).
    assert (Hsame : anc' = anc /\ t' = t).
    { rewrite Hchain in Hchain'. apply app_inj_tail in Hchain'. now destruct Hchain'. }
    destruct Hsame as (-> & ->).
    exists anc, t. repeat split.
    + unfold ChartPage.treeData. rewrite Hb.
      destruct fileTree; [destruct Hrow | reflexivity].
    + exact Ht.
    + now rewrite <- Hchain.
    + intros Hnd. apply (PanelFacts.node_unique _ t sel Hnd); [| exact Hrow | exact Ht].
      rewrite Hchain in Hd. apply (PathFacts.descent_in_all _ _ Hd).
      apply in_or_app. right. now left.
  - exfalso. apply PathMore.findPath_none_iff in Hf.
    rewrite Forall_forall in Hf. exact (Hf sel Hrow eq_refl).
Qed.

Lemma selecting_a_row_draws_its_path_witness :
  exists ancestors target,
    ChartPage.treeData (ChartPage.convertFileTree TreeExamples.repository)
      (Some (ChartPage.convertFileNode TreeExamples.main_py))
    = Some (ChartPage.mkD3 "Project Root" ChartPage.d3_directory None None
              (Some [Trees.spine ancestors target]) None None None)
    /\ ChartPage.path target = "src/main.py"
    /\ Trees.descent (ChartPage.convertFileTree TreeExamples.repository)
         (ancestors ++ [target])%list
    /\ (NoDup (map ChartPage.path
                   (Trees.all_nodes (ChartPage.convertFileTree TreeExamples.repository))) ->
        target = ChartPage.convertFileNode TreeExamples.main_py).
Proof.
  apply (selecting_a_row_draws_its_path
           (ChartPage.convertFileTree TreeExamples.repository)
           (ChartPage.firstLevelPaths (ChartPage.convertFileTree TreeExamples.repository))
           (TreePanel.NodeRow (ChartPage.convertFileNode TreeExamples.main_py) 1 false false)).
  cbn. right. right. now left.
Defined.

(* ------------------------------------------------------------------ *)
(** ** A delete while an analysis ends *)
(* ------------------------------------------------------------------ *)

(** X27.  A delete that succeeds puts back the list of the moment its
    button was pressed: [handleDeleteProject] filters the [projects] of
    the render it was created in, not the current state.  So when the
    analysis of a project ends while the delete of another project is
    awaited, what came of the analysis is lost: after the delete the
    analysed project is still listed, every project with its id shows
    the disabled Analyzing button, and yet it is no longer marked as
    being analysed. *)
Theorem delete_undoes_analysis_result
    (deleted analysed : string) (analysis : ApiResponse Dashboard.AnalyzeResult)
    (deletion : ApiResponse jsval) (s : Dashboard.State) :
  deleted <> analysed ->
  success deletion = true ->
  let pressed := Dashboard.handleAnalyzeProject_begin analysed s in
  let back := Dashboard.handleAnalyzeProject_end analysed analysis pressed in
  let after := DashboardForms.handleDeleteProject_end
                 (Dashboard.projects pressed) deleted deletion back in
  (forall p, In p (Dashboard.projects s) -> project_id p = analysed ->
     In (Dashboard.with_status analyzing p) (Dashboard.projects after))
  /\ (forall p, In p (Dashboard.projects after) -> project_id p = analysed ->
        status p = analyzing
        /\ DashboardForms.card_action after p = DashboardForms.analyzing_button)
  /\ ChartPage.has analysed (Dashboard.analyzingProjects after) = false
  /\ (forall p, In p (Dashboard.projects after) -> project_id p <> deleted).
Proof.
  intros Hne Hok pressed back after.
  assert (Hafter : Dashboard.projects after
                   = filter (fun p => negb (project_id p =? deleted))
                            (Dashboard.projects pressed)).
  { subst after. unfold DashboardForms.handleDeleteProject_end. now rewrite Hok. }
  assert (Hmarks : Dashboard.analyzingProjects after
                   = Dashboard.set_delete analysed (Dashboard.analyzingProjects pressed)).
  { subst after back. unfold DashboardForms.handleDeleteProject_end. rewrite Hok.
    cbn [Dashboard.analyzingProjects]. apply DashboardFacts.end_analyzing. }
  assert (Hstatus : forall p, In p (Dashboard.projects pressed) ->
                      project_id p = analysed -> status p = analyzing).
  { intros p Hp Hid. subst pressed.
    cbn [Dashboard.handleAnalyzeProject_begin Dashboard.projects] in Hp.
    apply in_map_iff in Hp. destruct Hp as (p0 & Hp0 & _).
    destruct (String.eqb_spec (project_id p0) analysed) as [_ | Hp0ne]; subst p.
    - reflexivity.
    - contradiction. }
  repeat split.
  - intros p Hp Hid. rewrite Hafter. apply filter_In. split.
    + subst pressed. cbn [Dashboard.handleAnalyzeProject_begin Dashboard.projects].
      apply in_map_iff. exists p. split; [| exact Hp].
      apply String.eqb_eq in Hid. now rewrite Hid.
    + cbn [Dashboard.with_status project_id]. rewrite Hid.
      apply negb_true_iff, String.eqb_neq. congruence.
  - rewrite Hafter in H. apply filter_In in H. exact (Hstatus p (proj1 H) H0).
  - rewrite Hafter in H. apply filter_In in H.
    unfold DashboardForms.card_action. now rewrite (Hstatus p (proj1 H) H0).
  - rewrite Hmarks, DashboardFacts.has_set_delete, String.eqb_refl. reflexivity.
  - intros p Hp. rewrite Hafter in Hp. apply filter_In in Hp. destruct Hp as [_ Hp].
    apply negb_true_iff in Hp. now apply String.eqb_neq.
Qed.

Lemma delete_undoes_analysis_result_witness :
  let ready_p1 := ok_with {| Dashboard.analyze_success := true;
                             Dashboard.message := "Analysis complete";
                             Dashboard.project := Some (MoreExamples.project "p1" ready) |} in
  let pressed := Dashboard.handleAnalyzeProject_begin "p1" MoreExamples.two_projects in
  let back := Dashboard.handleAnalyzeProject_end "p1" ready_p1 pressed in
  let after := DashboardForms.handleDeleteProject_end
                 (Dashboard.projects pressed) "p2" ok_empty back in
  Dashboard.projects back = [MoreExamples.project "p1" ready; MoreExamples.project "p2" ready]
  /\ Dashboard.projects after = [MoreExamples.project "p1" analyzing]
  /\ ChartPage.has "p1" (Dashboard.analyzingProjects after) = false.
Proof.
  intros ready_p1 pressed back after.
  split; [reflexivity |]. split; [reflexivity |].
  destruct (delete_undoes_analysis_result "p2" "p1" ready_p1 ok_empty
              MoreExamples.two_projects ltac:(discriminate) eq_refl) as (_ & _ & H & _).
  exact H.
Defined.
